(** * beads_viewer: a shallow embedding of the viewer's model layer

    The development follows the Go sources:
    - [pkg/ui/model_export.go]  ([truncateString]),
    - [pkg/drift/config.go]     ([DefaultConfig], [LoadConfig], [Validate]),
    - [pkg/ui/model.go], [pkg/ui/model_filters.go]
                                ([NewModel], [Update], [applyFilter]),
    and, for the analytics engine whose sources are not part of the tree,
    the written specification of the engine. *)

From Stdlib Require Import ZArith QArith Qabs Lia List Bool Floats Permutation.
From Stdlib Require Import Strings.Byte.
From stdpp Require Import gmap strings list pretty.
From Stdlib Require Sorted OrderedTypeEx.
From stdpp Require sorting.

Local Open Scope Z_scope.

(* ===================================================================== *)
(** * Go strings, runes and UTF-8                                          *)
(* ===================================================================== *)

Module Utf8.

(** A Go string is an immutable sequence of bytes. *)
Definition gostring := list byte.

(** A rune is an [int32] code point, kept as an integer. *)
Definition rune := Z.

Definition byte_val (b : byte) : Z := Z.of_N (Byte.to_N b).

Definition byte_of (z : Z) : byte :=
  match Byte.of_N (Z.to_N (z mod 256)) with
  | Some b => b
  | None => x00
  end.

Definition RuneError : rune := 65533. (* U+FFFD *)
Definition MaxRune : rune := 1114111. (* U+10FFFF *)

(** Continuation bytes are [0x80..0xBF]. *)
Definition cont (c : Z) : bool := (128 <=? c) && (c <=? 191).

(** Accepted range of the second byte, by leading byte (the language's
    decoder rejects overlong forms, surrogates and values above
    [MaxRune]). *)
Definition second_lo (c0 : Z) : Z :=
  if c0 =? 224 then 160 else if c0 =? 240 then 144 else 128.
Definition second_hi (c0 : Z) : Z :=
  if c0 =? 237 then 159 else if c0 =? 244 then 143 else 191.
Definition second_ok (c0 c1 : Z) : bool :=
  (second_lo c0 <=? c1) && (c1 <=? second_hi c0).

Definition lead2 (c0 : Z) : bool := (194 <=? c0) && (c0 <=? 223).
Definition lead3 (c0 : Z) : bool := (224 <=? c0) && (c0 <=? 239).
Definition lead4 (c0 : Z) : bool := (240 <=? c0) && (c0 <=? 244).

(** [[]rune(s)]: the code points of [s]; every byte that does not start a
    well-formed sequence yields [RuneError] and is one byte wide. *)
Fixpoint runes_of (s : gostring) : list rune :=
  match s with
  | [] => []
  | b0 :: t0 =>
    let c0 := byte_val b0 in
    if c0 <? 128 then c0 :: runes_of t0
    else
      match t0 with
      | [] => RuneError :: runes_of t0
      | b1 :: t1 =>
        let c1 := byte_val b1 in
        if lead2 c0 && second_ok c0 c1
        then ((c0 - 192) * 64 + (c1 - 128)) :: runes_of t1
        else
          match t1 with
          | [] => RuneError :: runes_of t0
          | b2 :: t2 =>
            let c2 := byte_val b2 in
            if lead3 c0 && second_ok c0 c1 && cont c2
            then ((c0 - 224) * 4096 + (c1 - 128) * 64 + (c2 - 128))
                   :: runes_of t2
            else
              match t2 with
              | [] => RuneError :: runes_of t0
              | b3 :: t3 =>
                let c3 := byte_val b3 in
                if lead4 c0 && second_ok c0 c1 && cont c2 && cont c3
                then ((c0 - 240) * 262144 + (c1 - 128) * 4096
                      + (c2 - 128) * 64 + (c3 - 128)) :: runes_of t3
                else RuneError :: runes_of t0
              end
          end
      end
  end.

(** A rune that has an encoding of its own: a Unicode scalar value. *)
Definition valid_rune (r : rune) : bool :=
  (0 <=? r) && (r <=? MaxRune) && negb ((55296 <=? r) && (r <=? 57343)).

(** The UTF-8 bytes of one rune; runes out of range become [RuneError]. *)
Definition encode_rune (r : rune) : gostring :=
  let r := if valid_rune r then r else RuneError in
  if r <? 128 then [byte_of r]
  else if r <? 2048 then [byte_of (192 + r / 64); byte_of (128 + r mod 64)]
  else if r <? 65536 then
    [byte_of (224 + r / 4096); byte_of (128 + (r / 64) mod 64);
     byte_of (128 + r mod 64)]
  else
    [byte_of (240 + r / 262144); byte_of (128 + (r / 4096) mod 64);
     byte_of (128 + (r / 64) mod 64); byte_of (128 + r mod 64)].

(** [string(runes)]. *)
Definition string_of_runes (rs : list rune) : gostring :=
  flat_map encode_rune rs.

(** Well-formed UTF-8: decoding then encoding gives the bytes back. *)
Definition well_formed (s : gostring) : Prop :=
  string_of_runes (runes_of s) = s.

(** The literal ["…"] (U+2026). *)
Definition ellipsis : gostring := [xe2; x80; xa6].

(** [truncateString] of [pkg/ui/model_export.go]; [maxLen] is a Go [int]. *)
Definition truncateString (s : gostring) (maxLen : Z) : gostring :=
  if maxLen <=? 0 then []
  else
    let runes := runes_of s in
    if Z.of_nat (length runes) <=? maxLen then s
    else if maxLen <=? 3 then string_of_runes (firstn (Z.to_nat maxLen) runes)
    else string_of_runes (firstn (Z.to_nat (maxLen - 1)) runes) ++ ellipsis.

End Utf8.

(* ===================================================================== *)
(** * Results of fallible calls                                            *)
(* ===================================================================== *)

(** A Go [(T, error)] pair: either the value with a [nil] error, or the
    error with its message. *)
Inductive result (A : Type) : Type :=
| Ok (a : A)
| Err (msg : string).
Arguments Ok {A} a.
Arguments Err {A} msg.

(* ===================================================================== *)
(** * Drift thresholds ([package drift])                                   *)
(* ===================================================================== *)

Module drift.

Local Open Scope string_scope.

(** [Config]: the [float64] fields are IEEE-754 binary64 values, the
    [int] field an integer. *)
Record Config : Type := mkConfig {
  DensityWarningPct : float;
  DensityInfoPct : float;
  NodeGrowthInfoPct : float;
  EdgeGrowthInfoPct : float;
  BlockedIncreaseThreshold : Z;
  ActionableDecreaseWarningPct : float;
  ActionableIncreaseInfoPct : float;
  PageRankChangeWarningPct : float
}.

Definition DefaultConfig : Config := {|
  DensityWarningPct := 50;
  DensityInfoPct := 20;
  NodeGrowthInfoPct := 25;
  EdgeGrowthInfoPct := 25;
  BlockedIncreaseThreshold := 5;
  ActionableDecreaseWarningPct := 30;
  ActionableIncreaseInfoPct := 20;
  PageRankChangeWarningPct := 50
|}.

Definition ConfigFilename : string := "drift.yaml".

(** [x < lo || x > hi] on [float64]. *)
Definition outside (x lo hi : float) : bool :=
  PrimFloat.ltb x lo || PrimFloat.ltb hi x.

(** [(c *Config) Validate() error]: [None] is the [nil] error. *)
Definition Validate (c : Config) : option string :=
  if outside (DensityWarningPct c) 0 1000 then
    Some "density_warning_pct must be between 0 and 1000"
  else if outside (DensityInfoPct c) 0 (DensityWarningPct c) then
    Some "density_info_pct must be between 0 and density_warning_pct"
  else if outside (NodeGrowthInfoPct c) 0 1000 then
    Some "node_growth_info_pct must be between 0 and 1000"
  else if outside (EdgeGrowthInfoPct c) 0 1000 then
    Some "edge_growth_info_pct must be between 0 and 1000"
  else if Z.ltb (BlockedIncreaseThreshold c) 0 then
    Some "blocked_increase_threshold must be non-negative"
  else if outside (ActionableDecreaseWarningPct c) 0 100 then
    Some "actionable_decrease_warning_pct must be between 0 and 100"
  else if outside (ActionableIncreaseInfoPct c) 0 1000 then
    Some "actionable_increase_info_pct must be between 0 and 1000"
  else if outside (PageRankChangeWarningPct c) 0 1000 then
    Some "pagerank_change_warning_pct must be between 0 and 1000"
  else None.

(** What [os.ReadFile] can answer. *)
Inductive ReadFile_result : Type :=
| FileData (data : list byte)
| FileNotExist (msg : string)
| FileError (msg : string).

Section Loading.

(** The file system and the libraries [LoadConfig] calls. *)
Variable os_ReadFile : string -> ReadFile_result.
Variable filepath_Join : list string -> string.
(** [yaml.Unmarshal(data, config)] overwrites the fields present in
    [data], or fails. *)
Variable yaml_Unmarshal : list byte -> Config -> result Config.

Definition ConfigPath (projectDir : string) : string :=
  filepath_Join [projectDir; ".bv"; ConfigFilename].

Definition LoadConfig (projectDir : string) : result Config :=
  let path := ConfigPath projectDir in
  match os_ReadFile path with
  | FileNotExist _ => Ok DefaultConfig
  | FileError msg => Err ("reading drift config: " ++ msg)
  | FileData data =>
    match yaml_Unmarshal data DefaultConfig with
    | Err msg => Err ("parsing drift config: " ++ msg)
    | Ok config =>
      match Validate config with
      | Some msg => Err ("invalid drift config: " ++ msg)
      | None => Ok config
      end
    end
  end.

End Loading.

End drift.

(* ===================================================================== *)
(** * Issues and dependencies ([package model])                            *)
(* ===================================================================== *)

Module model.

Local Open Scope string_scope.

(** Modelled from the spec: the declarations of [package model] (the
    types [Issue], [Dependency], [Status] and [DependencyType] and their
    constants), as the viewer uses them: both [Status] and
    [DependencyType] are string types. *)
Definition Status := string.
Definition StatusOpen : Status := "open".
Definition StatusInProgress : Status := "in_progress".
Definition StatusBlocked : Status := "blocked".
Definition StatusClosed : Status := "closed".

Definition DependencyType := string.
Definition DepBlocks : DependencyType := "blocks".
Definition DepRelated : DependencyType := "related".

Record Dependency : Type := mkDependency {
  IssueID : string;
  DependsOnID : string;
  DepType : DependencyType        (* the field [Type] *)
}.

(** [Dependencies] is a [[]*Dependency]: an entry may be [nil] ([None]).
    Times are instants on one clock. *)
Record Issue : Type := mkIssue {
  ID : string;
  Title : string;
  IssueStatus : Status;           (* the field [Status] *)
  Priority : Z;
  CreatedAt : Z;
  UpdatedAt : Z;
  Labels : list string;
  Dependencies : list (option Dependency)
}.

End model.

(* ===================================================================== *)
(** * The analytics engine ([package analysis])                            *)
(* ===================================================================== *)

Module analysis.
Import model.

(** ** Graph model *)

(** Node set: the issue ids, each once, in first-occurrence order. *)
Definition node_ids (issues : list Issue) : list string :=
  remove_dups (map ID issues).

Definition has_id (issues : list Issue) (id : string) : bool :=
  existsb (fun i => String.eqb (ID i) id) issues.

(** The dependency entries that are present; a [nil] entry is dropped. *)
Definition present_deps (issues : list Issue) : list Dependency :=
  flat_map (fun i => omap id (Dependencies i)) issues.

(** Validated dependencies: both endpoints resolve to an issue. *)
Definition valid_deps (issues : list Issue) : list Dependency :=
  filter (fun d => has_id issues (IssueID d) && has_id issues (DependsOnID d) = true)
         (present_deps issues).

(** Modelled from the spec: [BuildGraph]. Edges run from the issue to
    what it depends on, one per validated dependency (multi-edges and
    self-loops are kept). *)
Definition graph_edges (issues : list Issue) : list (string * string) :=
  map (fun d => (IssueID d, DependsOnID d)) (valid_deps issues).

(** The [blocks]-kind edges, from the blocker to the blocked issue. *)
Definition blocks_edges (issues : list Issue) : list (string * string) :=
  map (fun d => (DependsOnID d, IssueID d))
      (filter (fun d => String.eqb (DepType d) DepBlocks = true) (valid_deps issues)).

(** Successors of [v], with multiplicity. *)
Definition succs (E : list (string * string)) (v : string) : list string :=
  map snd (filter (fun e => String.eqb (fst e) v = true) E).

(** ** Paths and cycles *)

(** [edge E u w]: there is an edge from [u] to [w]. *)
Definition edge (E : list (string * string)) (u w : string) : Prop := In (u, w) E.

(** A cycle is given by its nodes in order: every node has an edge to
    the next, and the last to the first. *)
Definition edgeb (E : list (string * string)) (a b : string) : bool :=
  existsb (fun e => String.eqb (fst e) a && String.eqb (snd e) b) E.

Fixpoint chainb (E : list (string * string)) (l : list string) : bool :=
  match l with
  | a :: ((b :: _) as t) => edgeb E a b && chainb E t
  | _ => true
  end.

Definition is_cycle (E : list (string * string)) (c : list string) : bool :=
  match c with
  | [] => false
  | v :: _ => chainb E (c ++ [v])
  end.


(** [v] and [w] lie on a common cycle, or are the same node. *)
Definition connected (E : list (string * string)) (v w : string) : Prop :=
  w = v \/ (tc (edge E) v w /\ tc (edge E) w v).


(** ** PageRank

    Modelled from the spec: power iteration with damping 0.85, uniform
    initial mass [1/N], the mass of dangling nodes spread uniformly,
    stopping when the L1 change is below [1e-6] or after 100 rounds, the
    scores then normalised to sum to one. The arithmetic is exact
    (rationals stand for [float64]); every round reduces its fractions. *)

Definition Qsum (l : list Q) : Q := fold_right Qplus 0%Q l.

(** A score vector: the nodes with their scores. *)
Definition rank := list (string * Q).

Definition get (r : rank) (v : string) : Q :=
  match List.find (fun p => String.eqb (fst p) v) r with
  | Some p => snd p
  | None => 0%Q
  end.

Definition damping : Q := (85 # 100)%Q.
Definition tolerance : Q := (1 # 1000000)%Q.
Definition max_iterations : nat := 100.

Definition Qnat (n : nat) : Q := inject_Z (Z.of_nat n).

Definition count (v : string) (l : list string) : nat :=
  length (filter (fun w => String.eqb w v = true) l).

(** What [u] sends to [v] in one round. *)
Definition contrib (E : list (string * string)) (n : nat) (r : rank)
    (v u : string) : Q :=
  match succs E u with
  | [] => (get r u / Qnat n)%Q
  | outs => (get r u * Qnat (count v outs) / Qnat (length outs))%Q
  end.

Definition pagerank_step (nodes : list string) (E : list (string * string))
    (r : rank) : rank :=
  let n := length nodes in
  map (fun v => (v, Qred ((1 - damping) / Qnat n
                           + damping * Qsum (map (contrib E n r v) nodes))%Q))
      nodes.

Definition l1_delta (nodes : list string) (r r' : rank) : Q :=
  Qsum (map (fun v => Qabs (get r' v - get r v)%Q) nodes).

Fixpoint pagerank_iterate (fuel : nat) (nodes : list string)
    (E : list (string * string)) (r : rank) : rank :=
  match fuel with
  | O => r
  | S fuel' =>
    let r' := pagerank_step nodes E r in
    if Qlt_le_dec (l1_delta nodes r r') tolerance then r'
    else pagerank_iterate fuel' nodes E r'
  end.

Definition pagerank_init (nodes : list string) : rank :=
  map (fun v => (v, (1 / Qnat (length nodes))%Q)) nodes.

Definition normalize (r : rank) : rank :=
  let total := Qsum (map snd r) in
  map (fun p => (fst p, (snd p / total)%Q)) r.


Definition PageRank (issues : list Issue) : rank :=
  let nodes := node_ids issues in
  match nodes with
  | [] => []
  | _ => normalize (pagerank_iterate max_iterations nodes (graph_edges issues)
                                     (pagerank_init nodes))
  end.

(** ** Critical path (height)

    Modelled from the spec: reverse-topological dynamic programming over
    the [blocks] edges. A round settles every node all of whose
    successors are settled: height 0 without successors, else one more
    than the highest successor. Nodes that never settle lie on a cycle or
    lead into one; they get the sentinel height. *)

Definition sentinel_height : Z := -1.

Definition settled (done : list (string * Z)) (v : string) : bool :=
  existsb (fun p => String.eqb (fst p) v) done.

Definition height_in (done : list (string * Z)) (v : string) : Z :=
  match List.find (fun p => String.eqb (fst p) v) done with
  | Some p => snd p
  | None => 0
  end.

Definition can_settle (E : list (string * string)) (done : list (string * Z))
    (v : string) : bool :=
  forallb (settled done) (succs E v).

Definition height_from (E : list (string * string)) (done : list (string * Z))
    (v : string) : Z :=
  fold_right Z.max 0 (map (fun w => 1 + height_in done w) (succs E v)).

Fixpoint settle (fuel : nat) (E : list (string * string))
    (done : list (string * Z)) (remaining : list string)
    : list (string * Z) * list string :=
  match fuel with
  | O => (done, remaining)
  | S fuel' =>
    let now := List.filter (can_settle E done) remaining in
    match now with
    | [] => (done, remaining)
    | _ =>
      settle fuel' E
             (done ++ map (fun v => (v, height_from E done v)) now)
             (List.filter (fun v => negb (can_settle E done v)) remaining)
    end
  end.

Record CriticalPathResult : Type := mkCriticalPath {
  Heights : list (string * Z);
  cp_HasCycle : bool
}.

Definition CriticalPath (issues : list Issue) : CriticalPathResult :=
  let nodes := node_ids issues in
  let '(done, remaining) := settle (length nodes) (blocks_edges issues) [] nodes in
  {| Heights := done ++ map (fun v => (v, sentinel_height)) remaining;
     cp_HasCycle := negb (Nat.eqb (length remaining) 0) |}.

(** The nodes that take part in longest-path reporting: those with a
    reliable height. *)
Definition longest_path_candidates (r : CriticalPathResult)
    : list (string * Z) :=
  List.filter (fun p => negb (Z.eqb (snd p) sentinel_height)) (Heights r).

Definition longest_path_length (r : CriticalPathResult) : Z :=
  fold_right Z.max 0 (map snd (longest_path_candidates r)).

(** ** Cycle detection

    Modelled from the spec: strongly connected components, computed by
    closing the successor sets; a component of more than one node, or a
    node with a self-loop, is a cycle. Each component is reported once,
    at its first node. *)

Definition succ_set (E : list (string * string)) (S : gset string)
    : gset string :=
  list_to_set (map snd (filter (fun e => fst e ∈ S) E)).

Fixpoint closure (n : nat) (E : list (string * string)) (S : gset string)
    : gset string :=
  match n with
  | O => S
  | Datatypes.S n' => closure n' E (S ∪ succ_set E S)
  end.

(** The nodes reachable from [u] by at least one edge. *)
Definition reach_plus (nodes : list string) (E : list (string * string))
    (u : string) : gset string :=
  closure (length nodes) E (succ_set E {[u]}).

Definition same_component (nodes : list string) (E : list (string * string))
    (v w : string) : bool :=
  String.eqb w v
  || (bool_decide (w ∈ reach_plus nodes E v)
      && bool_decide (v ∈ reach_plus nodes E w)).

Definition component (nodes : list string) (E : list (string * string))
    (v : string) : list string :=
  List.filter (same_component nodes E v) nodes.

Definition self_loop (E : list (string * string)) (v : string) : bool :=
  existsb (fun e => String.eqb (fst e) v && String.eqb (snd e) v) E.

Definition is_cyclic (nodes : list string) (E : list (string * string))
    (v : string) : bool :=
  Nat.ltb 1 (length (component nodes E v)) || self_loop E v.

Fixpoint components_from (nodes : list string) (E : list (string * string))
    (todo : list string) (seen : gset string) : list (list string) :=
  match todo with
  | [] => []
  | v :: todo' =>
    if bool_decide (v ∈ seen) then components_from nodes E todo' seen
    else
      let c := component nodes E v in
      (if is_cyclic nodes E v then [c] else [])
        ++ components_from nodes E todo' (list_to_set c ∪ seen)
  end.

Definition DetectCycles (issues : list Issue) : list (list string) :=
  let nodes := node_ids issues in
  components_from nodes (graph_edges issues) nodes ∅.

(** [T] holds the successors of its members. *)
Definition closed (E : list (string * string)) (T : gset string) : Prop :=
  succ_set E T ⊆ T.

(** ** Fingerprint

    Modelled from the spec: a deterministic hash over (issue id, status,
    priority, dependency list) of all issues, independent of their order.
    Each issue is hashed by 64-bit FNV-1a over its fields; the issue
    hashes are added modulo [2^64]. *)

Definition Fingerprint_t := Z.

Definition two64 : Z := 18446744073709551616.
Definition fnv_offset : Z := 14695981039346656037.
Definition fnv_prime : Z := 1099511628211.

Definition fnv_word (h w : Z) : Z :=
  (Z.lxor h (w mod two64) * fnv_prime) mod two64.

Definition fnv_byte (h : Z) (b : byte) : Z :=
  fnv_word h (Z.of_N (Byte.to_N b)).

(** A string, then a zero byte as separator. *)
Definition fnv_string (h : Z) (s : string) : Z :=
  fnv_byte (fold_left fnv_byte (String.list_byte_of_string s) h) x00.

Definition fnv_dependency (h : Z) (d : Dependency) : Z :=
  fnv_string (fnv_string (fnv_string h (IssueID d)) (DependsOnID d)) (DepType d).

(** What of an issue the fingerprint reads. *)
Definition fingerprint_key (i : Issue)
    : string * Status * Z * list Dependency :=
  (ID i, IssueStatus i, Priority i, omap id (Dependencies i)).

Definition key_hash (k : string * Status * Z * list Dependency) : Z :=
  let '(id, status, priority, deps) := k in
  fold_left fnv_dependency deps
            (fnv_word (fnv_string (fnv_string fnv_offset id) status) priority).

Definition issue_hash (i : Issue) : Z := key_hash (fingerprint_key i).

Definition Fingerprint (issues : list Issue) : Fingerprint_t :=
  fold_right (fun i acc => (issue_hash i + acc) mod two64) 0 issues.

(** ** Result store *)

Record Phase1Stats : Type := mkPhase1 {
  NodeCount : nat;
  EdgeCount : nat;
  Density : Q;
  OpenCount : nat;
  BlockedCount : nat;
  ClosedCount : nat
}.

Definition count_status (issues : list Issue) (s : Status) : nat :=
  length (List.filter (fun i => String.eqb (IssueStatus i) s) issues).

(** Modelled from the spec: the Phase-1 summary (density guarded against
    [nodes <= 1]). *)
Definition ComputePhase1 (issues : list Issue) : Phase1Stats :=
  let n := length (node_ids issues) in
  let e := length (graph_edges issues) in
  {| NodeCount := n;
     EdgeCount := e;
     Density := if Nat.leb n 1 then 0%Q
                else (Qnat e / (Qnat n * Qnat (n - 1)))%Q;
     OpenCount := length (List.filter
                    (fun i => negb (String.eqb (IssueStatus i) StatusClosed)) issues);
     BlockedCount := count_status issues StatusBlocked;
     ClosedCount := count_status issues StatusClosed |}.

(** The named metrics of the accessor surface. *)
Inductive Metric : Type :=
| MPageRank | MBetweenness | MEigenvector | MHub | MAuthority | MCriticalPath.

Record Phase2Stats : Type := mkPhase2 {
  PageRankScores : gmap string Q;
  BetweennessScores : gmap string Q;
  EigenvectorScores : gmap string Q;
  HubScores : gmap string Q;
  AuthorityScores : gmap string Q;
  CriticalPathScores : gmap string Q;
  HasCycle : bool;
  CycleList : list (list string)
}.

(** [GraphStats]: Phase 1 is there from construction; Phase 2 is absent
    until it is published, once and whole. *)
Record GraphStats : Type := mkGraphStats {
  phase1 : Phase1Stats;
  phase2 : option Phase2Stats
}.

Definition scores_of (p : Phase2Stats) (m : Metric) : gmap string Q :=
  match m with
  | MPageRank => PageRankScores p
  | MBetweenness => BetweennessScores p
  | MEigenvector => EigenvectorScores p
  | MHub => HubScores p
  | MAuthority => AuthorityScores p
  | MCriticalPath => CriticalPathScores p
  end.

(** Modelled from the spec: [Get<Metric>Score]. A read of the store as
    it is: zero until Phase 2 is published, and for an unknown id. *)
Definition GetScore (m : Metric) (s : GraphStats) (issueId : string) : Q :=
  match phase2 s with
  | None => 0%Q
  | Some p => default 0%Q (scores_of p m !! issueId)
  end.

Definition GetPageRankScore := GetScore MPageRank.
Definition GetBetweennessScore := GetScore MBetweenness.
Definition GetEigenvectorScore := GetScore MEigenvector.
Definition GetHubScore := GetScore MHub.
Definition GetAuthorityScore := GetScore MAuthority.
Definition GetCriticalPathScore := GetScore MCriticalPath.

(** Modelled from the spec: [Cycles()], empty before Phase 2 publishes. *)
Definition Cycles (s : GraphStats) : list (list string) :=
  match phase2 s with
  | None => []
  | Some p => CycleList p
  end.

Definition IsPhase2Ready (s : GraphStats) : bool :=
  match phase2 s with None => false | Some _ => true end.

(** ** The engine: store, fingerprint cache and Phase-2 counter *)

(** A [*GraphStats]. *)
Definition handle := positive.

Record Analyzer : Type := mkAnalyzer {
  analyzer_issues : list Issue
}.

(** A generation: the issues it was started on and its result store. *)
Record Generation : Type := mkGeneration {
  gen_issues : list Issue;
  gen_stats : GraphStats
}.

(** The cache keeps the most recent completed generation only. *)
Definition Cache := option (Fingerprint_t * handle).

Record Engine : Type := mkEngine {
  store : gmap positive Generation;
  next_handle : positive;
  shared_cache : Cache;
  phase2_runs : nat                (* Phase-2 computations started *)
}.

Definition empty_stats : GraphStats :=
  {| phase1 := ComputePhase1 []; phase2 := None |}.

(** The store behind a handle the engine gave out. *)
Definition stats_at (e : Engine) (h : handle) : GraphStats :=
  match store e !! h with
  | Some g => gen_stats g
  | None => empty_stats
  end.

Section Engine.

(** The centralities no property below looks into (betweenness,
    eigenvector, hub, authority). *)
Variable centrality : Metric -> list Issue -> gmap string Q.

(** Modelled from the spec: the Phase-2 result set, built whole. *)
Definition ComputePhase2 (issues : list Issue) : Phase2Stats :=
  let cp := CriticalPath issues in
  {| PageRankScores := list_to_map (PageRank issues);
     BetweennessScores := centrality MBetweenness issues;
     EigenvectorScores := centrality MEigenvector issues;
     HubScores := centrality MHub issues;
     AuthorityScores := centrality MAuthority issues;
     CriticalPathScores :=
       list_to_map (map (fun p => (fst p, inject_Z (snd p))) (Heights cp));
     HasCycle := cp_HasCycle cp;
     CycleList := DetectCycles issues |}.

Definition NewAnalyzer (issues : list Issue) : Analyzer :=
  {| analyzer_issues := issues |}.

(** Modelled from the spec: [AnalyzeAsync] returns at once with Phase 1
    in a fresh store and Phase 2 scheduled. *)
Definition AnalyzeAsync (e : Engine) (a : Analyzer) : Engine * handle :=
  let h := next_handle e in
  ({| store := <[h := {| gen_issues := analyzer_issues a;
                         gen_stats := {| phase1 := ComputePhase1 (analyzer_issues a);
                                         phase2 := None |} |}]> (store e);
      next_handle := Pos.succ h;
      shared_cache := shared_cache e;
      phase2_runs := S (phase2_runs e) |}, h).

(** The background computation of generation [h] finishes: its result
    set is published in one step, and the generation becomes the cached
    one. A generation is published once. *)
Definition Phase2Completes (e : Engine) (h : handle) : Engine :=
  match store e !! h with
  | None => e
  | Some g =>
    match phase2 (gen_stats g) with
    | Some _ => e
    | None =>
      {| store := <[h := {| gen_issues := gen_issues g;
                            gen_stats := {| phase1 := phase1 (gen_stats g);
                                            phase2 := Some (ComputePhase2 (gen_issues g)) |} |}]>
                    (store e);
         next_handle := next_handle e;
         shared_cache := Some (Fingerprint (gen_issues g), h);
         phase2_runs := phase2_runs e |}
    end
  end.

Record CachedAnalyzer : Type := mkCachedAnalyzer {
  ca_Analyzer : Analyzer;        (* the embedded [Analyzer] *)
  ca_stats : handle;
  ca_cacheHit : bool
}.

(** Modelled from the spec: [NewCachedAnalyzer(issues, previousCache)].
    A [nil] cache stands for the engine's shared one. On a fingerprint
    match the cached store is reused; otherwise a fresh [AnalyzeAsync]
    is started. *)
Definition NewCachedAnalyzer (e : Engine) (issues : list Issue)
    (previousCache : option Cache) : Engine * CachedAnalyzer :=
  let cache := match previousCache with
               | Some c => c
               | None => shared_cache e
               end in
  let a := NewAnalyzer issues in
  match cache with
  | Some (fp, h) =>
    if Z.eqb fp (Fingerprint issues)
    then (e, {| ca_Analyzer := a; ca_stats := h; ca_cacheHit := true |})
    else let '(e', h') := AnalyzeAsync e a in
         (e', {| ca_Analyzer := a; ca_stats := h'; ca_cacheHit := false |})
  | None =>
    let '(e', h') := AnalyzeAsync e a in
    (e', {| ca_Analyzer := a; ca_stats := h'; ca_cacheHit := false |})
  end.

(** [cachedAnalyzer.AnalyzeAsync(ctx)] hands out the store chosen at
    construction; [WasCacheHit] reads the flag. *)
Definition CachedAnalyzer_AnalyzeAsync (ca : CachedAnalyzer) : handle :=
  ca_stats ca.
Definition WasCacheHit (ca : CachedAnalyzer) : bool := ca_cacheHit ca.

End Engine.

(** A height as a score. *)
Definition as_score (p : string * Z) : string * Q := (fst p, inject_Z (snd p)).

(** The store of a generation over [issues] once Phase 2 is published. *)
Definition published (centrality : Metric -> list Issue -> gmap string Q)
    (issues : list Issue) : GraphStats :=
  {| phase1 := ComputePhase1 issues;
     phase2 := Some (ComputePhase2 centrality issues) |}.

(** ** Runs of the engine *)

(** What happens to the engine: an analysis is started, a cached
    analysis is asked for, or the background computation of a generation
    finishes. *)
Inductive EngineStep : Type :=
| StepAnalyze (a : Analyzer)
| StepCached (issues : list Issue)
| StepComplete (h : handle).

Definition empty_engine : Engine :=
  {| store := ∅; next_handle := 1%positive; shared_cache := None; phase2_runs := 0 |}.

(** Generation [h] is stored, below [next_handle], and unpublished. *)
Definition pending (h : handle) (e : Engine) : Prop :=
  (h < next_handle e)%positive
  /\ exists g, store e !! h = Some g /\ phase2 (gen_stats g) = None.

Section Runs.

Variable centrality : Metric -> list Issue -> gmap string Q.

Definition run_step (e : Engine) (s : EngineStep) : Engine :=
  match s with
  | StepAnalyze a => fst (AnalyzeAsync e a)
  | StepCached issues => fst (NewCachedAnalyzer e issues None)
  | StepComplete h => Phase2Completes centrality e h
  end.

Definition run (steps : list EngineStep) (e : Engine) : Engine :=
  fold_left run_step steps e.

(** What holds of every engine state: handles given out are below
    [next_handle]; a stored generation has its Phase 1, and its Phase 2
    is absent or whole; the cache names a published generation by the
    fingerprint of its issues. *)
Definition engine_ok (e : Engine) : Prop :=
  (forall h g, store e !! h = Some g ->
     (h < next_handle e)%positive
     /\ phase1 (gen_stats g) = ComputePhase1 (gen_issues g)
     /\ (phase2 (gen_stats g) = None
         \/ phase2 (gen_stats g) = Some (ComputePhase2 centrality (gen_issues g))))
  /\ (forall fp h, shared_cache e = Some (fp, h) ->
        exists g, store e !! h = Some g
                  /\ fp = Fingerprint (gen_issues g)
                  /\ phase2 (gen_stats g)
                     = Some (ComputePhase2 centrality (gen_issues g))).

End Runs.

End analysis.

(* ===================================================================== *)
(** * The viewer's model ([package ui])                                    *)
(* ===================================================================== *)

Module ui.
Import model analysis.

Local Open Scope string_scope.

(** A call either returns or panics (a [nil] dereference). *)
Inductive outcome (A : Type) : Type :=
| Returns (a : A)
| Panics (msg : string).
Arguments Returns {A} a.
Arguments Panics {A} msg.

(** Sequencing: a panic ends the call. *)
#[global] Instance outcome_bind : MBind outcome :=
  fun A B (k : A -> outcome B) (o : outcome A) =>
    match o with
    | Returns a => k a
    | Panics msg => Panics msg
    end.

Definition nil_dereference : string :=
  "runtime error: invalid memory address or nil pointer dereference".

Inductive focus : Type :=
| focusList | focusDetail | focusBoard | focusGraph | focusLabelDashboard
| focusInsights | focusActionable | focusRecipePicker | focusRepoPicker
| focusHelp | focusQuitConfirm | focusTimeTravelInput | focusHistory
| focusAttention | focusLabelPicker | focusSprint.

Definition focus_eqb (a b : focus) : bool :=
  match a, b with
  | focusList, focusList | focusDetail, focusDetail | focusBoard, focusBoard
  | focusGraph, focusGraph | focusLabelDashboard, focusLabelDashboard
  | focusInsights, focusInsights | focusActionable, focusActionable
  | focusRecipePicker, focusRecipePicker | focusRepoPicker, focusRepoPicker
  | focusHelp, focusHelp | focusQuitConfirm, focusQuitConfirm
  | focusTimeTravelInput, focusTimeTravelInput | focusHistory, focusHistory
  | focusAttention, focusAttention | focusLabelPicker, focusLabelPicker
  | focusSprint, focusSprint => true
  | _, _ => false
  end.

Inductive DiffStatus : Type :=
| DiffStatusNone | DiffStatusNew | DiffStatusClosed | DiffStatusModified.

Record IssueItem : Type := mkIssueItem {
  item_Issue : Issue;
  GraphScore : Q;
  Impact : Q;
  item_DiffStatus : DiffStatus;
  RepoPrefix : string;
  TriageScore : Q;
  TriageReason : string;
  item_TriageReasons : list string;
  IsQuickWin : bool;
  IsBlocker : bool;
  UnblocksCount : nat
}.

(** [recipe.Recipe], as far as the model reads it. *)
Record SortConfig : Type := mkSort { Field : string; Direction : string }.
Record FilterConfig : Type := mkFilters {
  FilterStatus : list string;
  FilterPriority : list Z;
  FilterTags : list string;
  Actionable : option bool        (* a [*bool] *)
}.
Record Recipe : Type := mkRecipe {
  Name : string;
  Sort : SortConfig;
  Filters : FilterConfig
}.

(** [analysis.TriageReasons] and the triage result, as far as read. *)
Record TriageReasons : Type := mkTriageReasons {
  Primary : string;
  All : list string;
  ActionHint : string
}.
Record Recommendation : Type := mkRecommendation {
  rec_ID : string;
  rec_Score : Q;
  rec_Reasons : list string;
  rec_Action : string;
  rec_UnblocksIDs : list string
}.

(** A [*watcher.Watcher]. *)
Definition Watcher := positive.

(** Commands handed to the runtime; [tea.Batch] of them is a list, the
    [nil] command the empty list. *)
Inductive Cmd : Type :=
| CheckUpdateCmd
| WaitForPhase2Cmd (stats : handle)
| WatchFileCmd (w : Watcher)
| LoadHistoryCmd (issues : list Issue) (beadsPath : string)
| BuildSemanticIndexCmd (issues : list Issue)
| ListCmd (tag : string).

(** The messages handled below. [Phase2ReadyMsg] carries the store that
    completed. *)
Inductive Msg : Type :=
| UpdateMsg (TagName URL : string)
| Phase2ReadyMsg (Stats : option handle)
| FileChangedMsg.

(** The collaborators outside [pkg/ui/model*.go]: the list, board,
    insights and graph widgets, the triage and alert computations, and
    library calls. *)
Record Components : Type := mkComponents {
  IsBlocking : DependencyType -> bool;
  ExtractRepoPrefix : string -> string;
  strings_ToLower : string -> string;
  sort_issues : (Issue -> Issue -> bool) -> list Issue -> list Issue;
  sort_items : (IssueItem -> IssueItem -> bool) -> list IssueItem -> list IssueItem;
  centrality : Metric -> list Issue -> gmap string Q;

  ListModel : Type;
  list_New : list IssueItem -> ListModel;
  list_SetItems : ListModel -> list IssueItem -> ListModel;
  list_Items : ListModel -> list IssueItem;
  list_SelectedItem : ListModel -> option IssueItem;
  list_Select : ListModel -> Z -> ListModel;
  list_Index : ListModel -> Z;
  list_Update : ListModel -> Msg -> ListModel * option Cmd;

  BoardModel : Type;
  NewBoardModel : list Issue -> BoardModel;
  board_SetIssues : BoardModel -> list Issue -> BoardModel;

  Insights : Type;
  GenerateInsights : GraphStats -> nat -> Insights;
  TopPicks : Type;
  InsightsModel : Type;
  NewInsightsModel : Insights -> gmap string Issue -> InsightsModel;
  insights_SetSize : InsightsModel -> Z -> Z -> InsightsModel;
  insights_SetTopPicks : InsightsModel -> TopPicks -> InsightsModel;
  insights_SetRecommendations :
    InsightsModel -> list Recommendation -> string -> InsightsModel;

  GraphModel : Type;
  NewGraphModel : list Issue -> Insights -> GraphModel;
  graph_SetIssues : GraphModel -> list Issue -> Insights -> GraphModel;

  TriageResult : Type;
  ComputeTriage : list Issue -> TriageResult;
  triage_TopPicks : TriageResult -> TopPicks;
  triage_Recommendations : TriageResult -> list Recommendation;
  triage_QuickWins : TriageResult -> list Recommendation;
  triage_BlockersToClear : TriageResult -> list Recommendation;
  triage_dataHash : TriageResult -> string;

  PriorityRecommendation : Type;
  pr_IssueID : PriorityRecommendation -> string;
  GenerateRecommendations : Analyzer -> GraphStats -> list PriorityRecommendation;

  Alert : Type;
  computeAlerts : list Issue -> GraphStats -> Analyzer -> list Alert * Z * Z * Z;

  LabelAnalysisResult : Type;
  empty_LabelAnalysisResult : LabelAnalysisResult;
  ComputeAllLabelHealth : list Issue -> GraphStats -> LabelAnalysisResult;
  labels_status : LabelAnalysisResult -> string;
  LabelDashboardModel : Type;
  labelDashboard_SetData : LabelDashboardModel -> LabelAnalysisResult -> LabelDashboardModel;

  NewLabelDashboardModel : LabelDashboardModel;
  insights_set_extraText : InsightsModel -> string -> InsightsModel;

  SnapshotDiff : Type;
  Sprint : Type;
  sprint_ID : Sprint -> string;
  sprints_path : string -> string;
  Viewport : Type;
  zero_Viewport : Viewport
}.

Section WithComponents.

Variable C : Components.

(** [Model], as far as [NewModel], [Update] on the three messages and
    the filters read or write it. Field [f] of the source is [m_f]. *)
Record Model : Type := mkModel {
  m_issues : list Issue;
  m_issueMap : gmap string Issue;
  m_analyzer : Analyzer;
  m_analysis : handle;
  m_beadsPath : string;
  m_watcher : option Watcher;

  m_list : ListModel C;
  m_viewport : Viewport C;
  m_board : BoardModel C;
  m_labelDashboard : LabelDashboardModel C;
  m_graphView : GraphModel C;
  m_insightsPanel : InsightsModel C;

  m_updateAvailable : bool;
  m_updateTag : string;
  m_updateURL : string;

  m_focused : focus;
  m_width : Z;
  m_height : Z;
  m_showAttentionView : bool;
  m_labelHealthCached : bool;
  m_labelHealthCache : LabelAnalysisResult C;
  m_attentionCached : bool;
  m_flowMatrixText : string;
  m_labelDrilldownCache : gmap string (list Issue);

  m_currentFilter : string;
  m_semanticSearchEnabled : bool;
  m_semanticIndexBuilding : bool;
  m_semanticIDs : list string;

  m_countOpen : Z;
  m_countReady : Z;
  m_countBlocked : Z;
  m_countClosed : Z;

  m_priorityHints : gmap string (PriorityRecommendation C);

  m_triageScores : gmap string Q;
  m_triageReasons : gmap string TriageReasons;
  m_unblocksMap : gmap string (list string);
  m_quickWinSet : gmap string bool;
  m_blockerSet : gmap string bool;

  m_activeRecipe : option Recipe;

  m_timeTravelMode : bool;
  m_timeTravelDiff : option (SnapshotDiff C);
  m_timeTravelSince : string;
  m_newIssueIDs : option (gmap string bool);
  m_closedIssueIDs : option (gmap string bool);
  m_modifiedIssueIDs : option (gmap string bool);

  m_statusMsg : string;
  m_statusIsError : bool;

  m_workspaceMode : bool;
  m_activeRepos : option (gmap string bool);

  m_alerts : list (Alert C);
  m_alertsCritical : Z;
  m_alertsWarning : Z;
  m_alertsInfo : Z;
  m_showAlertsPanel : bool;
  m_dismissedAlerts : gmap string bool;

  m_sprints : list (Sprint C);
  m_selectedSprint : option (Sprint C);
  m_sprintViewText : string
}.

(** The model rebuilt from its fields; the setters below replace one. *)
Definition eta (m : Model) : Model :=
  mkModel
    (m_issues m) (m_issueMap m) (m_analyzer m) (m_analysis m)
    (m_beadsPath m) (m_watcher m) (m_list m) (m_viewport m) (m_board m)
    (m_labelDashboard m) (m_graphView m) (m_insightsPanel m)
    (m_updateAvailable m) (m_updateTag m) (m_updateURL m) (m_focused m)
    (m_width m) (m_height m) (m_showAttentionView m)
    (m_labelHealthCached m) (m_labelHealthCache m) (m_attentionCached m)
    (m_flowMatrixText m) (m_labelDrilldownCache m) (m_currentFilter m)
    (m_semanticSearchEnabled m) (m_semanticIndexBuilding m)
    (m_semanticIDs m) (m_countOpen m) (m_countReady m) (m_countBlocked m)
    (m_countClosed m) (m_priorityHints m) (m_triageScores m)
    (m_triageReasons m) (m_unblocksMap m) (m_quickWinSet m)
    (m_blockerSet m) (m_activeRecipe m) (m_timeTravelMode m)
    (m_timeTravelDiff m) (m_timeTravelSince m) (m_newIssueIDs m)
    (m_closedIssueIDs m) (m_modifiedIssueIDs m) (m_statusMsg m)
    (m_statusIsError m) (m_workspaceMode m) (m_activeRepos m) (m_alerts m)
    (m_alertsCritical m) (m_alertsWarning m) (m_alertsInfo m)
    (m_showAlertsPanel m) (m_dismissedAlerts m) (m_sprints m)
    (m_selectedSprint m) (m_sprintViewText m).

Ltac setter proj v m :=
  let e := eval cbv beta delta [eta] in (eta m) in
  match eval pattern (proj m) in e with
  | ?f _ => let r := eval cbv beta in (f v) in exact r
  end.

(** Assignment to one field: [m.f = v]. *)
Definition set_issues (v : list Issue) (m : Model) : Model :=
  ltac:(setter m_issues v m).
Definition set_issueMap (v : gmap string Issue) (m : Model) : Model :=
  ltac:(setter m_issueMap v m).
Definition set_analyzer (v : Analyzer) (m : Model) : Model :=
  ltac:(setter m_analyzer v m).
Definition set_analysis (v : handle) (m : Model) : Model :=
  ltac:(setter m_analysis v m).
Definition set_list (v : ListModel C) (m : Model) : Model :=
  ltac:(setter m_list v m).
Definition set_viewport (v : Viewport C) (m : Model) : Model :=
  ltac:(setter m_viewport v m).
Definition set_board (v : BoardModel C) (m : Model) : Model :=
  ltac:(setter m_board v m).
Definition set_labelDashboard (v : LabelDashboardModel C) (m : Model) : Model :=
  ltac:(setter m_labelDashboard v m).
Definition set_graphView (v : GraphModel C) (m : Model) : Model :=
  ltac:(setter m_graphView v m).
Definition set_insightsPanel (v : InsightsModel C) (m : Model) : Model :=
  ltac:(setter m_insightsPanel v m).
Definition set_updateAvailable (v : bool) (m : Model) : Model :=
  ltac:(setter m_updateAvailable v m).
Definition set_updateTag (v : string) (m : Model) : Model :=
  ltac:(setter m_updateTag v m).
Definition set_updateURL (v : string) (m : Model) : Model :=
  ltac:(setter m_updateURL v m).
Definition set_showAttentionView (v : bool) (m : Model) : Model :=
  ltac:(setter m_showAttentionView v m).
Definition set_labelHealthCached (v : bool) (m : Model) : Model :=
  ltac:(setter m_labelHealthCached v m).
Definition set_labelHealthCache (v : LabelAnalysisResult C) (m : Model) : Model :=
  ltac:(setter m_labelHealthCache v m).
Definition set_attentionCached (v : bool) (m : Model) : Model :=
  ltac:(setter m_attentionCached v m).
Definition set_flowMatrixText (v : string) (m : Model) : Model :=
  ltac:(setter m_flowMatrixText v m).
Definition set_labelDrilldownCache (v : gmap string (list Issue)) (m : Model) : Model :=
  ltac:(setter m_labelDrilldownCache v m).
Definition set_currentFilter (v : string) (m : Model) : Model :=
  ltac:(setter m_currentFilter v m).
Definition set_semanticIndexBuilding (v : bool) (m : Model) : Model :=
  ltac:(setter m_semanticIndexBuilding v m).
Definition set_semanticIDs (v : list string) (m : Model) : Model :=
  ltac:(setter m_semanticIDs v m).
Definition set_countOpen (v : Z) (m : Model) : Model :=
  ltac:(setter m_countOpen v m).
Definition set_countReady (v : Z) (m : Model) : Model :=
  ltac:(setter m_countReady v m).
Definition set_countBlocked (v : Z) (m : Model) : Model :=
  ltac:(setter m_countBlocked v m).
Definition set_countClosed (v : Z) (m : Model) : Model :=
  ltac:(setter m_countClosed v m).
Definition set_priorityHints (v : gmap string (PriorityRecommendation C)) (m : Model) : Model :=
  ltac:(setter m_priorityHints v m).
Definition set_timeTravelMode (v : bool) (m : Model) : Model :=
  ltac:(setter m_timeTravelMode v m).
Definition set_timeTravelDiff (v : option (SnapshotDiff C)) (m : Model) : Model :=
  ltac:(setter m_timeTravelDiff v m).
Definition set_timeTravelSince (v : string) (m : Model) : Model :=
  ltac:(setter m_timeTravelSince v m).
Definition set_newIssueIDs (v : option (gmap string bool)) (m : Model) : Model :=
  ltac:(setter m_newIssueIDs v m).
Definition set_closedIssueIDs (v : option (gmap string bool)) (m : Model) : Model :=
  ltac:(setter m_closedIssueIDs v m).
Definition set_modifiedIssueIDs (v : option (gmap string bool)) (m : Model) : Model :=
  ltac:(setter m_modifiedIssueIDs v m).
Definition set_statusMsg (v : string) (m : Model) : Model :=
  ltac:(setter m_statusMsg v m).
Definition set_statusIsError (v : bool) (m : Model) : Model :=
  ltac:(setter m_statusIsError v m).
Definition set_alerts (v : list (Alert C)) (m : Model) : Model :=
  ltac:(setter m_alerts v m).
Definition set_alertsCritical (v : Z) (m : Model) : Model :=
  ltac:(setter m_alertsCritical v m).
Definition set_alertsWarning (v : Z) (m : Model) : Model :=
  ltac:(setter m_alertsWarning v m).
Definition set_alertsInfo (v : Z) (m : Model) : Model :=
  ltac:(setter m_alertsInfo v m).
Definition set_showAlertsPanel (v : bool) (m : Model) : Model :=
  ltac:(setter m_showAlertsPanel v m).
Definition set_dismissedAlerts (v : gmap string bool) (m : Model) : Model :=
  ltac:(setter m_dismissedAlerts v m).
Definition set_sprints (v : list (Sprint C)) (m : Model) : Model :=
  ltac:(setter m_sprints v m).
Definition set_selectedSprint (v : option (Sprint C)) (m : Model) : Model :=
  ltac:(setter m_selectedSprint v m).
Definition set_sprintViewText (v : string) (m : Model) : Model :=
  ltac:(setter m_sprintViewText v m).

(** ** Sorting orders *)

Definition Qltb (a b : Q) : bool := negb (Qle_bool b a).

(** The [less] of a recipe sort, on the issues compared. *)
Definition recipe_less (stats : GraphStats) (field : string)
    (descending : bool) (a b : Issue) : bool :=
  let less :=
    if String.eqb field "priority" then Z.ltb (Priority a) (Priority b)
    else if String.eqb field "created" || String.eqb field "created_at"
    then Z.ltb (CreatedAt a) (CreatedAt b)
    else if String.eqb field "updated" || String.eqb field "updated_at"
    then Z.ltb (UpdatedAt a) (UpdatedAt b)
    else if String.eqb field "impact"
    then Qltb (GetCriticalPathScore stats (ID a)) (GetCriticalPathScore stats (ID b))
    else if String.eqb field "pagerank"
    then Qltb (GetPageRankScore stats (ID a)) (GetPageRankScore stats (ID b))
    else Z.ltb (Priority a) (Priority b) in
  if descending then negb less else less.

(** Default order: open first, then by priority, then newest first. *)
Definition default_less (a b : Issue) : bool :=
  let iClosed := String.eqb (IssueStatus a) StatusClosed in
  let jClosed := String.eqb (IssueStatus b) StatusClosed in
  if negb (Bool.eqb iClosed jClosed) then negb iClosed
  else if negb (Z.eqb (Priority a) (Priority b))
  then Z.ltb (Priority a) (Priority b)
  else Z.ltb (CreatedAt b) (CreatedAt a).

(** ** Lookup map and counts *)

(** [issueMap[issues[i].ID] = &issues[i]], in slice order. *)
Definition buildIssueMap (issues : list Issue) : gmap string Issue :=
  fold_left (fun mp i => <[ID i := i]> mp) issues ∅.

(** The dependency loop of [NewModel] and of the reload: is the issue
    blocked by an open dependency? A [nil] entry is passed over. *)
Fixpoint blockedByOpenDependency (issueMap : gmap string Issue)
    (deps : list (option Dependency)) : bool :=
  match deps with
  | [] => false
  | None :: rest => blockedByOpenDependency issueMap rest
  | Some dep :: rest =>
    if negb (IsBlocking C (DepType dep))
    then blockedByOpenDependency issueMap rest
    else
      match issueMap !! DependsOnID dep with
      | Some blocker =>
        if negb (String.eqb (IssueStatus blocker) StatusClosed) then true
        else blockedByOpenDependency issueMap rest
      | None => blockedByOpenDependency issueMap rest
      end
  end.

(** One turn of the counting loop, on [(cOpen, cReady, cBlocked, cClosed)]. *)
Definition countIssue (issueMap : gmap string Issue)
    (acc : Z * Z * Z * Z) (issue : Issue) : Z * Z * Z * Z :=
  let '(cOpen, cReady, cBlocked, cClosed) := acc in
  if String.eqb (IssueStatus issue) StatusClosed
  then (cOpen, cReady, cBlocked, cClosed + 1)
  else if String.eqb (IssueStatus issue) StatusBlocked
  then (cOpen + 1, cReady, cBlocked + 1, cClosed)
  else if blockedByOpenDependency issueMap (Dependencies issue)
  then (cOpen + 1, cReady, cBlocked, cClosed)
  else (cOpen + 1, cReady + 1, cBlocked, cClosed).

Definition computeStats (issueMap : gmap string Issue) (issues : list Issue)
    : Z * Z * Z * Z :=
  fold_left (countIssue issueMap) issues (0, 0, 0, 0).

(** ** Filters ([model_filters.go]) *)

Definition lookup_bool (mp : option (gmap string bool)) (k : string) : bool :=
  match mp with
  | Some g => default false (g !! k)
  | None => false
  end.

(** [getDiffStatus] of [model_timetravel.go]. *)
Definition getDiffStatus (m : Model) (id : string) : DiffStatus :=
  if negb (m_timeTravelMode m) then DiffStatusNone
  else if lookup_bool (m_newIssueIDs m) id then DiffStatusNew
  else if lookup_bool (m_closedIssueIDs m) id then DiffStatusClosed
  else if lookup_bool (m_modifiedIssueIDs m) id then DiffStatusModified
  else DiffStatusNone.

(** The dependency loop of [applyFilter] ("ready") and of [applyRecipe]
    (actionable): [dep.Type] is read without a [nil] check. *)
Fixpoint filterBlocked (issueMap : gmap string Issue)
    (deps : list (option Dependency)) : outcome bool :=
  match deps with
  | [] => Returns false
  | None :: _ => Panics nil_dereference
  | Some dep :: rest =>
    if String.eqb (DepType dep) DepBlocks then
      match issueMap !! DependsOnID dep with
      | Some blocker =>
        if negb (String.eqb (IssueStatus blocker) StatusClosed) then Returns true
        else filterBlocked issueMap rest
      | None => filterBlocked issueMap rest
      end
    else filterBlocked issueMap rest
  end.

(** The workspace repo filter: is the issue of a repo that is shown? *)
Definition repoHidden (m : Model) (issue : Issue) : bool :=
  match m_workspaceMode m, m_activeRepos m with
  | true, Some repos =>
    let repoKey := strings_ToLower C (ExtractRepoPrefix C (ID issue)) in
    negb (String.eqb repoKey "") && negb (default false (repos !! repoKey))
  | _, _ => false
  end.

(** The list item of an included issue. *)
Definition filterItem (stats : GraphStats) (m : Model) (issue : Issue)
    : IssueItem :=
  let reasons := m_triageReasons m !! ID issue in
  {| item_Issue := issue;
     GraphScore := GetPageRankScore stats (ID issue);
     Impact := GetCriticalPathScore stats (ID issue);
     item_DiffStatus := getDiffStatus m (ID issue);
     RepoPrefix := ExtractRepoPrefix C (ID issue);
     TriageScore := default 0%Q (m_triageScores m !! ID issue);
     TriageReason := match reasons with Some r => Primary r | None => "" end;
     item_TriageReasons := match reasons with Some r => All r | None => [] end;
     IsQuickWin := default false (m_quickWinSet m !! ID issue);
     IsBlocker := default false (m_blockerSet m !! ID issue);
     UnblocksCount := length (default [] (m_unblocksMap m !! ID issue)) |}.

Definition label_prefix : string := "label:".

Definition HasPrefix (s pre : string) : bool := String.prefix pre s.
Definition TrimPrefix (s pre : string) : string :=
  if String.prefix pre s
  then String.substring (String.length pre) (String.length s - String.length pre) s
  else s.

(** The [switch m.currentFilter] of [applyFilter]. *)
Definition includeByFilter (m : Model) (issue : Issue) : outcome bool :=
  let f := m_currentFilter m in
  if String.eqb f "all" then Returns true
  else if String.eqb f "open"
  then Returns (negb (String.eqb (IssueStatus issue) StatusClosed))
  else if String.eqb f "closed"
  then Returns (String.eqb (IssueStatus issue) StatusClosed)
  else if String.eqb f "ready" then
    if negb (String.eqb (IssueStatus issue) StatusClosed)
       && negb (String.eqb (IssueStatus issue) StatusBlocked)
    then isBlocked ← filterBlocked (m_issueMap m) (Dependencies issue);
         Returns (negb isBlocked)
    else Returns false
  else if HasPrefix f label_prefix
  then Returns (existsb (String.eqb (TrimPrefix f label_prefix)) (Labels issue))
  else Returns false.

Fixpoint filterLoop (stats : GraphStats) (m : Model) (issues : list Issue)
    : outcome (list IssueItem * list Issue) :=
  match issues with
  | [] => Returns ([], [])
  | issue :: rest =>
    if repoHidden m issue then filterLoop stats m rest
    else
      include ← includeByFilter m issue;
      r ← filterLoop stats m rest;
      Returns (if include : bool
               then (filterItem stats m issue :: fst r, issue :: snd r)
               else r)
  end.

(** The environment of one step: rendering, files and the watcher. *)
Variable render_viewport : GraphStats -> Model -> Viewport C.
Variable renderSprintDashboard : Model -> string.
Variable LoadIssuesFromFile : string -> result (list Issue * list string).
Variable LoadSprintsFromFile : string -> result (list (Sprint C)).
Variable StartWatcher : string -> result Watcher.

(** [updateViewportContent] writes the viewport only. *)
Definition updateViewportContent (e : Engine) (m : Model) : Model :=
  set_viewport (render_viewport (stats_at e (m_analysis m)) m) m.

Definition updateSemanticIDs (items : list IssueItem) (m : Model) : Model :=
  set_semanticIDs (map (fun it => ID (item_Issue it)) items) m.

(** What both filters do with the items and issues they kept. *)
Definition showFiltered (e : Engine) (m : Model)
    (filteredItems : list IssueItem) (filteredIssues : list Issue) : Model :=
  let stats := stats_at e (m_analysis m) in
  let m := set_list (list_SetItems C (m_list m) filteredItems) m in
  let m := updateSemanticIDs filteredItems m in
  let m := set_board (board_SetIssues C (m_board m) filteredIssues) m in
  let ins := GenerateInsights C stats (length filteredIssues) in
  set_graphView (graph_SetIssues C (m_graphView m) filteredIssues ins) m.

Definition keepSelectionInBounds (filteredItems : list IssueItem) (m : Model)
    : Model :=
  if Nat.ltb 0 (length filteredItems)
     && Z.leb (Z.of_nat (length filteredItems)) (list_Index C (m_list m))
  then set_list (list_Select C (m_list m) 0) m
  else m.

Definition applyFilter (e : Engine) (m : Model) : outcome Model :=
  let stats := stats_at e (m_analysis m) in
  r ← filterLoop stats m (m_issues m);
  let m := showFiltered e m (fst r) (snd r) in
  let m := keepSelectionInBounds (fst r) m in
  Returns (updateViewportContent e m).

(** The filters of a recipe, on one issue. *)
Definition includeByRecipe (m : Model) (r : Recipe) (issue : Issue)
    : outcome bool :=
  let include := negb (repoHidden m issue) in
  let include :=
    if Nat.ltb 0 (length (FilterStatus (Filters r)))
    then include && existsb (String.eqb (IssueStatus issue)) (FilterStatus (Filters r))
    else include in
  let include :=
    if include && Nat.ltb 0 (length (FilterPriority (Filters r)))
    then existsb (Z.eqb (Priority issue)) (FilterPriority (Filters r))
    else include in
  let include :=
    if include && Nat.ltb 0 (length (FilterTags (Filters r)))
    then forallb (fun required => existsb (String.eqb required) (Labels issue))
                 (FilterTags (Filters r))
    else include in
  if include && default false (Actionable (Filters r))
  then isBlocked ← filterBlocked (m_issueMap m) (Dependencies issue);
       Returns (negb isBlocked)
  else Returns include.

Fixpoint recipeLoop (stats : GraphStats) (m : Model) (r : Recipe)
    (issues : list Issue) : outcome (list IssueItem * list Issue) :=
  match issues with
  | [] => Returns ([], [])
  | issue :: rest =>
    include ← includeByRecipe m r issue;
    k ← recipeLoop stats m r rest;
    Returns (if include : bool
             then (filterItem stats m issue :: fst k, issue :: snd k)
             else k)
  end.

Definition applyRecipe (e : Engine) (m : Model) (recipe : option Recipe)
    : outcome Model :=
  match recipe with
  | None => Returns m
  | Some r =>
    let stats := stats_at e (m_analysis m) in
    k ← recipeLoop stats m r (m_issues m);
    let descending := String.eqb (Direction (Sort r)) "desc" in
    let less := recipe_less stats (Field (Sort r)) descending in
    let '(filteredItems, filteredIssues) :=
      if negb (String.eqb (Field (Sort r)) "")
      then (sort_items C (fun a b => less (item_Issue a) (item_Issue b)) (fst k),
            sort_issues C less (snd k))
      else k in
    let m := showFiltered e m filteredItems filteredIssues in
    let m := set_currentFilter ("recipe:" ++ Name r) m in
    let m := keepSelectionInBounds filteredItems m in
    Returns (updateViewportContent e m)
  end.

(** ** [NewModel] *)

(** A list item as [NewModel] and the reload first build it. *)
Definition plainItem (stats : GraphStats) (issue : Issue) : IssueItem :=
  {| item_Issue := issue;
     GraphScore := GetPageRankScore stats (ID issue);
     Impact := GetCriticalPathScore stats (ID issue);
     item_DiffStatus := DiffStatusNone;
     RepoPrefix := ExtractRepoPrefix C (ID issue);
     TriageScore := 0%Q;
     TriageReason := "";
     item_TriageReasons := [];
     IsQuickWin := false;
     IsBlocker := false;
     UnblocksCount := 0 |}.

Definition reasonsOf (rec : Recommendation) : option TriageReasons :=
  match rec_Reasons rec with
  | [] => None
  | first :: _ =>
    Some {| Primary := first; All := rec_Reasons rec; ActionHint := rec_Action rec |}
  end.

Definition idSet (recs : list Recommendation) : gmap string bool :=
  fold_left (fun mp rec => <[rec_ID rec := true]> mp) recs ∅.

Definition withTriage (scores : gmap string Q)
    (reasons : gmap string TriageReasons) (unblocks : gmap string (list string))
    (quickWins blockers : gmap string bool) (it : IssueItem) : IssueItem :=
  let id := ID (item_Issue it) in
  let r := reasons !! id in
  {| item_Issue := item_Issue it;
     GraphScore := GraphScore it;
     Impact := Impact it;
     item_DiffStatus := item_DiffStatus it;
     RepoPrefix := RepoPrefix it;
     TriageScore := default 0%Q (scores !! id);
     TriageReason := match r with Some x => Primary x | None => TriageReason it end;
     item_TriageReasons :=
       match r with Some x => All x | None => item_TriageReasons it end;
     IsQuickWin := default false (quickWins !! id);
     IsBlocker := default false (blockers !! id);
     UnblocksCount := length (default [] (unblocks !! id)) |}.

Definition loadSprints (beadsPath : string) : list (Sprint C) :=
  if String.eqb beadsPath "" then []
  else match LoadSprintsFromFile (sprints_path C beadsPath) with
       | Ok loaded => loaded
       | Err _ => []
       end.

Definition NewModel (e : Engine) (issues : list Issue)
    (activeRecipe : option Recipe) (beadsPath : string) : Engine * Model :=
  (* Phase 1 is instant, Phase 2 runs in the background *)
  let analyzer := NewAnalyzer issues in
  let '(e, graphStats) := AnalyzeAsync e analyzer in
  let stats := stats_at e graphStats in
  let byRecipe :=
    match activeRecipe with
    | Some r => negb (String.eqb (Field (Sort r)) "")
    | None => false
    end in
  let issues :=
    match activeRecipe with
    | Some r =>
      if byRecipe
      then sort_issues C (recipe_less stats (Field (Sort r))
                                      (String.eqb (Direction (Sort r)) "desc")) issues
      else sort_issues C default_less issues
    | None => sort_issues C default_less issues
    end in
  let issueMap := buildIssueMap issues in
  let items := map (plainItem stats) issues in
  let '(cOpen, cReady, cBlocked, cClosed) := computeStats issueMap issues in
  let ins := GenerateInsights C stats (length issues) in
  let triageResult := ComputeTriage C issues in
  let recs := triage_Recommendations C triageResult in
  let triageScores :=
    fold_left (fun mp rec => <[rec_ID rec := rec_Score rec]> mp) recs ∅ in
  let triageReasons :=
    fold_left (fun mp rec => match reasonsOf rec with
                             | Some x => <[rec_ID rec := x]> mp
                             | None => mp
                             end) recs ∅ in
  let unblocksMap :=
    fold_left (fun mp rec => <[rec_ID rec := rec_UnblocksIDs rec]> mp) recs ∅ in
  let quickWinSet := idSet (triage_QuickWins C triageResult) in
  let blockerSet := idSet (triage_BlockersToClear C triageResult) in
  (* the list shares the slice [items], so it shows the triage data *)
  let items :=
    map (withTriage triageScores triageReasons unblocksMap quickWinSet blockerSet)
        items in
  let watch :=
    if String.eqb beadsPath "" then (None, None)
    else match StartWatcher beadsPath with
         | Ok w => (Some w, None)
         | Err msg => (None, Some msg)
         end in
  let '(alerts, alertsCritical, alertsWarning, alertsInfo) :=
    computeAlerts C issues stats analyzer in
  (e,
   {| m_issues := issues;
      m_issueMap := issueMap;
      m_analyzer := analyzer;
      m_analysis := graphStats;
      m_beadsPath := beadsPath;
      m_watcher := fst watch;
      m_list := list_New C items;
      m_viewport := zero_Viewport C;
      m_board := NewBoardModel C issues;
      m_labelDashboard := NewLabelDashboardModel C;
      m_graphView := NewGraphModel C issues ins;
      m_insightsPanel := NewInsightsModel C ins issueMap;
      m_updateAvailable := false;
      m_updateTag := "";
      m_updateURL := "";
      m_focused := focusList;
      m_width := 0;
      m_height := 0;
      m_showAttentionView := false;
      m_labelHealthCached := false;
      m_labelHealthCache := empty_LabelAnalysisResult C;
      m_attentionCached := false;
      m_flowMatrixText := "";
      m_labelDrilldownCache := ∅;
      m_currentFilter := "all";
      m_semanticSearchEnabled := false;
      m_semanticIndexBuilding := false;
      m_semanticIDs := map (fun it => ID (item_Issue it)) items;
      m_countOpen := cOpen;
      m_countReady := cReady;
      m_countBlocked := cBlocked;
      m_countClosed := cClosed;
      m_priorityHints := ∅;
      m_triageScores := triageScores;
      m_triageReasons := triageReasons;
      m_unblocksMap := unblocksMap;
      m_quickWinSet := quickWinSet;
      m_blockerSet := blockerSet;
      m_activeRecipe := activeRecipe;
      m_timeTravelMode := false;
      m_timeTravelDiff := None;
      m_timeTravelSince := "";
      m_newIssueIDs := None;
      m_closedIssueIDs := None;
      m_modifiedIssueIDs := None;
      m_statusMsg := match snd watch with
                     | Some err => "Live reload unavailable: " ++ err
                     | None => ""
                     end;
      m_statusIsError := match snd watch with Some _ => true | None => false end;
      m_workspaceMode := false;
      m_activeRepos := None;
      m_alerts := alerts;
      m_alertsCritical := alertsCritical;
      m_alertsWarning := alertsWarning;
      m_alertsInfo := alertsInfo;
      m_showAlertsPanel := false;
      m_dismissedAlerts := ∅;
      m_sprints := loadSprints beadsPath;
      m_selectedSprint := None;
      m_sprintViewText := "" |}).

(** [Init]: the commands a fresh model starts with. *)
Definition Init (m : Model) : list Cmd :=
  ([CheckUpdateCmd; WaitForPhase2Cmd (m_analysis m)]
     ++ match m_watcher m with Some w => [WatchFileCmd w] | None => [] end
     ++ (if Nat.ltb 0 (length (m_issues m))
         then [LoadHistoryCmd (m_issues m) (m_beadsPath m)] else []))%list.

(** ** [Update] *)

(** [clearAttentionOverlay] (the alerts file). *)
Definition clearAttentionOverlay (m : Model) : Model :=
  if m_showAttentionView m then
    let m := set_showAttentionView false m in
    set_insightsPanel (insights_set_extraText C (m_insightsPanel m) "") m
  else m.

(** Re-start the watch for the next change, if there is a watcher. *)
Definition rearmWatch (m : Model) (cmds : list Cmd) : list Cmd :=
  match m_watcher m with
  | Some w => (cmds ++ [WatchFileCmd w])%list
  | None => cmds
  end.

(** After the [switch]: the message goes to the list when it has the
    focus. *)
Definition updateTail (m : Model) (msg : Msg) (cmds : list Cmd)
    : Model * list Cmd :=
  if focus_eqb (m_focused m) focusList then
    let '(l, cmd) := list_Update C (m_list m) msg in
    (set_list l m, (cmds ++ match cmd with Some c => [c] | None => [] end)%list)
  else (m, cmds).

Definition bodyHeightOf (m : Model) : Z :=
  if Z.ltb (m_height m - 1) 5 then 5 else m_height m - 1.

Definition setAlerts (r : list (Alert C) * Z * Z * Z) (m : Model) : Model :=
  let '(alerts, critical, warning, info) := r in
  set_alertsInfo info
    (set_alertsWarning warning (set_alertsCritical critical (set_alerts alerts m))).

(** New insights for the panel and the graph view. *)
Definition refreshInsights (e : Engine) (m : Model) : Model :=
  let stats := stats_at e (m_analysis m) in
  let ins := GenerateInsights C stats (length (m_issues m)) in
  let m := set_insightsPanel (NewInsightsModel C ins (m_issueMap m)) m in
  let m := set_insightsPanel
             (insights_SetSize C (m_insightsPanel m) (m_width m) (bodyHeightOf m)) m in
  set_graphView (graph_SetIssues C (m_graphView m) (m_issues m) ins) m.

(** Triage for the priority panel and the priority radar. *)
Definition refreshTriage (m : Model) : Model :=
  let triage := ComputeTriage C (m_issues m) in
  let m := set_insightsPanel
             (insights_SetTopPicks C (m_insightsPanel m) (triage_TopPicks C triage)) m in
  set_insightsPanel
    (insights_SetRecommendations C (m_insightsPanel m)
       (triage_Recommendations C triage) (triage_dataHash C triage)) m.

(** Priority recommendations, now that Phase 2 is ready. *)
Definition refreshPriorityHints (e : Engine) (m : Model) : Model :=
  let recommendations :=
    GenerateRecommendations C (m_analyzer m) (stats_at e (m_analysis m)) in
  set_priorityHints
    (fold_left (fun mp r => <[pr_IssueID C r := r]> mp) recommendations ∅) m.

Definition refreshAlerts (e : Engine) (m : Model) : Model :=
  setAlerts (computeAlerts C (m_issues m) (stats_at e (m_analysis m)) (m_analyzer m)) m.

(** The label health cache is invalidated, and recomputed at once when
    the label dashboard has the focus. *)
Definition refreshLabelHealth (e : Engine) (m : Model) : Model :=
  let m := set_labelHealthCached false m in
  if focus_eqb (m_focused m) focusLabelDashboard then
    let m := set_labelHealthCache
               (ComputeAllLabelHealth C (m_issues m) (stats_at e (m_analysis m))) m in
    let m := set_labelHealthCached true m in
    let m := set_labelDashboard
               (labelDashboard_SetData C (m_labelDashboard m) (m_labelHealthCache m)) m in
    set_statusMsg (labels_status C (m_labelHealthCache m)) m
  else m.

(** Issues are sorted again when the recipe sorts by a Phase-2 metric,
    and the lookup map is rebuilt after it. *)
Definition resortByMetric (e : Engine) (m : Model) : Model :=
  match m_activeRecipe m with
  | Some r =>
    let field := Field (Sort r) in
    if String.eqb field "impact" || String.eqb field "pagerank" then
      let descending := String.eqb (Direction (Sort r)) "desc" in
      let m := set_issues
                 (sort_issues C (recipe_less (stats_at e (m_analysis m)) field descending)
                              (m_issues m)) m in
      set_issueMap (fold_left (fun mp i => <[ID i := i]> mp) (m_issues m)
                              (m_issueMap m)) m
    else m
  | None => m
  end.

(** The body of [case Phase2ReadyMsg] once the message is current, up
    to the filters. *)
Definition phase2Prepare (e : Engine) (m : Model) : Model :=
  let m := refreshInsights e m in
  let m := refreshTriage m in
  let m := refreshPriorityHints e m in
  let m := refreshAlerts e m in
  let m := refreshLabelHealth e m in
  resortByMetric e m.

Definition phase2Refresh (e : Engine) (m : Model) : outcome Model :=
  let m := phase2Prepare e m in
  match m_activeRecipe m with
  | Some r => applyRecipe e m (Some r)
  | None => applyFilter e m
  end.

Definition exitTimeTravelOnReload (m : Model) : Model :=
  if m_timeTravelMode m then
    let m := set_timeTravelMode false m in
    let m := set_timeTravelDiff None m in
    let m := set_timeTravelSince "" m in
    let m := set_newIssueIDs None m in
    let m := set_closedIssueIDs None m in
    set_modifiedIssueIDs None m
  else m.

Fixpoint indexOfID (id : string) (items : list IssueItem) (i : Z) : option Z :=
  match items with
  | [] => None
  | it :: rest =>
    if String.eqb (ID (item_Issue it)) id then Some i
    else indexOfID id rest (i + 1)
  end.

Fixpoint findSprint (id : string) (sprints : list (Sprint C))
    : option (Sprint C) :=
  match sprints with
  | [] => None
  | sp :: rest =>
    if String.eqb (sprint_ID C sp) id then Some sp else findSprint id rest
  end.

Definition reloadSprints (m : Model) : Model :=
  if String.eqb (m_beadsPath m) "" then m
  else
    match LoadSprintsFromFile (sprints_path C (m_beadsPath m)) with
    | Err _ => m
    | Ok loaded =>
      let m := set_sprints loaded m in
      match m_selectedSprint m with
      | None => m
      | Some sel =>
        match findSprint (sprint_ID C sel) (m_sprints m) with
        | Some sp =>
          let m := set_selectedSprint (Some sp) m in
          set_sprintViewText (renderSprintDashboard m) m
        | None =>
          let m := set_selectedSprint None m in
          set_sprintViewText "Sprint not found" m
        end
      end
    end.

(** The new generation of a reload: the analysis (with caching), the
    lookup map and the counts. *)
Definition reloadAnalysis (e : Engine) (m : Model) (newIssues : list Issue)
    : Engine * Model * bool :=
  let m := set_issues newIssues m in
  let '(e, cachedAnalyzer) := NewCachedAnalyzer e newIssues None in
  let m := set_analyzer (ca_Analyzer cachedAnalyzer) m in
  let m := set_analysis (CachedAnalyzer_AnalyzeAsync cachedAnalyzer) m in
  let cacheHit := WasCacheHit cachedAnalyzer in
  let m := set_labelHealthCached false m in
  let m := set_attentionCached false m in
  let m := set_flowMatrixText "" m in
  let m := set_issueMap (buildIssueMap (m_issues m)) m in
  let m := set_priorityHints ∅ m in
  (e, m, cacheHit).

Definition reloadCounts (m : Model) : Model :=
  let '(cOpen, cReady, cBlocked, cClosed) :=
    computeStats (m_issueMap m) (m_issues m) in
  let m := set_countOpen cOpen m in
  let m := set_countReady cReady m in
  let m := set_countBlocked cBlocked m in
  set_countClosed cClosed m.

(** The list is rebuilt and the selection restored. *)
Definition reloadList (e : Engine) (selectedID : string) (m : Model) : Model :=
  let items := map (plainItem (stats_at e (m_analysis m))) (m_issues m) in
  let m := set_list (list_SetItems C (m_list m) items) m in
  let m := updateSemanticIDs items m in
  if String.eqb selectedID "" then m
  else match indexOfID selectedID (list_Items C (m_list m)) 0 with
       | Some i => set_list (list_Select C (m_list m) i) m
       | None => m
       end.

(** The reload once the issues are read and sorted, up to the recipe
    filter. *)
Definition reloadPrepare (e : Engine) (m : Model) (newIssues : list Issue)
    : Engine * Model * bool :=
  let selectedID :=
    match list_SelectedItem C (m_list m) with
    | Some item => ID (item_Issue item)
    | None => ""
    end in
  let '(e, m, cacheHit) := reloadAnalysis e m newIssues in
  let m := reloadCounts m in
  let m := refreshAlerts e m in
  let m := set_dismissedAlerts ∅ m in
  let m := set_showAlertsPanel false m in
  let m := reloadList e selectedID m in
  let m := refreshInsights e m in
  let m := set_board (NewBoardModel C (m_issues m)) m in
  (e, m, cacheHit).

Definition reloadStatus (cacheHit : bool) (count warnings : nat) : string :=
  let msg := if cacheHit
             then "Reloaded " ++ pretty (Z.of_nat count) ++ " issues (cached)"
             else "Reloaded " ++ pretty (Z.of_nat count) ++ " issues" in
  if Nat.ltb 0 warnings
  then msg ++ " (" ++ pretty (Z.of_nat warnings) ++ " warnings)"
  else msg.

(** After the recipe filter: sprints, the semantic index, the status
    line, and the commands. *)
Definition reloadFinish (e : Engine) (m : Model) (cacheHit : bool)
    (count warnings : nat) : Model * list Cmd :=
  let m := reloadSprints m in
  let '(m, cmds) :=
    if m_semanticSearchEnabled m && negb (m_semanticIndexBuilding m)
    then (set_semanticIndexBuilding true m, [BuildSemanticIndexCmd (m_issues m)])
    else (m, []) in
  let m := set_statusMsg (reloadStatus cacheHit count warnings) m in
  let m := set_statusIsError false m in
  let m := set_labelHealthCached false m in
  let m := set_labelDrilldownCache ∅ m in
  let m := updateViewportContent e m in
  (m, (rearmWatch m cmds ++ [WaitForPhase2Cmd (m_analysis m)])%list).

(** The reload once the issues are read: a new generation. *)
Definition reload (e : Engine) (m : Model) (newIssues : list Issue)
    (reloadWarnings : list string) : outcome (Engine * Model * list Cmd) :=
  let newIssues := sort_issues C default_less newIssues in
  let '(e, m, cacheHit) := reloadPrepare e m newIssues in
  m ← match m_activeRecipe m with
      | Some r => applyRecipe e m (Some r)
      | None => Returns m
      end;
  let '(m, cmds) :=
    reloadFinish e m cacheHit (length newIssues) (length reloadWarnings) in
  Returns (e, m, cmds).

(** [case FileChangedMsg]. *)
Definition fileChanged (e : Engine) (m : Model)
    : outcome (Engine * Model * list Cmd) :=
  if String.eqb (m_beadsPath m) "" then Returns (e, m, rearmWatch m [])
  else
    let m := clearAttentionOverlay m in
    let m := exitTimeTravelOnReload m in
    match LoadIssuesFromFile (m_beadsPath m) with
    | Err err =>
      let m := set_statusMsg ("Reload error: " ++ err) m in
      let m := set_statusIsError true m in
      Returns (e, m, rearmWatch m [])
    | Ok (newIssues, reloadWarnings) => reload e m newIssues reloadWarnings
    end.

(** [Update] on the three messages; the engine is threaded through. A
    stale [Phase2ReadyMsg] returns [m, nil]. *)
Definition Update (e : Engine) (m : Model) (msg : Msg)
    : outcome (Engine * Model * list Cmd) :=
  match msg with
  | UpdateMsg TagName URL =>
    let m := set_updateAvailable true m in
    let m := set_updateTag TagName m in
    let m := set_updateURL URL m in
    let '(m, cmds) := updateTail m msg [] in
    Returns (e, m, cmds)
  | Phase2ReadyMsg Stats =>
    if negb (bool_decide (Stats = Some (m_analysis m))) then Returns (e, m, [])
    else
      m ← phase2Refresh e m;
      let '(m, cmds) := updateTail m msg [] in
      Returns (e, m, cmds)
  | FileChangedMsg => fileChanged e m
  end.

(** ** Frames *)

(** [m'] is [m] but for what the filters show: the list, the semantic
    ids, the board, the graph view, the filter name and the viewport. *)
Definition shown_only (m m' : Model) : Prop :=
  m' = set_viewport (m_viewport m')
         (set_currentFilter (m_currentFilter m')
            (set_graphView (m_graphView m')
               (set_board (m_board m')
                  (set_semanticIDs (m_semanticIDs m')
                     (set_list (m_list m') m))))).

(** [m'] is [m] but for the status message and its error flag. *)
Definition status_only (m m' : Model) : Prop :=
  m' = set_statusIsError (m_statusIsError m') (set_statusMsg (m_statusMsg m') m).

End WithComponents.

End ui.

(* ===================================================================== *)
(** * Sample data                                                          *)
(* ===================================================================== *)

Module samples.
Import model analysis ui.

Local Open Scope string_scope.

Definition blocks (issue dependsOn : string) : option Dependency :=
  Some {| IssueID := issue; DependsOnID := dependsOn; DepType := DepBlocks |}.

Definition issue (id title : string) (status : Status) (priority : Z)
    (deps : list (option Dependency)) : Issue :=
  {| ID := id; Title := title; IssueStatus := status; Priority := priority;
     CreatedAt := 0; UpdatedAt := 0; Labels := []; Dependencies := deps |}.

(** A blocks B blocks C. *)
Definition chain_issues : list Issue :=
  [issue "A" "first" StatusOpen 0 [];
   issue "B" "second" StatusOpen 1 [blocks "B" "A"];
   issue "C" "third" StatusOpen 2 [blocks "C" "B"]].

(** A blocks B and B blocks A. *)
Definition cycle_issues : list Issue :=
  [issue "A" "first" StatusOpen 0 [blocks "A" "B"];
   issue "B" "second" StatusOpen 1 [blocks "B" "A"]].

(** An open issue whose dependency list starts with a [nil] entry, as
    the JSON [{"dependencies": [null, ...]}] decodes. *)
Definition nil_dep_issues : list Issue :=
  [issue "NIL-DEP-1" "Issue with nil dep" StatusOpen 0
         [None; blocks "NIL-DEP-1" "NIL-DEP-2"];
   issue "NIL-DEP-2" "Second Issue" StatusClosed 0 []].

Definition no_centrality (m : Metric) (issues : list Issue) : gmap string Q := ∅.

Fixpoint insert_sorted {A : Type} (less : A -> A -> bool) (x : A) (l : list A)
    : list A :=
  match l with
  | [] => [x]
  | y :: l' => if less y x then y :: insert_sorted less x l' else x :: y :: l'
  end.

Definition insertion_sort {A : Type} (less : A -> A -> bool) (l : list A)
    : list A :=
  fold_right (insert_sorted less) [] l.

(** Components that keep what they are given and compute nothing. *)
Definition plain : Components := {|
  IsBlocking := fun t => String.eqb t "" || String.eqb t DepBlocks;
  ExtractRepoPrefix := fun _ => "";
  strings_ToLower := fun s => s;
  sort_issues := insertion_sort;
  sort_items := insertion_sort;
  centrality := no_centrality;
  ListModel := list IssueItem * Z;
  list_New := fun items => (items, 0);
  list_SetItems := fun l items => (items, snd l);
  list_Items := fst;
  list_SelectedItem := fun l => nth_error (fst l) (Z.to_nat (snd l));
  list_Select := fun l i => (fst l, i);
  list_Index := snd;
  list_Update := fun l _ => (l, None);
  BoardModel := list Issue;
  NewBoardModel := fun issues => issues;
  board_SetIssues := fun _ issues => issues;
  Insights := unit;
  GenerateInsights := fun _ _ => tt;
  TopPicks := unit;
  InsightsModel := string;
  NewInsightsModel := fun _ _ => "";
  insights_SetSize := fun p _ _ => p;
  insights_SetTopPicks := fun p _ => p;
  insights_SetRecommendations := fun p _ _ => p;
  GraphModel := list Issue;
  NewGraphModel := fun issues _ => issues;
  graph_SetIssues := fun _ issues _ => issues;
  TriageResult := unit;
  ComputeTriage := fun _ => tt;
  triage_TopPicks := fun _ => tt;
  triage_Recommendations := fun _ => [];
  triage_QuickWins := fun _ => [];
  triage_BlockersToClear := fun _ => [];
  triage_dataHash := fun _ => "";
  PriorityRecommendation := string;
  pr_IssueID := fun r => r;
  GenerateRecommendations := fun _ _ => [];
  Alert := string;
  computeAlerts := fun _ _ _ => ([], 0, 0, 0);
  LabelAnalysisResult := unit;
  empty_LabelAnalysisResult := tt;
  ComputeAllLabelHealth := fun _ _ => tt;
  labels_status := fun _ => "";
  LabelDashboardModel := unit;
  labelDashboard_SetData := fun d _ => d;
  NewLabelDashboardModel := tt;
  insights_set_extraText := fun _ text => text;
  SnapshotDiff := unit;
  Sprint := string;
  sprint_ID := fun sp => sp;
  sprints_path := fun beadsPath => beadsPath ++ ".sprints";
  Viewport := unit;
  zero_Viewport := tt
|}.

Definition no_viewport (s : GraphStats) (m : Model plain) : Viewport plain := tt.
Definition no_sprint_text (m : Model plain) : string := "".
Definition no_sprints (path : string) : result (list (Sprint plain)) :=
  Err "no sprints file".
Definition watcher_starts (path : string) : result Watcher := Ok 1%positive.
Definition watcher_fails (path : string) : result Watcher :=
  Err "too many open files".

(** The loader fails: the file is being rewritten. *)
Definition load_fails (path : string) : result (list Issue * list string) :=
  Err "unexpected end of JSON input".

Definition load_gives (issues : list Issue) (path : string)
    : result (list Issue * list string) :=
  Ok (issues, []).

Definition beads_path : string := ".beads/beads.jsonl".

(** The model [NewModel] builds over [issues], watching [beads_path]. *)
Definition model_of (issues : list Issue) : Engine * Model plain :=
  NewModel plain no_sprints watcher_starts empty_engine issues None beads_path.

(** The same model after the user entered time-travel mode. *)
Definition time_travelling (issues : list Issue) : Model plain :=
  set_timeTravelSince plain "HEAD~5"
    (set_timeTravelDiff plain (Some tt)
       (set_timeTravelMode plain true (snd (model_of issues)))).

(** The same model with the "ready" filter chosen. *)
Definition ready_filter (issues : list Issue) : Model plain :=
  set_currentFilter plain "ready" (snd (model_of issues)).

End samples.

(* ===================================================================== *)
(** * More of the viewer: export, thresholds on disk, keys and views     *)
(* ===================================================================== *)

(** ** [pkg/ui/model_export.go] *)

Module model_export.
Import Utf8.

(** [strings.Map(mapping, s)]: the runes of [s] mapped and encoded again;
    a negative result drops the rune. *)
Definition strings_Map (mapping : rune -> rune) (s : gostring) : gostring :=
  string_of_runes
    (flat_map (fun r => let r' := mapping r in if r' <? 0 then [] else [r'])
              (runes_of s)).

(** The runes [generateExportFilename] keeps: [a-z], [A-Z], [0-9], ['-']
    and ['_']. *)
Definition keeps (r : rune) : bool :=
  (97 <=? r) && (r <=? 122) || (65 <=? r) && (r <=? 90)
  || (48 <=? r) && (r <=? 57) || (r =? 45) || (r =? 95).

(** The mapping of [generateExportFilename]: other runes become ['_']. *)
Definition sanitize (r : rune) : rune := if keeps r then r else 95.

(** [generateExportFilename]: [os.Getwd()] answers [os_Getwd], and
    [timestamp] is [time.Now().Format("2006-01-02")]. *)
Definition generateExportFilename (os_Getwd : result gostring)
    (filepath_Base : gostring -> gostring) (timestamp : gostring) : gostring :=
  let projectName :=
    match os_Getwd with
    | Ok cwd => strings_Map sanitize (filepath_Base cwd)
    | Err _ => String.list_byte_of_string "beads"%string
    end in
  (String.list_byte_of_string "beads_report_"%string ++ projectName
   ++ String.list_byte_of_string "_"%string ++ timestamp
   ++ String.list_byte_of_string ".md"%string)%list.

(** A byte the sanitised name may hold. *)
Definition safe (b : byte) : Prop := keeps (byte_val b) = true.

(** A [filepath.Base] for examples: the part after the last ['/']. *)
Fixpoint base_name (acc s : gostring) : gostring :=
  match s with
  | [] => acc
  | b :: rest => if Byte.eqb b x2f then base_name [] rest
                 else base_name (acc ++ [b])%list rest
  end.

End model_export.

(** ** [package drift]: saving *)

Module drift_save.
Import drift.

Local Open Scope string_scope.

(** The comment [SaveConfig] puts before the YAML. *)
Definition header : string :=
  "# Drift detection thresholds
# See: bv --help for drift detection options

".

Section Saving.

(** The file system, as a state the calls of [package os] act on; each
    answers with the new state and its error ([None] is [nil]). *)
Variable World : Type.
Variable os_MkdirAll : string -> World -> World * option string.
Variable os_WriteFile : string -> list byte -> World -> World * option string.
Variable filepath_Join : list string -> string.
Variable filepath_Dir : string -> string.
Variable yaml_Marshal : Config -> result (list byte).

(** [SaveConfig(projectDir, config)], for a [config] that is not [nil]. *)
Definition SaveConfig (projectDir : string) (config : Config) (w : World)
    : World * option string :=
  match Validate config with
  | Some msg => (w, Some ("invalid config: " ++ msg))
  | None =>
    let path := ConfigPath filepath_Join projectDir in
    let dir := filepath_Dir path in
    match os_MkdirAll dir w with
    | (w, Some msg) => (w, Some ("creating config directory: " ++ msg))
    | (w, None) =>
      match yaml_Marshal config with
      | Err msg => (w, Some ("encoding drift config: " ++ msg))
      | Ok data =>
        let content := (String.list_byte_of_string header ++ data)%list in
        match os_WriteFile path content w with
        | (w, Some msg) => (w, Some ("writing drift config: " ++ msg))
        | (w, None) => (w, None)
        end
      end
    end
  end.

End Saving.

(** [c] with the chosen [float64] thresholds replaced by NaN. *)
Definition withNaN (n1 n2 n3 n4 n5 n6 n7 : bool) (c : Config) : Config :=
  {| DensityWarningPct := if n1 then nan else DensityWarningPct c;
     DensityInfoPct := if n2 then nan else DensityInfoPct c;
     NodeGrowthInfoPct := if n3 then nan else NodeGrowthInfoPct c;
     EdgeGrowthInfoPct := if n4 then nan else EdgeGrowthInfoPct c;
     BlockedIncreaseThreshold := BlockedIncreaseThreshold c;
     ActionableDecreaseWarningPct := if n5 then nan else ActionableDecreaseWarningPct c;
     ActionableIncreaseInfoPct := if n6 then nan else ActionableIncreaseInfoPct c;
     PageRankChangeWarningPct := if n7 then nan else PageRankChangeWarningPct c |}.


End drift_save.

(** ** [pkg/ui/model_keys.go]: the help overlay *)

Module model_keys.
Import model analysis ui.

Local Open Scope string_scope.

(** A Go [int] (64 bits) after an addition or a subtraction. *)
Definition int_wrap (z : Z) : Z :=
  ((z + 9223372036854775808) mod 18446744073709551616 - 9223372036854775808)%Z.

(** The fields of [Model] that [handleHelpKeys] reads or writes. *)
Record HelpOverlay : Type := mkHelpOverlay {
  helpScroll : Z;
  showHelp : bool;
  focused : focus
}.

Definition key_in (key : string) (keys : list string) : bool :=
  existsb (String.eqb key) keys.

(** [handleHelpKeys], on [msg.String()]. *)
Definition handleHelpKeys (key : string) (m : HelpOverlay) : HelpOverlay :=
  if key_in key ["j"; "down"] then
    mkHelpOverlay (int_wrap (helpScroll m + 1)) (showHelp m) (focused m)
  else if key_in key ["k"; "up"] then
    if Z.ltb 0 (helpScroll m)
    then mkHelpOverlay (int_wrap (helpScroll m - 1)) (showHelp m) (focused m)
    else m
  else if key_in key ["ctrl+d"] then
    mkHelpOverlay (int_wrap (helpScroll m + 10)) (showHelp m) (focused m)
  else if key_in key ["ctrl+u"] then
    let h := int_wrap (helpScroll m - 10) in
    mkHelpOverlay (if Z.ltb h 0 then 0%Z else h) (showHelp m) (focused m)
  else if key_in key ["home"; "g"] then
    mkHelpOverlay 0 (showHelp m) (focused m)
  else if key_in key ["G"; "end"] then
    mkHelpOverlay 999 (showHelp m) (focused m)
  else if key_in key ["q"; "esc"; "?"; "f1"] then
    mkHelpOverlay 0 false focusList
  else
    mkHelpOverlay 0 false focusList.

End model_keys.

(** ** [pkg/ui/model_render.go]: the window of the help overlay *)

Module model_render.
Import model_keys.

(** What [renderHelpOverlay] computes between the text and the box: the
    clamped scroll offset, the bounds of [lines[startLine:endLine]],
    and the two counts of [strings.Repeat] in the scroll bar (when
    there is one). *)
Record HelpWindow : Type := mkHelpWindow {
  window_helpScroll : Z;
  availableHeight : Z;
  startLine : Z;
  endLine : Z;
  scrollBar : option (Z * Z)
}.

(** The window of [renderHelpOverlay], for a model of height [height]
    and scroll offset [helpScroll] over a text of [totalLines] lines. *)
Definition helpWindow (height helpScroll totalLines : Z) : HelpWindow :=
  let availableHeight := int_wrap (height - 8) in
  let availableHeight := if Z.ltb availableHeight 5 then 5 else availableHeight in
  let maxScroll := int_wrap (totalLines - availableHeight) in
  let maxScroll := if Z.ltb maxScroll 0 then 0 else maxScroll in
  let helpScroll := if Z.ltb maxScroll helpScroll then maxScroll else helpScroll in
  let helpScroll := if Z.ltb helpScroll 0 then 0 else helpScroll in
  let startLine := helpScroll in
  let endLine := int_wrap (startLine + availableHeight) in
  let endLine := if Z.ltb totalLines endLine then totalLines else endLine in
  let scrollBar :=
    if Z.ltb availableHeight totalLines then
      let scrollPercent :=
        if Z.ltb 0 maxScroll then Z.quot (int_wrap (helpScroll * 100)) maxScroll
        else 0 in
      let barWidth := 10 in
      let filledWidth := Z.quot (int_wrap (barWidth * scrollPercent)) 100 in
      let filledWidth := if Z.ltb barWidth filledWidth then barWidth else filledWidth in
      Some (filledWidth, int_wrap (barWidth - filledWidth))
    else None in
  mkHelpWindow helpScroll availableHeight startLine endLine scrollBar.

End model_render.

(** ** [pkg/ui/model_render_label.go]: cross-label flows *)

Module model_render_label.
Import model model_keys.

(** [analysis.CrossLabelDependency], [labelCount] and
    [labelFlowSummary], as far as read. *)
Record CrossLabelDependency : Type := mkCrossLabelDependency {
  FromLabel : string;
  ToLabel : string;
  IssueCount : Z
}.

Record labelCount : Type := mkLabelCount {
  Label : string;
  Count : Z
}.

Record labelFlowSummary : Type := mkLabelFlowSummary {
  Incoming : list labelCount;
  Outgoing : list labelCount
}.

(** [counts[k] += c] on a map of [int]. *)
Definition addCount (counts : gmap string Z) (k : string) (c : Z) : gmap string Z :=
  <[k := int_wrap (default 0%Z (counts !! k) + c)]> counts.

(** One turn of the loop over [flow.Dependencies], on
    [(inCounts, outCounts)]. *)
Definition tally (label : string) (acc : gmap string Z * gmap string Z)
    (dep : CrossLabelDependency) : gmap string Z * gmap string Z :=
  let '(inCounts, outCounts) := acc in
  let inCounts := if String.eqb (ToLabel dep) label
                  then addCount inCounts (FromLabel dep) (IssueCount dep)
                  else inCounts in
  let outCounts := if String.eqb (FromLabel dep) label
                   then addCount outCounts (ToLabel dep) (IssueCount dep)
                   else outCounts in
  (inCounts, outCounts).

(** The [less] of both sorts: larger counts first, equal counts by
    label. *)
Definition count_less (a b : labelCount) : bool :=
  if Z.eqb (Count a) (Count b) then String.ltb (Label a) (Label b)
  else Z.ltb (Count b) (Count a).

Section Flows.

(** [analysis.ComputeCrossLabelFlow(m.issues, cfg).Dependencies]. *)
Variable ComputeCrossLabelFlow : list Issue -> list CrossLabelDependency.
(** [for lbl, c := range counts]: the entries in the order of this
    run. *)
Variable range : gmap string Z -> list (string * Z).
Variable sort_Slice :
  (labelCount -> labelCount -> bool) -> list labelCount -> list labelCount.

Definition collect (counts : gmap string Z) : list labelCount :=
  map (fun p => mkLabelCount (fst p) (snd p)) (range counts).

(** [getCrossFlowsForLabel], on the issues of the model. *)
Definition getCrossFlowsForLabel (issues : list Issue) (label : string)
    : labelFlowSummary :=
  let '(inCounts, outCounts) :=
    fold_left (tally label) (ComputeCrossLabelFlow issues) (∅, ∅) in
  {| Incoming := sort_Slice count_less (collect inCounts);
     Outgoing := sort_Slice count_less (collect outCounts) |}.

(** The loop over a map visits each entry once, in some order. *)
Definition ranges : Prop :=
  forall counts, Permutation (range counts) (map_to_list counts).

(** [sort.Slice] with [count_less] rearranges its slice so that no
    element is less than one before it. *)
Definition sorts : Prop :=
  forall l,
    Permutation (sort_Slice count_less l) l
    /\ Sorted.StronglySorted (fun a b => count_less b a = false)
                             (sort_Slice count_less l).

End Flows.

(** Two flows into ["ui"] and one out of it. *)
Definition sample_flow (issues : list Issue) : list CrossLabelDependency :=
  [mkCrossLabelDependency "api" "ui" 2; mkCrossLabelDependency "db" "ui" 5;
   mkCrossLabelDependency "api" "ui" 3; mkCrossLabelDependency "ui" "docs" 1]%string.

Definition range_sorted (counts : gmap string Z) : list (string * Z) :=
  map_to_list counts.

Definition range_reversed (counts : gmap string Z) : list (string * Z) :=
  rev (map_to_list counts).

End model_render_label.

(** ** The counting loop *)

Module model_counts.
Import model analysis ui.

(** The issue without the [nil] entries of its dependency list. *)
Definition withoutNil (i : Issue) : Issue :=
  {| ID := ID i; Title := Title i; IssueStatus := IssueStatus i;
     Priority := Priority i; CreatedAt := CreatedAt i; UpdatedAt := UpdatedAt i;
     Labels := Labels i;
     Dependencies := List.filter (fun d => match d with Some _ => true | None => false end)
                                 (Dependencies i) |}.

Definition isClosed (i : Issue) : bool := String.eqb (IssueStatus i) StatusClosed.

End model_counts.

(** ** Filters, label drilldown, time travel, list keys and the alerts panel *)

Module ui_views.
Import model analysis ui model_keys.

Local Open Scope string_scope.

Section WithComponents.

Variable C : Components.
Variable render_viewport : GraphStats -> Model C -> Viewport C.

Local Abbreviation applyFilter := (applyFilter C render_viewport).
Local Abbreviation applyRecipe := (applyRecipe C render_viewport).

(** ** [model_filters.go] *)

(** [SetFilter]. *)
Definition SetFilter (e : Engine) (f : string) (m : Model C) : outcome (Model C) :=
  applyFilter e (set_currentFilter C f m).

(** [FilteredIssues]: every item of the list is an [IssueItem]. *)
Definition FilteredIssues (m : Model C) : list Issue :=
  map item_Issue (list_Items C (m_list C m)).

(** ** [model_render_label.go] *)

Definition hasLabel (label : string) (iss : Issue) : bool :=
  existsb (fun l => String.eqb l label) (Labels iss).

(** [filterIssuesByLabel]: the issues and the model whose cache (a map
    [NewModel] and the reload make, shared by the copies of the model)
    holds the answer. *)
Definition filterIssuesByLabel (label : string) (m : Model C)
    : list Issue * Model C :=
  match m_labelDrilldownCache C m !! label with
  | Some cached => (cached, m)
  | None =>
    let out := List.filter (hasLabel label) (m_issues C m) in
    (out, set_labelDrilldownCache C (<[label := out]> (m_labelDrilldownCache C m)) m)
  end.

(** The cache holds, for a label, the issues of the model with it. *)
Definition cache_coherent (m : Model C) : Prop :=
  forall label cached,
    m_labelDrilldownCache C m !! label = Some cached ->
    cached = List.filter (hasLabel label) (m_issues C m).

(** ** [model_timetravel.go] *)

Definition rebuildListWithDiffInfo (e : Engine) (m : Model C) : outcome (Model C) :=
  match m_activeRecipe C m with
  | Some r => applyRecipe e m (Some r)
  | None => applyFilter e m
  end.

Definition exitTimeTravelMode (e : Engine) (m : Model C) : outcome (Model C) :=
  let m := set_timeTravelMode C false m in
  let m := set_timeTravelDiff C None m in
  let m := set_timeTravelSince C "" m in
  let m := set_newIssueIDs C None m in
  let m := set_closedIssueIDs C None m in
  let m := set_modifiedIssueIDs C None m in
  let m := set_statusMsg C "⏱️ Time-travel mode disabled" m in
  let m := set_statusIsError C false m in
  rebuildListWithDiffInfo e m.

(** The git loader and the snapshot comparison of [enterTimeTravelMode]. *)
Variable os_Getwd : result string.
Variable ResolveRevision : string -> string -> result string.
Variable HasBeadsAtRevision : string -> string -> result bool.
Variable LoadAt : string -> string -> result (list Issue).
Variable CompareSnapshots : list Issue -> list Issue -> SnapshotDiff C.
Variable diff_NewIssues : SnapshotDiff C -> list Issue.
Variable diff_ClosedIssues : SnapshotDiff C -> list Issue.
Variable diff_ModifiedIssues : SnapshotDiff C -> list string.
Variable diff_Summary : SnapshotDiff C -> Z * Z * Z.

Definition timeTravelFailed (msg : string) (m : Model C) : Model C :=
  set_statusIsError C true (set_statusMsg C msg m).

Definition idsOf (ids : list string) : gmap string bool :=
  fold_left (fun mp id => <[id := true]> mp) ids ∅.

(** [enterTimeTravelMode(revision)]; the loader works in [cwd]. *)
Definition enterTimeTravelMode (e : Engine) (revision : string) (m : Model C)
    : outcome (Model C) :=
  match os_Getwd with
  | Err _ =>
    Returns (timeTravelFailed "❌ Time-travel failed: cannot get working directory" m)
  | Ok cwd =>
    match ResolveRevision cwd "HEAD" with
    | Err _ => Returns (timeTravelFailed "❌ Time-travel requires a git repository" m)
    | Ok _ =>
      match HasBeadsAtRevision cwd revision with
      | Err _ | Ok false =>
        Returns (timeTravelFailed
                   ("❌ No beads history at " ++ revision ++ " (try fewer commits back)") m)
      | Ok true =>
        match LoadAt cwd revision with
        | Err err => Returns (timeTravelFailed ("❌ Time-travel failed: " ++ err) m)
        | Ok historicalIssues =>
          let diff := CompareSnapshots historicalIssues (m_issues C m) in
          let m := set_newIssueIDs C (Some (idsOf (map ID (diff_NewIssues diff)))) m in
          let m := set_closedIssueIDs C
                     (Some (idsOf (map ID (diff_ClosedIssues diff)))) m in
          let m := set_modifiedIssueIDs C
                     (Some (idsOf (diff_ModifiedIssues diff))) m in
          let m := set_timeTravelMode C true m in
          let m := set_timeTravelDiff C (Some diff) m in
          let m := set_timeTravelSince C revision m in
          let '(added, closed, modified) := diff_Summary diff in
          let m := set_statusMsg C
                     ("⏱️ Time-travel: comparing with " ++ revision
                      ++ " (+" ++ pretty added ++ " ✅" ++ pretty closed
                      ++ " ~" ++ pretty modified ++ ")") m in
          let m := set_statusIsError C false m in
          rebuildListWithDiffInfo e m
        end
      end
    end
  end.

(** ** [model_keys.go] *)

(** [handleListKeys], on [msg.String()], for the cases that read and
    write the fields kept in [Model] here; [None] stands for the other
    cases (["enter"], ["C"], ["O"], ["H"], ["S"], and ["t"] outside
    time-travel mode). *)
Definition handleListKeys (e : Engine) (key : string) (m : Model C)
    : option (outcome (Model C)) :=
  let itemCount := Z.of_nat (length (list_Items C (m_list C m))) in
  if key_in key ["enter"] then None
  else if key_in key ["home"] then
    Some (Returns (set_list C (list_Select C (m_list C m) 0) m))
  else if key_in key ["G"; "end"] then
    Some (Returns (if Z.ltb 0 itemCount
                   then set_list C (list_Select C (m_list C m) (itemCount - 1)) m
                   else m))
  else if key_in key ["ctrl+d"] then
    Some (Returns
      (if Z.ltb 0 itemCount then
         let currentIdx := list_Index C (m_list C m) in
         let newIdx := int_wrap (currentIdx + Z.quot (m_height C m) 3) in
         let newIdx := if Z.leb itemCount newIdx then itemCount - 1 else newIdx in
         set_list C (list_Select C (m_list C m) newIdx) m
       else m))
  else if key_in key ["ctrl+u"] then
    Some (Returns
      (if Z.ltb 0 itemCount then
         let currentIdx := list_Index C (m_list C m) in
         let newIdx := int_wrap (currentIdx - Z.quot (m_height C m) 3) in
         let newIdx := if Z.ltb newIdx 0 then 0%Z else newIdx in
         set_list C (list_Select C (m_list C m) newIdx) m
       else m))
  else if key_in key ["o"] then Some (applyFilter e (set_currentFilter C "open" m))
  else if key_in key ["c"] then Some (applyFilter e (set_currentFilter C "closed" m))
  else if key_in key ["r"] then Some (applyFilter e (set_currentFilter C "ready" m))
  else if key_in key ["a"] then Some (applyFilter e (set_currentFilter C "all" m))
  else if key_in key ["t"] then
    if m_timeTravelMode C m then Some (exitTimeTravelMode e m) else None
  else if key_in key ["T"] then
    if m_timeTravelMode C m then Some (exitTimeTravelMode e m)
    else Some (enterTimeTravelMode e "HEAD~5" m)
  else if key_in key ["C"; "O"; "H"; "S"] then None
  else Some (Returns m).

(** ** The alerts panel ([Update], [case tea.KeyMsg]) *)

(** [drift.Alert], as far as the panel reads it. *)
Variable alert_Type : Alert C -> string.
Variable alert_Severity : Alert C -> string.
Variable alert_IssueID : Alert C -> string.

Definition alertKey (a : Alert C) : string :=
  alert_Type a ++ ":" ++ alert_Severity a ++ ":" ++ alert_IssueID a.

(** The alerts that are not dismissed. *)
Definition activeAlerts (m : Model C) : list (Alert C) :=
  List.filter (fun a => negb (default false (m_dismissedAlerts C m !! alertKey a)))
              (m_alerts C m).

(** The model with the panel's cursor, a field [Model] does not keep
    here. *)
Record AlertsPanel : Type := mkAlertsPanel {
  panel_model : Model C;
  alertsCursor : Z
}.

(** [l[i]]: an index out of range panics. *)
Definition index {A : Type} (l : list A) (i : Z) : outcome A :=
  if Z.ltb i 0 then Panics "runtime error: index out of range"
  else match nth_error l (Z.to_nat i) with
       | Some a => Returns a
       | None => Panics "runtime error: index out of range"
       end.

(** The block [if m.showAlertsPanel { ... }] of [Update], on
    [msg.String()]. The cursor moves between 0 and the length of a
    slice, where an [int] does not overflow. *)
Definition alertsPanelKeys (s : string) (p : AlertsPanel) : outcome AlertsPanel :=
  let m := panel_model p in
  let cursor := alertsCursor p in
  let active := activeAlerts m in
  let n := Z.of_nat (length active) in
  if key_in s ["j"; "down"] then
    Returns (if Z.ltb cursor (n - 1) then mkAlertsPanel m (cursor + 1) else p)
  else if key_in s ["k"; "up"] then
    Returns (if Z.ltb 0 cursor then mkAlertsPanel m (cursor - 1) else p)
  else if key_in s ["enter"] then
    m ← (if Z.ltb cursor n then
           a ← index active cursor;
           let issueID := alert_IssueID a in
           if negb (String.eqb issueID "") then
             match indexOfID issueID (list_Items C (m_list C m)) 0 with
             | Some i => Returns (set_list C (list_Select C (m_list C m) i) m)
             | None => Returns m
             end
           else Returns m
         else Returns m);
    Returns (mkAlertsPanel (set_showAlertsPanel C false m) cursor)
  else if key_in s ["d"] then
    if Z.ltb cursor n then
      a ← index active cursor;
      let m := set_dismissedAlerts C
                 (<[alertKey a := true]> (m_dismissedAlerts C m)) m in
      let remaining := Z.of_nat (length (activeAlerts m)) in
      let cursor := if Z.leb remaining cursor then remaining - 1 else cursor in
      let cursor := if Z.ltb cursor 0 then 0%Z else cursor in
      let m := if Z.eqb remaining 0 then set_showAlertsPanel C false m else m in
      Returns (mkAlertsPanel m cursor)
    else Returns p
  else if key_in s ["esc"; "q"; "!"] then
    Returns (mkAlertsPanel (set_showAlertsPanel C false m) cursor)
  else Returns p.

(** [case "!"] of the global keys, reached when the panel is closed. *)
Definition toggleAlertsPanel (p : AlertsPanel) : AlertsPanel :=
  let m := panel_model p in
  let activeCount := Z.of_nat (length (activeAlerts m)) in
  if Z.ltb 0 activeCount then
    mkAlertsPanel (set_showAlertsPanel C (negb (m_showAlertsPanel C m)) m) 0
  else
    mkAlertsPanel (set_statusIsError C false (set_statusMsg C "No active alerts" m))
                  (alertsCursor p).

(** The cursor is on an active alert, or at the top when there is none. *)
Definition cursor_ok (p : AlertsPanel) : Prop :=
  (0 <= alertsCursor p)%Z
  /\ ((alertsCursor p < Z.of_nat (length (activeAlerts (panel_model p))))%Z
      \/ alertsCursor p = 0%Z).

End WithComponents.

End ui_views.

(** ** What the properties of the views are stated with *)

Module model_shows.
Import model analysis ui.

Local Open Scope string_scope.

Section WithComponents.

Variable C : Components.

(** What the switch of [applyFilter] asks of an issue, for the filters
    that do not read the dependencies. *)
Definition plainFilter (f : string) (issue : Issue) : bool :=
  if String.eqb f "all" then true
  else if String.eqb f "open" then negb (String.eqb (IssueStatus issue) StatusClosed)
  else if String.eqb f "closed" then String.eqb (IssueStatus issue) StatusClosed
  else if HasPrefix f label_prefix
  then existsb (String.eqb (TrimPrefix f label_prefix)) (Labels issue)
  else false.

(** No entry of a dependency list is [nil]. *)
Definition noNilDependency (issues : list Issue) : Prop :=
  Forall (fun i => Forall (fun d => d <> None) (Dependencies i)) issues.

(** The list widget keeps the items it is given. *)
Definition list_keeps_items : Prop :=
  (forall l items, list_Items C (list_SetItems C l items) = items)
  /\ (forall l i, list_Items C (list_Select C l i) = list_Items C l).

(** The lookup map and the counts are those of the issues. *)
Definition consistent (m : Model C) : Prop :=
  m_issueMap C m = buildIssueMap (m_issues C m)
  /\ (m_countOpen C m, m_countReady C m, m_countBlocked C m, m_countClosed C m)
     = computeStats C (m_issueMap C m) (m_issues C m).

(** The issues with the lookup map and the counts made from them. *)
Definition generation (m : Model C)
    : list Issue * gmap string Issue * (Z * Z * Z * Z) :=
  (m_issues C m, m_issueMap C m,
   (m_countOpen C m, m_countReady C m, m_countBlocked C m, m_countClosed C m)).

(** The time-travel state. *)
Definition timeTravel (m : Model C)
    : bool * option (SnapshotDiff C) * string
      * option (gmap string bool) * option (gmap string bool)
      * option (gmap string bool) :=
  (m_timeTravelMode C m, m_timeTravelDiff C m, m_timeTravelSince C m,
   m_newIssueIDs C m, m_closedIssueIDs C m, m_modifiedIssueIDs C m).

(** What a reload empties: the priority hints, the dismissed alerts with
    the alerts panel, and the label drilldown cache. *)
Definition derived (m : Model C)
    : gmap string (PriorityRecommendation C) * gmap string bool * bool :=
  (m_priorityHints C m, m_dismissedAlerts C m, m_showAlertsPanel C m).

(** [sort.Slice] rearranges the slice it is given. *)
Definition sort_permutes : Prop :=
  forall (less : Issue -> Issue -> bool) (l : list Issue),
    Permutation (sort_issues C less l) l.

(** Sorting the items rearranges them. *)
Definition sort_items_permutes : Prop :=
  forall (less : IssueItem -> IssueItem -> bool) (l : list IssueItem),
    Permutation (sort_items C less l) l.

(** The badge of an issue under a diff: new before closed before
    modified. *)
Definition badge (new closed modified : list string) (id : string) : DiffStatus :=
  if existsb (String.eqb id) new then DiffStatusNew
  else if existsb (String.eqb id) closed then DiffStatusClosed
  else if existsb (String.eqb id) modified then DiffStatusModified
  else DiffStatusNone.

(** [IsBlocking] on the dependency types that occur: only [DepBlocks]. *)
Definition blocking_is_blocks (issues : list Issue) : Prop :=
  Forall (fun i => Forall (fun d => match d with
                                    | Some dep => IsBlocking C (DepType dep)
                                                  = String.eqb (DepType dep) DepBlocks
                                    | None => True
                                    end) (Dependencies i)) issues.

End WithComponents.

End model_shows.

(** ** [computeAlerts] *)

Module alerts.
Import model drift.

Local Open Scope string_scope.

(** [baseline.GraphStats] and [baseline.Baseline], as [computeAlerts]
    fills them. *)
Record baseline_GraphStats : Type := mkBaselineStats {
  NodeCount : Z;
  EdgeCount : Z;
  Density : float;
  OpenCount : Z;
  ClosedCount : Z;
  BlockedCount : Z;
  CycleCount : Z;
  ActionableCount : Z
}.

Record Baseline : Type := mkBaseline {
  Stats : baseline_GraphStats;
  Cycles : list (list string)
}.

Section WithDrift.

(** [*analysis.GraphStats] and [*analysis.Analyzer], as far as read. *)
Variable GraphStats : Type.
Variable stats_NodeCount : GraphStats -> Z.
Variable stats_EdgeCount : GraphStats -> Z.
Variable stats_Density : GraphStats -> float.
Variable stats_Cycles : GraphStats -> list (list string).
Variable Analyzer : Type.
Variable GetActionableIssues : Analyzer -> list Issue.

(** [drift.Alert] with its severity, and the three severities. *)
Variable Alert : Type.
Variable alert_Severity : Alert -> string.
Variable SeverityCritical : string.
Variable SeverityWarning : string.
Variable SeverityInfo : string.

(** [drift.NewCalculator(bl, cur, config)], [SetIssues(issues)] and
    [Calculate().Alerts]. *)
Variable Calculate : Baseline -> Baseline -> Config -> list Issue -> list Alert.

(** [os.Getwd()] (its error is dropped) and what [LoadConfig] calls. *)
Variable os_Getwd : string.
Variable os_ReadFile : string -> ReadFile_result.
Variable filepath_Join : list string -> string.
Variable yaml_Unmarshal : list byte -> Config -> result Config.

(** One turn of the status loop, on [(openCount, closedCount,
    blockedCount)]. *)
Definition countStatus (acc : Z * Z * Z) (issue : Issue) : Z * Z * Z :=
  let '(openCount, closedCount, blockedCount) := acc in
  if String.eqb (IssueStatus issue) StatusClosed
  then (openCount, closedCount + 1, blockedCount)%Z
  else if String.eqb (IssueStatus issue) StatusBlocked
  then (openCount, closedCount, blockedCount + 1)%Z
  else (openCount + 1, closedCount, blockedCount)%Z.

(** One turn of the severity loop, on [(critical, warning, info)]. *)
Definition countSeverity (acc : Z * Z * Z) (a : Alert) : Z * Z * Z :=
  let '(critical, warning, info) := acc in
  if String.eqb (alert_Severity a) SeverityCritical
  then (critical + 1, warning, info)%Z
  else if String.eqb (alert_Severity a) SeverityWarning
  then (critical, warning + 1, info)%Z
  else if String.eqb (alert_Severity a) SeverityInfo
  then (critical, warning, info + 1)%Z
  else acc.

(** The thresholds: the project's, or the defaults when they do not
    load. *)
Definition driftConfig : Config :=
  match LoadConfig os_ReadFile filepath_Join yaml_Unmarshal os_Getwd with
  | Ok config => config
  | Err _ => DefaultConfig
  end.

(** The statistics of the current issues, used for both sides of the
    comparison. *)
Definition curStats (issues : list Issue) (stats : GraphStats)
    (analyzer : Analyzer) : baseline_GraphStats :=
  let '(openCount, closedCount, blockedCount) :=
    fold_left countStatus issues (0, 0, 0)%Z in
  {| NodeCount := stats_NodeCount stats;
     EdgeCount := stats_EdgeCount stats;
     Density := stats_Density stats;
     OpenCount := openCount;
     ClosedCount := closedCount;
     BlockedCount := blockedCount;
     CycleCount := Z.of_nat (length (stats_Cycles stats));
     ActionableCount := Z.of_nat (length (GetActionableIssues analyzer)) |}.

(** [computeAlerts(issues, stats, analyzer)]. *)
Definition computeAlerts (issues : list Issue) (stats : option GraphStats)
    (analyzer : option Analyzer) : list Alert * Z * Z * Z :=
  match issues, stats, analyzer with
  | _ :: _, Some stats, Some analyzer =>
    let cur := curStats issues stats analyzer in
    let bl := {| Stats := cur; Cycles := [] |} in
    let cur := {| Stats := cur; Cycles := stats_Cycles stats |} in
    let result := Calculate bl cur driftConfig issues in
    let '(critical, warning, info) := fold_left countSeverity result (0, 0, 0)%Z in
    (result, critical, warning, info)
  | _, _, _ => ([], 0, 0, 0)%Z
  end.

End WithDrift.

End alerts.

(** ** More sample data *)

Module samples_views.
Import model analysis ui samples model_keys ui_views.

Local Open Scope string_scope.

(** Two labelled issues and one without labels. *)
Definition labelled_issues : list Issue :=
  [{| ID := "A"; Title := "first"; IssueStatus := StatusOpen; Priority := 0;
      CreatedAt := 0; UpdatedAt := 0; Labels := ["ui"; "bug"]; Dependencies := [] |};
   {| ID := "B"; Title := "second"; IssueStatus := StatusClosed; Priority := 1;
      CreatedAt := 0; UpdatedAt := 0; Labels := ["bug"]; Dependencies := [] |};
   {| ID := "C"; Title := "third"; IssueStatus := StatusOpen; Priority := 2;
      CreatedAt := 0; UpdatedAt := 0; Labels := []; Dependencies := [] |}].

(** A repository whose revisions all hold the chain without its last
    issue; the diff reports ["C"] as new. *)
Definition getwd_repo : result string := Ok "/repo".
Definition resolves (cwd revision : string) : result string := Ok "0123abc".
Definition has_beads (cwd revision : string) : result bool := Ok true.
Definition load_at (cwd revision : string) : result (list Issue) :=
  Ok (firstn 2 chain_issues).
Definition compare (from to : list Issue) : SnapshotDiff plain := tt.
Definition new_issues (d : SnapshotDiff plain) : list Issue := skipn 2 chain_issues.
Definition closed_issues (d : SnapshotDiff plain) : list Issue := [].
Definition modified_issues (d : SnapshotDiff plain) : list string := ["A"].
Definition summary (d : SnapshotDiff plain) : Z * Z * Z := (1, 0, 1)%Z.

(** Alerts of the sample components are their own type, severity and
    issue. *)
Definition alert_text (a : Alert plain) : string := a.

(** The panel over two alerts, the cursor on the second. *)
Definition two_alerts : AlertsPanel plain :=
  mkAlertsPanel plain
    (set_showAlertsPanel plain true
       (set_alerts plain ["cycle"; "density"] (snd (model_of chain_issues))))
    1.

End samples_views.


(* ===================================================================== *)
(** * Properties                                                           *)
(* ===================================================================== *)

Module Utf8Facts.
Import Utf8.

Lemma byte_val_range (b : byte) : 0 <= byte_val b < 256.
Proof.
  unfold byte_val. pose proof (Byte.to_N_bounded b) as H.
  split; [apply N2Z.is_nonneg|]. apply N.le_lteq in H. lia.
Qed.

Lemma byte_val_of (z : Z) : 0 <= z < 256 -> byte_val (byte_of z) = z.
Proof.
  intros Hz. unfold byte_of, byte_val.
  rewrite Z.mod_small by lia.
  destruct (Byte.of_N (Z.to_N z)) as [b|] eqn:E.
  - apply Byte.to_of_N in E. rewrite E. lia.
  - apply Byte.of_N_None_iff in E. lia.
Qed.

Ltac bool_cases :=
  repeat match goal with
  | |- context [Z.eqb ?a ?b] => destruct (Z.eqb_spec a b)
  end;
  repeat match goal with
  | |- context [Z.leb ?a ?b] => destruct (Z.leb_spec a b)
  | |- context [Z.ltb ?a ?b] => destruct (Z.ltb_spec a b)
  end; cbn [andb orb negb].

Lemma valid_rune_iff (r : rune) :
  valid_rune r = true <-> 0 <= r <= 1114111 /\ ~ (55296 <= r <= 57343).
Proof.
  unfold valid_rune, MaxRune. bool_cases; split; intros; try discriminate; try lia; auto.
Qed.

(** One decoding step: a valid rune, and a suffix of the input. *)
Lemma runes_of_step (b0 : byte) (t0 : gostring) :
  exists r k, valid_rune r = true /\ (k <= 3)%nat /\
              runes_of (b0 :: t0) = r :: runes_of (skipn k t0).
Proof.
  pose proof (byte_val_range b0) as H0.
  assert (HE : valid_rune RuneError = true) by reflexivity.
  cbn [runes_of].
  destruct (Z.ltb_spec (byte_val b0) 128).
  { exists (byte_val b0), 0%nat. repeat split; [|lia].
    apply valid_rune_iff. lia. }
  destruct t0 as [|b1 t1]; [exists RuneError, 0%nat; auto with lia|].
  pose proof (byte_val_range b1) as H1.
  destruct (lead2 (byte_val b0) && second_ok (byte_val b0) (byte_val b1)) eqn:E2.
  { exists ((byte_val b0 - 192) * 64 + (byte_val b1 - 128)), 1%nat.
    repeat split; [|lia]. apply valid_rune_iff.
    revert E2. unfold lead2, second_ok, second_lo, second_hi.
    bool_cases; intros; try discriminate; lia. }
  destruct t1 as [|b2 t2]; [exists RuneError, 0%nat; auto with lia|].
  pose proof (byte_val_range b2) as H2.
  destruct (lead3 (byte_val b0) && second_ok (byte_val b0) (byte_val b1)
            && cont (byte_val b2)) eqn:E3.
  { exists ((byte_val b0 - 224) * 4096 + (byte_val b1 - 128) * 64
            + (byte_val b2 - 128)), 2%nat.
    repeat split; [|lia]. apply valid_rune_iff.
    revert E3. unfold lead3, second_ok, second_lo, second_hi, cont.
    bool_cases; intros; try discriminate; lia. }
  destruct t2 as [|b3 t3]; [exists RuneError, 0%nat; auto with lia|].
  pose proof (byte_val_range b3) as H3.
  destruct (lead4 (byte_val b0) && second_ok (byte_val b0) (byte_val b1)
            && cont (byte_val b2) && cont (byte_val b3)) eqn:E4.
  { exists ((byte_val b0 - 240) * 262144 + (byte_val b1 - 128) * 4096
            + (byte_val b2 - 128) * 64 + (byte_val b3 - 128)), 3%nat.
    repeat split; [|lia]. apply valid_rune_iff.
    revert E4. unfold lead4, second_ok, second_lo, second_hi, cont.
    bool_cases; intros; try discriminate; lia. }
  exists RuneError, 0%nat; auto with lia.
Qed.

Lemma runes_of_valid_aux (n : nat) :
  forall s : gostring, (length s <= n)%nat -> Forall (fun r => valid_rune r = true) (runes_of s).
Proof.
  induction n as [|n IH]; intros [|b0 t0] Hlen; cbn [length] in Hlen;
    try (constructor; fail); try lia.
  destruct (runes_of_step b0 t0) as (r & k & Hr & _ & ->).
  constructor; [exact Hr|]. apply IH.
  rewrite length_skipn. lia.
Qed.

Lemma runes_of_valid (s : gostring) :
  Forall (fun r => valid_rune r = true) (runes_of s).
Proof. apply (runes_of_valid_aux (length s)). lia. Qed.

(** Decoding the two-, three- and four-byte forms, stated on the digits
    of the code point in base 64. *)
Ltac decide_bools :=
  repeat match goal with
  | |- context [Z.eqb ?a ?b] =>
      first [ replace (Z.eqb a b) with true by (symmetry; apply Z.eqb_eq; lia)
            | replace (Z.eqb a b) with false by (symmetry; apply Z.eqb_neq; lia)
            | destruct (Z.eqb_spec a b) ]
  end;
  repeat match goal with
  | |- context [Z.leb ?a ?b] =>
      first [ replace (Z.leb a b) with true by (symmetry; apply Z.leb_le; lia)
            | replace (Z.leb a b) with false by (symmetry; apply Z.leb_gt; lia) ]
  | |- context [Z.ltb ?a ?b] =>
      first [ replace (Z.ltb a b) with true by (symmetry; apply Z.ltb_lt; lia)
            | replace (Z.ltb a b) with false by (symmetry; apply Z.ltb_ge; lia) ]
  end; cbn [andb orb negb].

Lemma runes_of_two (a b : Z) (rest : gostring) :
  2 <= a < 32 -> 0 <= b < 64 ->
  runes_of (byte_of (192 + a) :: byte_of (128 + b) :: rest)
  = (a * 64 + b) :: runes_of rest.
Proof.
  intros Ha Hb. cbn [runes_of]. rewrite !byte_val_of by lia.
  unfold lead2, second_ok, second_lo, second_hi.
  decide_bools. f_equal. lia.
Qed.

Lemma runes_of_three (a b c : Z) (rest : gostring) :
  0 <= a < 16 -> 0 <= b < 64 -> 0 <= c < 64 ->
  (a = 0 -> 32 <= b) -> (a = 13 -> b < 32) ->
  runes_of (byte_of (224 + a) :: byte_of (128 + b) :: byte_of (128 + c) :: rest)
  = (a * 4096 + b * 64 + c) :: runes_of rest.
Proof.
  intros Ha Hb Hc H0 H13. cbn [runes_of]. rewrite !byte_val_of by lia.
  unfold lead2, lead3, second_ok, second_lo, second_hi, cont.
  decide_bools; f_equal; lia.
Qed.

Lemma runes_of_four (a b c d : Z) (rest : gostring) :
  0 <= a < 5 -> 0 <= b < 64 -> 0 <= c < 64 -> 0 <= d < 64 ->
  (a = 0 -> 16 <= b) -> (a = 4 -> b < 16) ->
  runes_of (byte_of (240 + a) :: byte_of (128 + b) :: byte_of (128 + c)
              :: byte_of (128 + d) :: rest)
  = (a * 262144 + b * 4096 + c * 64 + d) :: runes_of rest.
Proof.
  intros Ha Hb Hc Hd H0 H4. cbn [runes_of]. rewrite !byte_val_of by lia.
  unfold lead2, lead3, lead4, second_ok, second_lo, second_hi, cont.
  decide_bools; f_equal; lia.
Qed.

(** Decoding undoes the encoding of a scalar value, whatever follows. *)
Lemma runes_of_encode (r : rune) (rest : gostring) :
  valid_rune r = true -> runes_of (encode_rune r ++ rest) = r :: runes_of rest.
Proof.
  intros Hv. unfold encode_rune. rewrite Hv.
  apply valid_rune_iff in Hv. destruct Hv as [Hr Hs].
  destruct (Z.ltb_spec r 128).
  { cbn [app runes_of]. rewrite byte_val_of by lia.
    destruct (Z.ltb_spec r 128); [reflexivity|lia]. }
  destruct (Z.ltb_spec r 2048).
  { cbn [app].
    rewrite runes_of_two by (Z.div_mod_to_equations; lia).
    f_equal. Z.div_mod_to_equations; lia. }
  destruct (Z.ltb_spec r 65536).
  { cbn [app].
    rewrite runes_of_three by (Z.div_mod_to_equations; lia).
    f_equal. Z.div_mod_to_equations; lia. }
  cbn [app].
  rewrite runes_of_four by (Z.div_mod_to_equations; lia).
  f_equal. Z.div_mod_to_equations; lia.
Qed.

Lemma runes_of_string_app (rs : list rune) (rest : gostring) :
  Forall (fun r => valid_rune r = true) rs ->
  runes_of (string_of_runes rs ++ rest) = rs ++ runes_of rest.
Proof.
  induction 1 as [|r rs Hr _ IH]; [reflexivity|].
  cbn [string_of_runes flat_map app]. rewrite <- app_assoc.
  rewrite runes_of_encode by exact Hr. f_equal. exact IH.
Qed.

Lemma runes_of_string (rs : list rune) :
  Forall (fun r => valid_rune r = true) rs ->
  runes_of (string_of_runes rs) = rs.
Proof.
  intros H. rewrite <- (app_nil_r (string_of_runes rs)).
  rewrite runes_of_string_app by exact H. apply app_nil_r.
Qed.

Lemma runes_of_ellipsis : runes_of ellipsis = [8230].
Proof. reflexivity. Qed.

Lemma string_of_ellipsis : string_of_runes [8230] = ellipsis.
Proof. reflexivity. Qed.

Lemma Forall_firstn {A} (P : A -> Prop) (k : nat) (l : list A) :
  Forall P l -> Forall P (firstn k l).
Proof.
  intros H. revert k. induction H; intros [|k]; cbn; constructor; auto.
Qed.

Lemma length_firstn_le {A} (k : nat) (l : list A) :
  (k <= length l)%nat -> length (firstn k l) = k.
Proof. intros H. rewrite length_firstn. lia. Qed.

(** The cut of [truncateString]: the first [k] runes, then [e]. *)
Lemma runes_of_cut (s e : gostring) (k : nat) :
  well_formed e ->
  runes_of (string_of_runes (firstn k (runes_of s)) ++ e)
  = firstn k (runes_of s) ++ runes_of e
  /\ well_formed (string_of_runes (firstn k (runes_of s)) ++ e).
Proof.
  intros He.
  assert (Hk : runes_of (string_of_runes (firstn k (runes_of s)) ++ e)
               = firstn k (runes_of s) ++ runes_of e).
  { apply runes_of_string_app, Forall_firstn, runes_of_valid. }
  split; [exact Hk|].
  unfold well_formed. rewrite Hk. unfold string_of_runes.
  rewrite flat_map_app. f_equal. exact He.
Qed.

(** C10. [truncateString s maxLen] has at most [max maxLen 0] runes; a
    string of at most [maxLen] runes is returned as it is; and a result
    that is not [s] itself is the encoding of the first [k] runes of [s],
    followed by nothing or by the ellipsis: it decodes to exactly those
    runes, is well-formed UTF-8, and on a well-formed [s] its cut falls
    on a rune boundary of [s] (no multi-byte character is split). *)
Theorem truncateString_spec (s : gostring) (maxLen : Z) :
  Z.of_nat (length (runes_of (truncateString s maxLen))) <= Z.max maxLen 0
  /\ (Z.of_nat (length (runes_of s)) <= maxLen -> truncateString s maxLen = s)
  /\ (truncateString s maxLen = s
      \/ exists (k : nat) (e : gostring),
           (e = [] \/ e = ellipsis)
           /\ truncateString s maxLen = string_of_runes (firstn k (runes_of s)) ++ e
           /\ runes_of (truncateString s maxLen) = firstn k (runes_of s) ++ runes_of e
           /\ well_formed (truncateString s maxLen)
           /\ (well_formed s ->
               s = string_of_runes (firstn k (runes_of s))
                   ++ string_of_runes (skipn k (runes_of s)))).
Proof.
  assert (Hb : forall k, well_formed s ->
             s = string_of_runes (firstn k (runes_of s))
                 ++ string_of_runes (skipn k (runes_of s))).
  { intros k Hs. unfold string_of_runes. rewrite <- flat_map_app.
    rewrite firstn_skipn. symmetry. exact Hs. }
  unfold truncateString.
  destruct (Z.leb_spec maxLen 0) as [Hn|Hp].
  { split; [cbn; lia|]. split.
    - intros Hl. destruct s as [|b0 t0]; [reflexivity|].
      destruct (runes_of_step b0 t0) as (r & k & _ & _ & E).
      rewrite E in Hl. cbn [length] in Hl. lia.
    - right. exists 0%nat, []. cbn [firstn string_of_runes flat_map app].
      repeat split; auto. }
  cbv zeta.
  destruct (Z.leb_spec (Z.of_nat (length (runes_of s))) maxLen) as [Hle|Hgt].
  { split; [lia|]. split; auto. }
  destruct (Z.leb_spec maxLen 3) as [H3|H3].
  - destruct (runes_of_cut s [] (Z.to_nat maxLen) eq_refl) as [Hr Hw].
    rewrite app_nil_r in Hr, Hw. split; [|split].
    + rewrite Hr, app_nil_r, length_firstn_le by lia. lia.
    + intros; lia.
    + right. exists (Z.to_nat maxLen), []. rewrite app_nil_r.
      repeat split; auto.
  - destruct (runes_of_cut s ellipsis (Z.to_nat (maxLen - 1)) eq_refl) as [Hr Hw].
    split; [|split].
    + rewrite Hr, length_app, length_firstn_le by lia. cbn. lia.
    + intros; lia.
    + right. exists (Z.to_nat (maxLen - 1)), ellipsis.
      repeat split; auto.
Qed.

(** A four-rune string with a two-byte character, cut to three runes and
    left alone at four. *)
Lemma truncateString_spec_witness :
  truncateString [x68; xc3; xa9; x6c; x6c] 4 = [x68; xc3; xa9; x6c; x6c].
Proof.
  apply (proj1 (proj2 (truncateString_spec [x68; xc3; xa9; x6c; x6c] 4))).
  vm_compute. discriminate.
Defined.

End Utf8Facts.

Module driftFacts.
Import drift.

Lemma Validate_DefaultConfig : Validate DefaultConfig = None.
Proof. reflexivity. Qed.

Lemma DefaultConfig_density_order :
  PrimFloat.leb (DensityInfoPct DefaultConfig) (DensityWarningPct DefaultConfig) = true.
Proof. reflexivity. Qed.

(** C8. Whatever the file system and the YAML decoder answer, a
    configuration that [LoadConfig] returns with a [nil] error passes
    [Validate]; the defaults, returned when the file is absent, pass it
    with [DensityInfoPct <= DensityWarningPct]. *)
Theorem LoadConfig_valid
    (os_ReadFile : string -> ReadFile_result)
    (filepath_Join : list string -> string)
    (yaml_Unmarshal : list byte -> Config -> result Config)
    (projectDir : string) (c : Config) :
  LoadConfig os_ReadFile filepath_Join yaml_Unmarshal projectDir = Ok c ->
  Validate c = None
  /\ (forall msg, os_ReadFile (ConfigPath filepath_Join projectDir) = FileNotExist msg ->
        c = DefaultConfig
        /\ PrimFloat.leb (DensityInfoPct c) (DensityWarningPct c) = true).
Proof.
  unfold LoadConfig. intros H.
  destruct (os_ReadFile (ConfigPath filepath_Join projectDir)) as [data|m|m] eqn:ER.
  - destruct (yaml_Unmarshal data DefaultConfig) as [config|m]; [|discriminate].
    destruct (Validate config) eqn:EV; [discriminate|].
    injection H as <-. split; [exact EV|]. intros; discriminate.
  - injection H as <-. split; [reflexivity|]. intros _ _. split; reflexivity.
  - discriminate.
Qed.

(** A project without [.bv/drift.yaml] gets the defaults. *)
Lemma LoadConfig_valid_witness :
  Validate DefaultConfig = None.
Proof.
  apply (LoadConfig_valid
           (fun _ => FileNotExist "open .bv/drift.yaml: no such file or directory")
           (fun parts => String.concat "/" parts)
           (fun _ c => Ok c) "proj" DefaultConfig).
  reflexivity.
Defined.

End driftFacts.

Module analysisFacts.
Import model analysis samples.

(** ** Fingerprint *)

Lemma Fingerprint_keys (issues : list Issue) :
  Fingerprint issues
  = fold_right (fun k acc => (key_hash k + acc) mod two64) 0
               (map fingerprint_key issues).
Proof.
  induction issues as [|i issues IH]; [reflexivity|].
  cbn [Fingerprint map fold_right]. unfold issue_hash at 1.
  f_equal. f_equal. exact IH.
Qed.

Lemma sum_mod_perm (ks1 ks2 : list (string * Status * Z * list Dependency)) :
  Permutation ks1 ks2 ->
  fold_right (fun k acc => (key_hash k + acc) mod two64) 0 ks1
  = fold_right (fun k acc => (key_hash k + acc) mod two64) 0 ks2.
Proof.
  induction 1 as [|k l1 l2 _ IH|a b l|l1 l2 l3 _ IH1 _ IH2]; cbn [fold_right].
  - reflexivity.
  - now rewrite IH.
  - rewrite !Zplus_mod_idemp_r. f_equal. lia.
  - now rewrite IH1.
Qed.

(** ** The store before publication *)

Section EngineFacts.

Variable centrality : Metric -> list Issue -> gmap string Q.

Lemma pending_AnalyzeAsync (e : Engine) (a : Analyzer) :
  pending (snd (AnalyzeAsync e a)) (fst (AnalyzeAsync e a)).
Proof.
  unfold pending, AnalyzeAsync. cbn. split; [lia|].
  eexists. rewrite lookup_insert_eq. split; reflexivity.
Qed.

Lemma pending_AnalyzeAsync_other (h : handle) (e : Engine) (a : Analyzer) :
  pending h e -> pending h (fst (AnalyzeAsync e a)).
Proof.
  intros [Hlt (g & Hg & Hp)]. unfold pending, AnalyzeAsync. cbn.
  split; [lia|]. exists g. rewrite lookup_insert_ne by lia. auto.
Qed.

Lemma NewCachedAnalyzer_engine (e : Engine) (issues : list Issue)
    (c : option Cache) :
  fst (NewCachedAnalyzer e issues c) = e
  \/ fst (NewCachedAnalyzer e issues c) = fst (AnalyzeAsync e (NewAnalyzer issues)).
Proof.
  unfold NewCachedAnalyzer.
  destruct (match c with Some c0 => c0 | None => shared_cache e end) as [[fp h]|];
    [destruct (fp =? Fingerprint issues)|]; cbn; auto.
Qed.

Lemma pending_step (h : handle) (e : Engine) (s : EngineStep) :
  s <> StepComplete h -> pending h e -> pending h (run_step centrality e s).
Proof.
  intros Hs Hp. destruct s as [a|issues|h']; cbn [run_step].
  - apply pending_AnalyzeAsync_other, Hp.
  - destruct (NewCachedAnalyzer_engine e issues None) as [-> | ->];
      [exact Hp | apply pending_AnalyzeAsync_other, Hp].
  - assert (h' <> h) by congruence.
    unfold Phase2Completes.
    destruct (store e !! h') as [g'|]; [|exact Hp].
    destruct (phase2 (gen_stats g')); [exact Hp|].
    destruct Hp as [Hlt (g & Hg & Hn)]. split; [exact Hlt|].
    exists g. cbn. rewrite lookup_insert_ne by exact H. auto.
Qed.

Lemma pending_run (h : handle) (steps : list EngineStep) :
  forall e, ~ In (StepComplete h) steps -> pending h e ->
            pending h (run centrality steps e).
Proof.
  induction steps as [|s steps IH]; intros e Hn Hp; [exact Hp|].
  cbn [run fold_left]. apply IH.
  - intros Hin. apply Hn. now right.
  - apply pending_step; [|exact Hp]. intros ->. apply Hn. now left.
Qed.

Lemma GetScore_unpublished (m : Metric) (s : GraphStats) (issueId : string) :
  phase2 s = None -> GetScore m s issueId = 0%Q.
Proof. unfold GetScore. now intros ->. Qed.

(** C4. From the moment [AnalyzeAsync] returns its handle and for as
    long as the background computation of that generation has not
    finished -- whatever else the engine does meanwhile -- every score
    accessor is a plain read that answers zero for every issue id (and
    [Cycles] is empty), while Phase 1 is already there. *)
Theorem accessors_before_phase2 (e : Engine) (a : Analyzer)
    (steps : list EngineStep) (issueId : string) :
  ~ In (StepComplete (snd (AnalyzeAsync e a))) steps ->
  let s := stats_at (run centrality steps (fst (AnalyzeAsync e a)))
                    (snd (AnalyzeAsync e a)) in
  (forall m : Metric, GetScore m s issueId = 0%Q)
  /\ GetPageRankScore s issueId = 0%Q
  /\ GetBetweennessScore s issueId = 0%Q
  /\ GetEigenvectorScore s issueId = 0%Q
  /\ GetHubScore s issueId = 0%Q
  /\ GetAuthorityScore s issueId = 0%Q
  /\ GetCriticalPathScore s issueId = 0%Q
  /\ Cycles s = []
  /\ IsPhase2Ready s = false.
Proof.
  intros Hn s.
  assert (Hs : phase2 s = None).
  { destruct (pending_run _ steps _ Hn (pending_AnalyzeAsync e a))
      as [_ (g & Hg & Hp)].
    subst s. unfold stats_at. now rewrite Hg. }
  repeat split; try (apply GetScore_unpublished, Hs);
    try (intros m; apply GetScore_unpublished, Hs).
  - unfold Cycles. now rewrite Hs.
  - unfold IsPhase2Ready. now rewrite Hs.
Qed.

(** ** The invariant of the engine *)


Lemma engine_ok_AnalyzeAsync (e : Engine) (a : Analyzer) :
  engine_ok centrality e -> engine_ok centrality (fst (AnalyzeAsync e a)).
Proof.
  intros [Hs Hc]. split.
  - intros h g. cbn. destruct (decide (next_handle e = h)) as [<-|Hne].
    + rewrite lookup_insert_eq. intros [= <-]. cbn. repeat split; auto. lia.
    + rewrite lookup_insert_ne by exact Hne. intros Hg.
      destruct (Hs h g Hg) as (Hlt & H1 & H2). repeat split; auto. lia.
  - intros fp h. cbn. intros Hfp.
    destruct (Hc fp h Hfp) as (g & Hg & Hf & Hp).
    exists g. rewrite lookup_insert_ne; auto.
    destruct (Hs h g Hg) as (Hlt & _). lia.
Qed.

Lemma engine_ok_Phase2Completes (e : Engine) (h : handle) :
  engine_ok centrality e -> engine_ok centrality (Phase2Completes centrality e h).
Proof.
  intros Hok. unfold Phase2Completes.
  destruct (store e !! h) as [g|] eqn:Eg; [|exact Hok].
  destruct (phase2 (gen_stats g)) eqn:Ep; [exact Hok|].
  destruct Hok as [Hs Hc].
  destruct (Hs h g Eg) as (Hlt & H1 & _).
  split.
  - intros h' g'. cbn. destruct (decide (h = h')) as [<-|Hne].
    + rewrite lookup_insert_eq. intros [= <-]. cbn. auto.
    + rewrite lookup_insert_ne by exact Hne. apply Hs.
  - intros fp h'. cbn. intros [= <- <-].
    eexists. rewrite lookup_insert_eq. cbn. auto.
Qed.

Lemma engine_ok_NewCachedAnalyzer (e : Engine) (issues : list Issue)
    (c : option Cache) :
  engine_ok centrality e -> engine_ok centrality (fst (NewCachedAnalyzer e issues c)).
Proof.
  intros Hok. destruct (NewCachedAnalyzer_engine e issues c) as [-> | ->];
    [exact Hok | apply engine_ok_AnalyzeAsync, Hok].
Qed.

Lemma engine_ok_run (steps : list EngineStep) :
  forall e, engine_ok centrality e -> engine_ok centrality (run centrality steps e).
Proof.
  induction steps as [|s steps IH]; intros e Hok; [exact Hok|].
  cbn [run fold_left]. apply IH. destruct s; cbn [run_step].
  - apply engine_ok_AnalyzeAsync, Hok.
  - apply engine_ok_NewCachedAnalyzer, Hok.
  - apply engine_ok_Phase2Completes, Hok.
Qed.

(** ** The fingerprint cache *)



End EngineFacts.

(** C6. Two issue lists with the same (id, status, priority, present
    dependencies) entries in any order -- a list and a permutation of it
    in particular -- have the same fingerprint. *)
Theorem Fingerprint_order_independent (issues1 issues2 : list Issue) :
  Permutation (map fingerprint_key issues1) (map fingerprint_key issues2) ->
  Fingerprint issues1 = Fingerprint issues2.
Proof.
  intros H. rewrite !Fingerprint_keys.
  apply sum_mod_perm. exact H.
Qed.

Lemma Fingerprint_order_independent_witness :
  Fingerprint chain_issues = Fingerprint (rev chain_issues).
Proof.
  apply Fingerprint_order_independent, Permutation_map, Permutation_rev.
Defined.

(** The fingerprint does read the status. *)
Lemma Fingerprint_reads_status :
  Fingerprint [issue "A" "first" StatusOpen 0 []]
  <> Fingerprint [issue "A" "first" StatusClosed 0 []].
Proof. vm_compute. discriminate. Qed.

Lemma accessors_before_phase2_witness :
  let r := AnalyzeAsync empty_engine (NewAnalyzer cycle_issues) in
  let steps := [StepAnalyze (NewAnalyzer chain_issues); StepComplete 2%positive] in
  GetPageRankScore (stats_at (run no_centrality steps (fst r)) (snd r)) "A" = 0%Q.
Proof.
  cbv zeta.
  apply (accessors_before_phase2 no_centrality empty_engine
           (NewAnalyzer cycle_issues)
           [StepAnalyze (NewAnalyzer chain_issues); StepComplete 2%positive] "A").
  cbn. intros [H|[H|[]]]; discriminate.
Defined.

(** ** PageRank *)

Section PageRankFacts.

Local Open Scope Q_scope.





















(** Two isolated issues share the mass evenly. *)
Lemma PageRank_isolated :
  map snd (PageRank [issue "A" "" StatusOpen 0 []; issue "B" "" StatusOpen 0 []])
  = [4 # 8; 4 # 8].
Proof. vm_compute. reflexivity. Qed.

End PageRankFacts.

(** ** Critical path with a cycle *)

Lemma edgeb_edge (E : list (string * string)) (a b : string) :
  edgeb E a b = true <-> edge E a b.
Proof.
  unfold edgeb, edge. rewrite List.existsb_exists. split.
  - intros ([x y] & Hin & H). cbn in H. apply andb_true_iff in H.
    destruct H as [H1 H2]. apply String.eqb_eq in H1, H2. now subst.
  - intros H. exists (a, b). split; [exact H|]. cbn. now rewrite !String.eqb_refl.
Qed.

Lemma in_succs (E : list (string * string)) (v w : string) :
  In w (succs E v) <-> edge E v w.
Proof.
  unfold succs, edge. rewrite List.in_map_iff. split.
  - intros ([a b] & <- & Hin). apply list_elem_of_In in Hin.
    apply list_elem_of_filter in Hin. destruct Hin as [Ha Hin]. cbn in Ha.
    apply String.eqb_eq in Ha. subst. cbn. now apply list_elem_of_In.
  - intros H. exists (v, w). split; [reflexivity|].
    apply list_elem_of_In, list_elem_of_filter. split.
    + cbn. apply String.eqb_refl.
    + now apply list_elem_of_In.
Qed.

Section Settle.

Variable E : list (string * string).
(** A set of nodes each of which has a successor in the set. *)
Variable C : list string.
Hypothesis C_closed : forall v, In v C -> exists w, In w C /\ edge E v w.

Lemma cannot_settle (done : list (string * Z)) (v : string) :
  (forall w, In w C -> settled done w = false) ->
  In v C -> can_settle E done v = false.
Proof.
  intros Hd Hv. destruct (C_closed v Hv) as (w & Hw & He).
  unfold can_settle. apply not_true_is_false. intros H.
  rewrite List.forallb_forall in H. specialize (H w).
  rewrite (Hd w Hw) in H. discriminate H. now apply in_succs.
Qed.

Lemma settled_app (done more : list (string * Z)) (v : string) :
  settled (done ++ more) v = settled done v || settled more v.
Proof. unfold settled. apply List.existsb_app. Qed.

Lemma settle_keeps (fuel : nat) :
  forall done remaining,
    (forall w, In w C -> settled done w = false) ->
    (forall w, In w C -> In w remaining) ->
    (forall w, In w C -> settled (fst (settle fuel E done remaining)) w = false)
    /\ (forall w, In w C -> In w (snd (settle fuel E done remaining))).
Proof.
  induction fuel as [|fuel IH]; intros done remaining Hd Hr; cbn [settle];
    [split; assumption|].
  destruct (List.filter (can_settle E done) remaining) as [|x now] eqn:En;
    [split; assumption|].
  rewrite <- En. apply IH.
  - intros w Hw. rewrite settled_app, (Hd w Hw). cbn [orb].
    unfold settled. apply not_true_is_false. intros H.
    apply List.existsb_exists in H. destruct H as (p & Hp & Heq).
    apply List.in_map_iff in Hp. destruct Hp as (y & <- & Hy).
    cbn in Heq. apply String.eqb_eq in Heq. subst y.
    apply List.filter_In in Hy. destruct Hy as [_ Hy].
    rewrite (cannot_settle done w Hd Hw) in Hy. discriminate.
  - intros w Hw. apply List.filter_In. split; [apply Hr, Hw|].
    now rewrite (cannot_settle done w Hd Hw).
Qed.

End Settle.

(** ** Cycles as lists of nodes *)

Lemma chainb_tail (E : list (string * string)) (a : string) (l : list string) :
  chainb E (a :: l) = true -> chainb E l = true.
Proof.
  destruct l as [|b l]; [reflexivity|]. cbn [chainb].
  intros H. apply andb_true_iff in H. apply H.
Qed.

Lemma chainb_app_r (E : list (string * string)) (l1 l2 : list string) :
  chainb E (l1 ++ l2) = true -> chainb E l2 = true.
Proof.
  induction l1 as [|a l1 IH]; [auto|]. intros H. apply IH.
  cbn [app] in H. apply chainb_tail in H. exact H.
Qed.

Lemma chainb_app_l (E : list (string * string)) (l1 l2 : list string) :
  chainb E (l1 ++ l2) = true -> chainb E l1 = true.
Proof.
  induction l1 as [|a l1 IH]; [reflexivity|]. cbn [app].
  destruct l1 as [|b l1]; [reflexivity|]. cbn [app chainb] in *.
  intros H. apply andb_true_iff in H. destruct H as [H1 H2].
  rewrite H1. cbn [andb]. apply IH, H2.
Qed.

(** A chain from [a] to [b] is a path of at least one edge. *)
Lemma chainb_path (E : list (string * string)) (l : list string) :
  forall a b, chainb E (a :: l ++ [b]) = true -> tc (edge E) a b.
Proof.
  induction l as [|x l IH]; intros a b H; cbn [app chainb] in H.
  - apply andb_true_iff in H. apply tc_once, edgeb_edge, H.
  - apply andb_true_iff in H. destruct H as [H1 H2].
    eapply tc_l; [apply edgeb_edge, H1 | apply IH, H2].
Qed.

Lemma cycle_successor (E : list (string * string)) (c : list string) (v : string) :
  is_cycle E c = true -> In v c -> exists w, In w c /\ edge E v w.
Proof.
  intros Hc Hv. destruct c as [|v0 c']; [discriminate|].
  unfold is_cycle in Hc.
  apply List.in_split in Hv. destruct Hv as (l1 & l2 & Hs).
  rewrite Hs in Hc. rewrite <- List.app_assoc in Hc. apply chainb_app_r in Hc.
  destruct l2 as [|x l2].
  - cbn [app chainb] in Hc. apply andb_true_iff in Hc.
    exists v0. split; [left; reflexivity | apply edgeb_edge, Hc].
  - cbn [app chainb] in Hc. apply andb_true_iff in Hc.
    exists x. split; [|apply edgeb_edge, Hc].
    rewrite Hs. apply List.in_or_app. right. right. left. reflexivity.
Qed.

Lemma cycle_to_head (E : list (string * string)) (v0 : string)
    (c' : list string) (u : string) :
  is_cycle E (v0 :: c') = true -> In u (v0 :: c') -> tc (edge E) u v0.
Proof.
  intros Hc Hu. unfold is_cycle in Hc.
  apply List.in_split in Hu. destruct Hu as (l1 & l2 & Hs).
  rewrite Hs in Hc. rewrite <- List.app_assoc in Hc. apply chainb_app_r in Hc.
  apply (chainb_path E l2 u v0). exact Hc.
Qed.

Lemma cycle_from_head (E : list (string * string)) (v0 : string)
    (c' : list string) (w : string) :
  is_cycle E (v0 :: c') = true -> In w (v0 :: c') -> tc (edge E) v0 w.
Proof.
  intros Hc Hw. unfold is_cycle in Hc. destruct Hw as [<-|Hw].
  - apply (chainb_path E c' v0 v0). exact Hc.
  - apply List.in_split in Hw. destruct Hw as (l1 & l2 & Hs).
    rewrite Hs in Hc.
    replace ((v0 :: l1 ++ w :: l2) ++ [v0])
      with ((v0 :: l1 ++ [w]) ++ (l2 ++ [v0])) in Hc.
    + apply chainb_app_l in Hc. apply (chainb_path E l1 v0 w). exact Hc.
    + cbn [app]. f_equal. rewrite <- !List.app_assoc. reflexivity.
Qed.

(** Any two members of a cycle reach each other. *)
Lemma cycle_connected (E : list (string * string)) (c : list string)
    (u w : string) :
  is_cycle E c = true -> In u c -> In w c -> tc (edge E) u w.
Proof.
  intros Hc Hu Hw. destruct c as [|v0 c']; [destruct Hu|].
  eapply tc_transitive.
  - eapply cycle_to_head; eassumption.
  - eapply cycle_from_head; eassumption.
Qed.

(** ** Reachability by closing the successor sets *)

Lemma elem_of_succ_set (E : list (string * string)) (S : gset string) (w : string) :
  w ∈ succ_set E S <-> exists v, v ∈ S /\ edge E v w.
Proof.
  unfold succ_set, edge. rewrite elem_of_list_to_set, list_elem_of_In, List.in_map_iff.
  split.
  - intros ([a b] & <- & Hin). apply list_elem_of_In, list_elem_of_filter in Hin.
    destruct Hin as [Ha Hin]. exists a. split; [exact Ha|].
    now apply list_elem_of_In.
  - intros (v & Hv & Hin). exists (v, w). split; [reflexivity|].
    apply list_elem_of_In, list_elem_of_filter. split; [exact Hv|].
    now apply list_elem_of_In.
Qed.

Lemma closure_extends (E : list (string * string)) (n : nat) :
  forall S, S ⊆ closure n E S.
Proof.
  induction n as [|n IH]; intros S; cbn [closure]; [reflexivity|].
  etransitivity; [|apply IH]. set_solver.
Qed.

Lemma closure_of_closed (E : list (string * string)) (n : nat) (S : gset string) :
  closed E S -> closure n E S = S.
Proof.
  intros Hc. induction n as [|n IH]; cbn [closure]; [reflexivity|].
  replace (S ∪ succ_set E S) with S; [exact IH|].
  apply set_eq. unfold closed in Hc. set_solver.
Qed.

Lemma closure_closed (E : list (string * string)) (U : gset string) (n : nat) :
  (forall T, T ⊆ U -> succ_set E T ⊆ U) ->
  forall S, S ⊆ U -> (size U <= size S + n)%nat -> closed E (closure n E S).
Proof.
  intros HU. induction n as [|n IH]; intros S HS Hsize; cbn [closure].
  - assert (Heq : S = U).
    { apply set_eq. apply set_subseteq_size_equiv; [exact HS|lia]. }
    subst S. unfold closed. apply HU. reflexivity.
  - destruct (decide (succ_set E S ⊆ S)) as [Hc|Hn].
    + replace (S ∪ succ_set E S) with S by (apply set_eq; set_solver).
      rewrite closure_of_closed by exact Hc. exact Hc.
    + apply IH.
      * pose proof (HU S HS). set_solver.
      * assert (S ⊂ S ∪ succ_set E S) as Hlt by set_solver.
        apply subset_size in Hlt. lia.
Qed.

Lemma closed_reaches (E : list (string * string)) (T : gset string) (v w : string) :
  closed E T -> v ∈ T -> rtc (edge E) v w -> w ∈ T.
Proof.
  intros Hc Hv Hr. induction Hr as [|x y z Hxy _ IH]; [exact Hv|].
  apply IH. apply Hc. apply elem_of_succ_set. eauto.
Qed.

Lemma closure_sound (E : list (string * string)) (n : nat) :
  forall S w, w ∈ closure n E S -> exists v, v ∈ S /\ rtc (edge E) v w.
Proof.
  induction n as [|n IH]; intros S w Hw; cbn [closure] in Hw.
  - exists w. split; [exact Hw | apply rtc_refl].
  - destruct (IH _ _ Hw) as (v & Hv & Hr).
    apply elem_of_union in Hv. destruct Hv as [Hv|Hv]; [eauto|].
    apply elem_of_succ_set in Hv. destruct Hv as (u & Hu & He).
    exists u. split; [exact Hu|]. eapply rtc_l; eassumption.
Qed.

Lemma size_list_to_set_le (l : list string) :
  (size (list_to_set l : gset string) <= length l)%nat.
Proof.
  induction l as [|a l IH]; cbn [list_to_set length].
  - rewrite size_empty. lia.
  - rewrite size_union_alt, size_singleton.
    assert (size ((list_to_set l : gset string) ∖ {[a]}) <= size (list_to_set l : gset string))%nat
      by (apply subseteq_size; set_solver).
    lia.
Qed.

Lemma tc_first_step {A} (R : relation A) (x z : A) :
  tc R x z -> exists y, R x y /\ rtc R y z.
Proof.
  intros H. destruct H as [x y H|x y z H Ht].
  - exists y. split; [exact H | apply rtc_refl].
  - exists y. split; [exact H | apply tc_rtc, Ht].
Qed.

(** [reach_plus] is reachability by at least one edge, on a graph whose
    edges end in [nodes]. *)
Lemma reach_plus_spec (nodes : list string) (E : list (string * string))
    (u w : string) :
  (forall a b, edge E a b -> In b nodes) ->
  w ∈ reach_plus nodes E u <-> tc (edge E) u w.
Proof.
  intros Hends. unfold reach_plus. split.
  - intros Hw. apply closure_sound in Hw. destruct Hw as (v & Hv & Hr).
    apply elem_of_succ_set in Hv. destruct Hv as (u' & Hu & He).
    apply elem_of_singleton in Hu. subst u'.
    eapply tc_rtc_r; [apply tc_once, He | exact Hr].
  - intros Ht. apply tc_first_step in Ht. destruct Ht as (v & He & Hr).
    assert (HU : forall T : gset string,
               succ_set E T ⊆ (list_to_set nodes : gset string)).
    { intros T x Hx. apply elem_of_succ_set in Hx. destruct Hx as (a & _ & Ha).
      apply elem_of_list_to_set, list_elem_of_In. eapply Hends, Ha. }
    eapply closed_reaches; [| |exact Hr].
    + apply (closure_closed E (list_to_set nodes) (length nodes) (fun T _ => HU T)).
      * apply HU.
      * pose proof (size_list_to_set_le nodes). lia.
    + apply closure_extends. apply elem_of_succ_set. exists u.
      split; [set_solver | exact He].
Qed.

(** ** Components *)

Lemma connected_sym (E : list (string * string)) (v w : string) :
  connected E v w -> connected E w v.
Proof. intros [->|[H1 H2]]; [left; reflexivity | right; auto]. Qed.

Lemma connected_trans (E : list (string * string)) (u v w : string) :
  connected E u v -> connected E v w -> connected E u w.
Proof.
  intros [->|[H1 H2]] [->|[H3 H4]]; try (right; split; assumption).
  - left. reflexivity.
  - right. split; etransitivity; eassumption.
Qed.

Section Components.

Variable nodes : list string.
Variable E : list (string * string).
Hypothesis ends : forall a b, edge E a b -> In b nodes.

Lemma same_component_spec (v w : string) :
  same_component nodes E v w = true <-> connected E v w.
Proof.
  unfold same_component, connected.
  rewrite orb_true_iff, andb_true_iff, String.eqb_eq, !bool_decide_eq_true.
  rewrite !(reach_plus_spec nodes E _ _ ends). reflexivity.
Qed.

Lemma in_component (v w : string) :
  In w (component nodes E v) <-> In w nodes /\ connected E v w.
Proof.
  unfold component. rewrite List.filter_In, same_component_spec. reflexivity.
Qed.

Lemma component_ext (v m : string) :
  connected E v m -> component nodes E v = component nodes E m.
Proof.
  intros Hvm. unfold component. apply List.filter_ext. intros w.
  apply eq_true_iff_eq. rewrite !same_component_spec. split; intros H.
  - eapply connected_trans; [apply connected_sym, Hvm | exact H].
  - eapply connected_trans; eassumption.
Qed.

Lemma two_members {A} (l : list A) (x y : A) :
  In x l -> In y l -> x <> y -> (1 < length l)%nat.
Proof.
  intros Hx Hy Hne. destruct l as [|a [|b l]]; cbn in *; [destruct Hx| |lia].
  destruct Hx as [<-|[]], Hy as [<-|[]]. congruence.
Qed.

(** A node on a cycle is reported as cyclic. *)
Lemma is_cyclic_on_cycle (v : string) :
  In v nodes -> tc (edge E) v v -> is_cyclic nodes E v = true.
Proof.
  intros Hv Ht. unfold is_cyclic. apply orb_true_iff.
  destruct (tc_first_step _ _ _ Ht) as (x & He & Hr).
  destruct (String.eqb_spec x v) as [->|Hne].
  - right. unfold self_loop. apply List.existsb_exists. exists (v, v).
    split; [exact He|]. cbn. now rewrite String.eqb_refl.
  - left. apply Nat.ltb_lt. apply (two_members _ v x).
    + apply in_component. split; [exact Hv | left; reflexivity].
    + apply in_component. split; [eapply ends, He|].
      right. split; [apply tc_once, He|].
      apply rtc_tc in Hr. destruct Hr as [->|Hr]; [congruence | exact Hr].
    + congruence.
Qed.

Lemma components_from_reports (m : string) :
  In m nodes -> tc (edge E) m m ->
  forall todo seen,
    (forall x, In x todo -> In x nodes) ->
    In m todo -> m ∉ seen ->
    (forall x y, x ∈ seen -> connected E x y -> In y nodes -> y ∈ seen) ->
    In (component nodes E m) (components_from nodes E todo seen).
Proof.
  intros Hm Ht. induction todo as [|v todo IH]; intros seen Hsub Hin Hns Hcl;
    [destruct Hin|].
  cbn [components_from].
  assert (Hsub' : forall x, In x todo -> In x nodes)
    by (intros x Hx; apply Hsub; right; exact Hx).
  destruct (bool_decide (v ∈ seen)) eqn:Ev.
  - apply bool_decide_eq_true in Ev.
    apply IH; auto. destruct Hin as [->|Hin]; [contradiction | exact Hin].
  - apply bool_decide_eq_false in Ev.
    assert (Hv : In v nodes) by (apply Hsub; left; reflexivity).
    destruct (same_component nodes E v m) eqn:Es;
      [apply same_component_spec in Es; rename Es into Hvm
      |assert (Hvm : ~ connected E v m)
         by (intros H; apply same_component_spec in H; congruence)].
    + rewrite (component_ext v m Hvm).
      assert (Hcyc : is_cyclic nodes E v = true).
      { apply is_cyclic_on_cycle; [exact Hv|].
        destruct Hvm as [->|[H1 H2]]; [exact Ht | etransitivity; eassumption]. }
      rewrite Hcyc. left. reflexivity.
    + apply List.in_or_app. right. apply IH; auto.
      * destruct Hin as [->|Hin]; [|exact Hin].
        exfalso. apply Hvm. left. reflexivity.
      * intros Hms. apply elem_of_union in Hms. destruct Hms as [Hms|Hms];
          [|contradiction].
        apply elem_of_list_to_set, list_elem_of_In, in_component in Hms.
        apply Hvm, Hms.
      * intros x y Hx Hxy Hy. apply elem_of_union.
        apply elem_of_union in Hx. destruct Hx as [Hx|Hx].
        -- left. apply elem_of_list_to_set, list_elem_of_In, in_component.
           apply elem_of_list_to_set, list_elem_of_In, in_component in Hx.
           split; [exact Hy|]. eapply connected_trans; [apply Hx | exact Hxy].
        -- right. eapply Hcl; eassumption.
Qed.

End Components.

(** ** Edges end in nodes *)

Lemma has_id_node (issues : list Issue) (id : string) :
  has_id issues id = true -> In id (node_ids issues).
Proof.
  unfold has_id, node_ids. intros H. apply List.existsb_exists in H.
  destruct H as (i & Hi & Heq). apply String.eqb_eq in Heq. subst id.
  apply list_elem_of_In, elem_of_remove_dups, list_elem_of_In.
  apply List.in_map, Hi.
Qed.

Lemma valid_deps_ends (issues : list Issue) (d : Dependency) :
  In d (valid_deps issues) ->
  In (IssueID d) (node_ids issues) /\ In (DependsOnID d) (node_ids issues).
Proof.
  unfold valid_deps. intros H. apply list_elem_of_In, list_elem_of_filter in H.
  destruct H as [H _]. apply andb_true_iff in H.
  split; apply has_id_node; apply H.
Qed.

Lemma graph_edges_ends (issues : list Issue) (a b : string) :
  edge (graph_edges issues) a b ->
  In a (node_ids issues) /\ In b (node_ids issues).
Proof.
  unfold edge, graph_edges. intros H. apply List.in_map_iff in H.
  destruct H as (d & [= <- <-] & Hd). apply valid_deps_ends, Hd.
Qed.

Lemma blocks_edges_graph (issues : list Issue) (a b : string) :
  edge (blocks_edges issues) a b -> edge (graph_edges issues) b a.
Proof.
  unfold edge, blocks_edges, graph_edges. intros H. apply List.in_map_iff in H.
  destruct H as (d & [= <- <-] & Hd).
  apply list_elem_of_In, list_elem_of_filter in Hd. destruct Hd as [_ Hd].
  apply List.in_map_iff. exists d. split; [reflexivity|].
  now apply list_elem_of_In.
Qed.

Lemma tc_reverse {A} (R R' : relation A) (u w : A) :
  (forall a b, R a b -> R' b a) -> tc R u w -> tc R' w u.
Proof.
  intros HR H. induction H as [x y H|x y z H _ IH].
  - apply tc_once, HR, H.
  - eapply tc_r; [exact IH | apply HR, H].
Qed.

(** ** Heights of cycle members *)

Lemma lookup_unsettled (done : list (string * Z)) (rest : list (string * Q))
    (v : string) :
  settled done v = false ->
  (list_to_map (map as_score done ++ rest) : gmap string Q) !! v
  = (list_to_map rest : gmap string Q) !! v.
Proof.
  induction done as [|[k h] done IH]; intros Hs; [reflexivity|].
  unfold settled in Hs. cbn [existsb fst] in Hs.
  apply orb_false_iff in Hs. destruct Hs as [Hk Hs].
  apply String.eqb_neq in Hk.
  cbn [map app]. unfold as_score at 1. cbn [fst snd].
  rewrite list_to_map_cons, lookup_insert_ne by exact Hk.
  apply IH, Hs.
Qed.

Lemma lookup_sentinel (remaining : list string) (v : string) :
  In v remaining ->
  (list_to_map (map as_score (map (fun x => (x, sentinel_height)) remaining))
     : gmap string Q) !! v
  = Some (inject_Z sentinel_height).
Proof.
  induction remaining as [|a remaining IH]; intros Hin; [destruct Hin|].
  cbn [map]. unfold as_score at 1. cbn [fst snd]. rewrite list_to_map_cons.
  destruct (decide (a = v)) as [->|Hne].
  - apply lookup_insert_eq.
  - rewrite lookup_insert_ne by exact Hne. apply IH.
    destruct Hin as [->|Hin]; [congruence | exact Hin].
Qed.

Lemma CriticalPath_on_cycle (issues : list Issue) (c : list string) :
  is_cycle (blocks_edges issues) c = true ->
  cp_HasCycle (CriticalPath issues) = true
  /\ forall v, In v c ->
       (list_to_map (map as_score (Heights (CriticalPath issues))) : gmap string Q) !! v
       = Some (inject_Z sentinel_height)
       /\ ~ In v (map fst (longest_path_candidates (CriticalPath issues))).
Proof.
  intros Hc.
  assert (Hnodes : forall v, In v c -> In v (node_ids issues)).
  { intros v Hv. destruct (cycle_successor _ _ _ Hc Hv) as (w & _ & He).
    apply blocks_edges_graph, graph_edges_ends in He. apply He. }
  destruct (settle_keeps (blocks_edges issues) c
              (fun v => cycle_successor _ _ v Hc)
              (length (node_ids issues)) [] (node_ids issues)
              (fun _ _ => eq_refl) Hnodes) as [Hd Hr].
  unfold longest_path_candidates, CriticalPath.
  destruct (settle _ _ _ _) as [done remaining]. cbn [fst snd] in Hd, Hr.
  cbn [Heights cp_HasCycle]. split.
  - destruct c as [|v c']; [discriminate|].
    specialize (Hr v (or_introl eq_refl)). destruct remaining; [destruct Hr|].
    reflexivity.
  - intros v Hv. split.
    + rewrite List.map_app, lookup_unsettled by (apply Hd, Hv).
      apply lookup_sentinel, Hr, Hv.
    + intros Hin. apply List.in_map_iff in Hin. destruct Hin as ([k h] & Hk & Hp).
      cbn in Hk. subst k. apply List.filter_In in Hp. destruct Hp as [Hp Hh].
      cbn [snd] in Hh. apply List.in_app_or in Hp. destruct Hp as [Hp|Hp].
      * assert (settled done v = true).
        { unfold settled. apply List.existsb_exists. exists (v, h).
          split; [exact Hp|]. cbn. apply String.eqb_refl. }
        rewrite (Hd v Hv) in H. discriminate.
      * apply List.in_map_iff in Hp. destruct Hp as (x & [= _ <-] & _).
        discriminate.
Qed.

Lemma DetectCycles_on_cycle (issues : list Issue) (c : list string) :
  is_cycle (blocks_edges issues) c = true ->
  exists cyc, In cyc (DetectCycles issues) /\ forall v, In v c -> In v cyc.
Proof.
  intros Hc.
  assert (Hnodes : forall v, In v c -> In v (node_ids issues)).
  { intros v Hv. destruct (cycle_successor _ _ _ Hc Hv) as (w & _ & He).
    apply blocks_edges_graph, graph_edges_ends in He. apply He. }
  assert (Hconn : forall u w, In u c -> In w c ->
                    tc (edge (graph_edges issues)) u w).
  { intros u w Hu Hw.
    apply (tc_reverse (edge (blocks_edges issues))); [apply blocks_edges_graph|].
    eapply cycle_connected; eassumption. }
  assert (ends : forall a b, edge (graph_edges issues) a b -> In b (node_ids issues))
    by (intros a b H; apply (graph_edges_ends issues a b H)).
  destruct c as [|m c'] eqn:Ec; [discriminate|]. rewrite <- Ec in *.
  assert (Hm : In m c) by (rewrite Ec; left; reflexivity).
  exists (component (node_ids issues) (graph_edges issues) m). split.
  - unfold DetectCycles.
    apply (components_from_reports _ _ ends m).
    + apply Hnodes, Hm.
    + apply Hconn; assumption.
    + auto.
    + apply Hnodes, Hm.
    + set_solver.
    + intros x y Hx. set_solver.
  - intros v Hv. apply in_component; [exact ends|].
    split; [apply Hnodes, Hv|]. right. split; apply Hconn; assumption.
Qed.

(** C7. When the [blocks] edges of an issue set contain a cycle [c]
    (given by its nodes in order), the Phase-2 computation -- a total
    function: the settling rounds are bounded by the number of nodes --
    sets [HasCycle]; every member of [c] gets the sentinel height and is
    left out of longest-path reporting; and [Cycles] reports one
    component that holds all of [c]. For the graph A blocks B blocks A,
    [Cycles] is exactly the one cycle of A and B. *)
Theorem cycle_marks_height_unreliable
    (centrality : Metric -> list Issue -> gmap string Q)
    (issues : list Issue) (c : list string) :
  is_cycle (blocks_edges issues) c = true ->
  let s := published centrality issues in
  HasCycle (ComputePhase2 centrality issues) = true
  /\ (forall v, In v c ->
        GetCriticalPathScore s v = inject_Z sentinel_height
        /\ ~ In v (map fst (longest_path_candidates (CriticalPath issues))))
  /\ (exists cyc, In cyc (Cycles s) /\ forall v, In v c -> In v cyc)
  /\ Cycles (published centrality cycle_issues) = [["A"; "B"]]%string.
Proof.
  intros Hc. cbv zeta.
  destruct (CriticalPath_on_cycle issues c Hc) as [Hh Hv].
  split; [exact Hh|]. split; [|split].
  - intros v Hin. destruct (Hv v Hin) as [Hl Hn]. split; [|exact Hn].
    unfold GetCriticalPathScore, GetScore, published. cbn [phase2 scores_of].
    unfold ComputePhase2. cbn [CriticalPathScores].
    change (map (fun p : string * Z => (fst p, inject_Z (snd p))))
      with (map as_score).
    rewrite Hl. reflexivity.
  - exact (DetectCycles_on_cycle issues c Hc).
  - unfold Cycles, published. cbn [phase2]. unfold ComputePhase2. cbn [CycleList].
    vm_compute. reflexivity.
Qed.

Lemma cycle_marks_height_unreliable_witness :
  HasCycle (ComputePhase2 no_centrality cycle_issues) = true
  /\ GetCriticalPathScore (published no_centrality cycle_issues) "A"
     = inject_Z sentinel_height.
Proof.
  destruct (cycle_marks_height_unreliable no_centrality cycle_issues
              ["A"; "B"]%string) as (H1 & H2 & _).
  - vm_compute. reflexivity.
  - split; [exact H1|]. apply H2. left. reflexivity.
Defined.

(** On a chain the heights count the issues downstream. *)
Lemma CriticalPath_chain :
  CriticalPath chain_issues
  = {| Heights := [("C", 0); ("B", 1); ("A", 2)]%string; cp_HasCycle := false |}.
Proof. vm_compute. reflexivity. Qed.

End analysisFacts.

Module uiFacts.
Import model analysis ui analysisFacts samples.

Ltac split_conds :=
  repeat match goal with
  | |- context [if ?b then _ else _] => destruct b eqn:?
  | |- context [match ?x with Some _ => _ | None => _ end] => destruct x eqn:?
  | |- context [match ?x with Ok _ => _ | Err _ => _ end] => destruct x eqn:?
  | |- context [let '(_, _) := ?x in _] => destruct x eqn:?
  end.

(** Solves [p (stage m) = ...] by running the stage. *)
Ltac run_stage stage :=
  unfold stage; unfold setAlerts; cbv zeta; split_conds;
  first [reflexivity | assumption].

Section WithEnvironment.

Variable C : Components.
Variable render_viewport : GraphStats -> Model C -> Viewport C.
Variable renderSprintDashboard : Model C -> string.
Variable LoadIssuesFromFile : string -> result (list Issue * list string).
Variable LoadSprintsFromFile : string -> result (list (Sprint C)).

Local Abbreviation applyFilter := (applyFilter C render_viewport).
Local Abbreviation applyRecipe := (applyRecipe C render_viewport).
Local Abbreviation phase2Refresh := (phase2Refresh C render_viewport).
Local Abbreviation reload :=
  (reload C render_viewport renderSprintDashboard LoadSprintsFromFile).
Local Abbreviation fileChanged :=
  (fileChanged C render_viewport renderSprintDashboard LoadIssuesFromFile
               LoadSprintsFromFile).
Local Abbreviation Update :=
  (Update C render_viewport renderSprintDashboard LoadIssuesFromFile
          LoadSprintsFromFile).

Lemma eta_id (m : Model C) : eta C m = m.
Proof. destruct m. reflexivity. Qed.

Lemma shown_only_refl (m : Model C) : shown_only C m m.
Proof. unfold shown_only. destruct m. reflexivity. Qed.

Lemma applyFilter_shown_only (e : Engine) (m m' : Model C) :
  applyFilter e m = Returns m' -> shown_only C m m'.
Proof.
  unfold ui.applyFilter.
  destruct (filterLoop C _ m (m_issues C m)) as [r|msg]; cbn; [|discriminate].
  intros [= <-]. unfold keepSelectionInBounds.
  destruct (_ && _); destruct m; reflexivity.
Qed.

Lemma applyRecipe_shown_only (e : Engine) (m m' : Model C) (r : option Recipe) :
  applyRecipe e m r = Returns m' -> shown_only C m m'.
Proof.
  unfold ui.applyRecipe. destruct r as [r|].
  - destruct (recipeLoop C _ m r (m_issues C m)) as [k|msg]; cbn; [|discriminate].
    destruct k as [items issues].
    destruct (negb _); cbn; intros [= <-]; unfold keepSelectionInBounds;
      destruct (_ && _); destruct m; reflexivity.
  - intros [= <-]. apply shown_only_refl.
Qed.

(** ** A Phase-2 completion *)

Lemma phase2Prepare_fields (e : Engine) (m : Model C) :
  let stats := stats_at e (m_analysis C m) in
  let p := phase2Prepare C e m in
  (m_alerts C p, m_alertsCritical C p, m_alertsWarning C p, m_alertsInfo C p)
  = computeAlerts C (m_issues C m) stats (m_analyzer C m)
  /\ m_priorityHints C p
     = fold_left (fun mp r => <[pr_IssueID C r := r]> mp)
                 (GenerateRecommendations C (m_analyzer C m) stats) ∅
  /\ m_insightsPanel C p
     = insights_SetRecommendations C
         (insights_SetTopPicks C
            (insights_SetSize C
               (NewInsightsModel C (GenerateInsights C stats (length (m_issues C m)))
                                 (m_issueMap C m))
               (m_width C m) (bodyHeightOf C m))
            (triage_TopPicks C (ComputeTriage C (m_issues C m))))
         (triage_Recommendations C (ComputeTriage C (m_issues C m)))
         (triage_dataHash C (ComputeTriage C (m_issues C m)))
  /\ m_analysis C p = m_analysis C m
  /\ m_activeRecipe C p = m_activeRecipe C m.
Proof.
  cbv zeta. unfold phase2Prepare. cbv zeta.
  set (m1 := refreshInsights C e m).
  set (m2 := refreshTriage C m1).
  set (m3 := refreshPriorityHints C e m2).
  set (m4 := refreshAlerts C e m3).
  set (m5 := refreshLabelHealth C e m4).
  set (m6 := resortByMetric C e m5).
  assert (K6 : m_alerts C m6 = m_alerts C m5
               /\ m_alertsCritical C m6 = m_alertsCritical C m5
               /\ m_alertsWarning C m6 = m_alertsWarning C m5
               /\ m_alertsInfo C m6 = m_alertsInfo C m5
               /\ m_priorityHints C m6 = m_priorityHints C m5
               /\ m_insightsPanel C m6 = m_insightsPanel C m5
               /\ m_analysis C m6 = m_analysis C m5
               /\ m_activeRecipe C m6 = m_activeRecipe C m5)
    by (subst m6; repeat split; run_stage resortByMetric).
  assert (K5 : m_alerts C m5 = m_alerts C m4
               /\ m_alertsCritical C m5 = m_alertsCritical C m4
               /\ m_alertsWarning C m5 = m_alertsWarning C m4
               /\ m_alertsInfo C m5 = m_alertsInfo C m4
               /\ m_priorityHints C m5 = m_priorityHints C m4
               /\ m_insightsPanel C m5 = m_insightsPanel C m4
               /\ m_analysis C m5 = m_analysis C m4
               /\ m_activeRecipe C m5 = m_activeRecipe C m4)
    by (subst m5; repeat split; run_stage refreshLabelHealth).
  assert (K4 : m_priorityHints C m4 = m_priorityHints C m3
               /\ m_insightsPanel C m4 = m_insightsPanel C m3
               /\ m_analysis C m4 = m_analysis C m3
               /\ m_activeRecipe C m4 = m_activeRecipe C m3)
    by (subst m4; repeat split; run_stage refreshAlerts).
  assert (H4 : (m_alerts C m4, m_alertsCritical C m4, m_alertsWarning C m4,
                m_alertsInfo C m4)
               = computeAlerts C (m_issues C m3) (stats_at e (m_analysis C m3))
                               (m_analyzer C m3)).
  { subst m4. unfold refreshAlerts, setAlerts.
    destruct (computeAlerts C _ _ _) as [[[a c] w] i]. reflexivity. }
  destruct K6 as (-> & -> & -> & -> & -> & -> & -> & ->).
  destruct K5 as (-> & -> & -> & -> & -> & -> & -> & ->).
  destruct K4 as (-> & -> & -> & ->).
  rewrite H4. repeat split; reflexivity.
Qed.

Lemma phase2Refresh_shown_only (e : Engine) (m m1 : Model C) :
  phase2Refresh e m = Returns m1 -> shown_only C (phase2Prepare C e m) m1.
Proof.
  unfold ui.phase2Refresh. cbv zeta.
  destruct (m_activeRecipe C (phase2Prepare C e m)) as [r|].
  - apply applyRecipe_shown_only.
  - apply applyFilter_shown_only.
Qed.

(** C2. A [Phase2ReadyMsg] whose [Stats] is not the model's current
    analysis handle (a [nil] one included) leaves the engine and the
    model as they are and yields no command. With the current handle
    the refresh runs: whenever [Update] returns, the alerts, the
    priority hints and the insights panel are the ones recomputed from
    the current analysis. *)
Theorem Phase2ReadyMsg_checked (e : Engine) (m : Model C) (Stats : option handle) :
  (Stats <> Some (m_analysis C m) ->
   Update e m (Phase2ReadyMsg Stats) = Returns (e, m, []))
  /\ (Stats = Some (m_analysis C m) ->
      forall e' m' cmds,
        Update e m (Phase2ReadyMsg Stats) = Returns (e', m', cmds) ->
        let stats := stats_at e (m_analysis C m) in
        e' = e
        /\ (m_alerts C m', m_alertsCritical C m', m_alertsWarning C m',
            m_alertsInfo C m')
           = computeAlerts C (m_issues C m) stats (m_analyzer C m)
        /\ m_priorityHints C m'
           = fold_left (fun mp r => <[pr_IssueID C r := r]> mp)
                       (GenerateRecommendations C (m_analyzer C m) stats) ∅
        /\ m_insightsPanel C m'
           = insights_SetRecommendations C
               (insights_SetTopPicks C
                  (insights_SetSize C
                     (NewInsightsModel C
                        (GenerateInsights C stats (length (m_issues C m)))
                        (m_issueMap C m))
                     (m_width C m) (bodyHeightOf C m))
                  (triage_TopPicks C (ComputeTriage C (m_issues C m))))
               (triage_Recommendations C (ComputeTriage C (m_issues C m)))
               (triage_dataHash C (ComputeTriage C (m_issues C m)))
        /\ m_analysis C m' = m_analysis C m).
Proof.
  split.
  - intros Hne. unfold ui.Update.
    rewrite bool_decide_eq_false_2 by exact Hne. reflexivity.
  - intros -> e' m' cmds. unfold ui.Update.
    rewrite bool_decide_eq_true_2 by reflexivity. cbn [negb].
    destruct (phase2Refresh e m) as [m1|msg] eqn:E1; cbn; [|discriminate].
    apply phase2Refresh_shown_only in E1.
    destruct (phase2Prepare_fields e m) as (Ha & Hh & Hi & Hs & _).
    cbv zeta in Ha, Hh, Hi, Hs.
    assert (K : m_alerts C m1 = m_alerts C (phase2Prepare C e m)
                /\ m_alertsCritical C m1 = m_alertsCritical C (phase2Prepare C e m)
                /\ m_alertsWarning C m1 = m_alertsWarning C (phase2Prepare C e m)
                /\ m_alertsInfo C m1 = m_alertsInfo C (phase2Prepare C e m)
                /\ m_priorityHints C m1 = m_priorityHints C (phase2Prepare C e m)
                /\ m_insightsPanel C m1 = m_insightsPanel C (phase2Prepare C e m)
                /\ m_analysis C m1 = m_analysis C (phase2Prepare C e m))
      by (rewrite E1; repeat split; reflexivity).
    destruct K as (K1 & K2 & K3 & K4 & K5 & K6 & K7).
    rewrite <- K1, <- K2, <- K3, <- K4 in Ha.
    rewrite <- K5 in Hh. rewrite <- K6 in Hi. rewrite <- K7 in Hs.
    unfold updateTail.
    destruct (focus_eqb (m_focused C m1) focusList).
    + destruct (list_Update C (m_list C m1) _) as [l cmd].
      intros [= <- <- <-]. cbv zeta. auto.
    + intros [= <- <- <-]. cbv zeta. auto.
Qed.

(** ** A failed reload *)

Lemma reload_guard_frame (m : Model C) :
  let m0 := exitTimeTravelOnReload C (clearAttentionOverlay C m) in
  m_beadsPath C m0 = m_beadsPath C m
  /\ m_watcher C m0 = m_watcher C m
  /\ m_issues C m0 = m_issues C m
  /\ m_issueMap C m0 = m_issueMap C m
  /\ m_analyzer C m0 = m_analyzer C m
  /\ m_analysis C m0 = m_analysis C m
  /\ m_countOpen C m0 = m_countOpen C m
  /\ m_countReady C m0 = m_countReady C m
  /\ m_countBlocked C m0 = m_countBlocked C m
  /\ m_countClosed C m0 = m_countClosed C m
  /\ m_list C m0 = m_list C m.
Proof.
  cbv zeta. unfold exitTimeTravelOnReload, clearAttentionOverlay.
  repeat split; split_conds; reflexivity.
Qed.

(** C9, as the code has it. When the reload fails, [Update] first hides
    the attention overlay and leaves time-travel mode, then reports the
    error: the engine, the issue list, the issue map, the analyzer, the
    analysis handle, the counts and the list are those of the previous
    generation, and the watch is started again when the model has a
    watcher. With neither overlay active, only the status message and
    its error flag change. *)
Theorem reload_error_keeps_generation (e : Engine) (m : Model C) (err : string) :
  m_beadsPath C m <> "" ->
  LoadIssuesFromFile (m_beadsPath C m) = Err err ->
  let m0 := exitTimeTravelOnReload C (clearAttentionOverlay C m) in
  let m' := set_statusIsError C true
              (set_statusMsg C ("Reload error: " ++ err) m0) in
  Update e m FileChangedMsg
  = Returns (e, m', match m_watcher C m with
                    | Some w => [WatchFileCmd w]
                    | None => []
                    end)
  /\ (m_issues C m' = m_issues C m
      /\ m_issueMap C m' = m_issueMap C m
      /\ m_analyzer C m' = m_analyzer C m
      /\ m_analysis C m' = m_analysis C m
      /\ m_countOpen C m' = m_countOpen C m
      /\ m_countReady C m' = m_countReady C m
      /\ m_countBlocked C m' = m_countBlocked C m
      /\ m_countClosed C m' = m_countClosed C m
      /\ m_list C m' = m_list C m)
  /\ (m_timeTravelMode C m = false -> m_showAttentionView C m = false ->
      status_only C m m').
Proof.
  intros Hp Hl. cbv zeta.
  destruct (reload_guard_frame m)
    as (Fp & Fw & F1 & F2 & F3 & F4 & F5 & F6 & F7 & F8 & F9).
  cbv zeta in *.
  split; [|split].
  - unfold ui.Update, ui.fileChanged.
    apply String.eqb_neq in Hp. rewrite Hp. cbv zeta.
    rewrite Fp, Hl. unfold rearmWatch.
    change (m_watcher C (set_statusIsError C true (set_statusMsg C ("Reload error: " ++ err)
               (exitTimeTravelOnReload C (clearAttentionOverlay C m)))))
      with (m_watcher C (exitTimeTravelOnReload C (clearAttentionOverlay C m))).
    rewrite Fw. destruct (m_watcher C m); reflexivity.
  - repeat split; assumption.
  - intros Ht Ha. unfold status_only, exitTimeTravelOnReload, clearAttentionOverlay.
    rewrite Ha. rewrite Ht. destruct m. reflexivity.
Qed.

(** ** A reload *)




Lemma fileChanged_reload (e : Engine) (m : Model C) (issues : list Issue)
    (warnings : list string) :
  m_beadsPath C m <> "" ->
  LoadIssuesFromFile (m_beadsPath C m) = Ok (issues, warnings) ->
  Update e m FileChangedMsg
  = reload e (exitTimeTravelOnReload C (clearAttentionOverlay C m)) issues warnings.
Proof.
  intros Hp Hl. unfold ui.Update, ui.fileChanged.
  apply String.eqb_neq in Hp. rewrite Hp. cbv zeta.
  assert (Fp : m_beadsPath C (exitTimeTravelOnReload C (clearAttentionOverlay C m))
               = m_beadsPath C m).
  { unfold exitTimeTravelOnReload, clearAttentionOverlay. split_conds; reflexivity. }
  rewrite Fp, Hl. reflexivity.
Qed.



End WithEnvironment.

(** ** [nil] dependency entries *)

(** The dependency loop of [NewModel] passes over a [nil] entry: the
    answer is the one for the list without it. *)
Lemma blockedByOpenDependency_skips_nil (K : Components)
    (issueMap : gmap string Issue) (before after : list (option Dependency)) :
  blockedByOpenDependency K issueMap (before ++ None :: after)
  = blockedByOpenDependency K issueMap (before ++ after).
Proof.
  induction before as [|[dep|] before IH]; cbn [app blockedByOpenDependency];
    [reflexivity| |exact IH].
  rewrite IH. reflexivity.
Qed.

Lemma filterBlocked_nil_first (issueMap : gmap string Issue)
    (deps : list (option Dependency)) :
  filterBlocked issueMap (None :: deps) = Panics nil_dereference.
Proof. reflexivity. Qed.

(** [NewModel] over the issue with the [nil] entry: one issue open and
    ready, one closed. *)
Lemma NewModel_counts_nil_dependency :
  let m := snd (model_of nil_dep_issues) in
  (m_countOpen plain m, m_countReady plain m, m_countBlocked plain m,
   m_countClosed plain m) = (1, 1, 0, 1).
Proof. vm_compute. reflexivity. Qed.

(** C1 (the code departs from the claim). With the "ready" filter, an
    open issue whose first dependency entry is [nil] makes [applyFilter]
    panic: the entry is dereferenced, not skipped. *)
Theorem applyFilter_ready_nil_dependency_panics :
  ui.applyFilter plain no_viewport (fst (model_of nil_dep_issues))
              (ready_filter nil_dep_issues)
  = Panics nil_dereference.
Proof. vm_compute. reflexivity. Qed.

(** ** Sample runs *)

(** C9, as the claim has it, fails: a model in time-travel mode whose
    reload fails leaves time-travel mode, so more than the status fields
    change; and a model without a watcher gets no command at all. *)
Lemma reload_error_changes_more :
  (let e := fst (model_of chain_issues) in
   let m := time_travelling chain_issues in
   exists m' cmds,
     ui.Update plain no_viewport no_sprint_text load_fails no_sprints e m FileChangedMsg
     = Returns (e, m', cmds)
     /\ m_timeTravelMode plain m = true
     /\ m_timeTravelMode plain m' = false
     /\ ~ status_only plain m m')
  /\ (let r := NewModel plain no_sprints watcher_fails empty_engine chain_issues None
                        beads_path in
      exists m',
        ui.Update plain no_viewport no_sprint_text load_fails no_sprints
                  (fst r) (snd r) FileChangedMsg
        = Returns (fst r, m', [])).
Proof.
  split; cbv zeta.
  - eexists _, _. split; [vm_compute; reflexivity|].
    split; [reflexivity|]. split; [reflexivity|].
    intros H. apply (f_equal (m_timeTravelMode plain)) in H.
    vm_compute in H. discriminate.
  - eexists. vm_compute. reflexivity.
Qed.

Lemma reload_error_keeps_generation_witness :
  let e := fst (model_of chain_issues) in
  let m := snd (model_of chain_issues) in
  exists m',
    ui.Update plain no_viewport no_sprint_text load_fails no_sprints e m FileChangedMsg
    = Returns (e, m', [WatchFileCmd 1%positive])
    /\ status_only plain m m'.
Proof.
  cbv zeta.
  destruct (reload_error_keeps_generation plain no_viewport no_sprint_text
              load_fails no_sprints (fst (model_of chain_issues))
              (snd (model_of chain_issues)) "unexpected end of JSON input")
    as (HU & _ & HS).
  - vm_compute. discriminate.
  - reflexivity.
  - eexists. split; [exact HU|]. apply HS; reflexivity.
Defined.

Lemma Phase2ReadyMsg_checked_witness :
  let e := fst (model_of chain_issues) in
  let m := snd (model_of chain_issues) in
  ui.Update plain no_viewport no_sprint_text load_fails no_sprints e m
            (Phase2ReadyMsg (Some 7%positive))
  = Returns (e, m, [])
  /\ exists m' cmds,
       ui.Update plain no_viewport no_sprint_text load_fails no_sprints e m
                 (Phase2ReadyMsg (Some (m_analysis plain m)))
       = Returns (e, m', cmds)
       /\ m_analysis plain m' = m_analysis plain m.
Proof.
  cbv zeta. split.
  - apply (proj1 (Phase2ReadyMsg_checked plain no_viewport no_sprint_text
                    load_fails no_sprints _ _ (Some 7%positive))).
    vm_compute. discriminate.
  - eexists _, _.
    assert (HU : ui.Update plain no_viewport no_sprint_text load_fails no_sprints
                   (fst (model_of chain_issues)) (snd (model_of chain_issues))
                   (Phase2ReadyMsg (Some (m_analysis plain (snd (model_of chain_issues)))))
                 = Returns (fst (model_of chain_issues), _, _))
      by (vm_compute; reflexivity).
    split; [exact HU|].
    apply (proj2 (Phase2ReadyMsg_checked plain no_viewport no_sprint_text
                    load_fails no_sprints _ _ _) eq_refl _ _ _ HU).
Defined.


End uiFacts.

(* ===================================================================== *)
(** * More properties                                                     *)
(* ===================================================================== *)

Module Utf8More.
Import Utf8 Utf8Facts.

Lemma runes_of_truncateString (s : gostring) (maxLen : Z) :
  runes_of (truncateString s maxLen)
  = if maxLen <=? 0 then []
    else if Z.of_nat (length (runes_of s)) <=? maxLen then runes_of s
    else if maxLen <=? 3 then firstn (Z.to_nat maxLen) (runes_of s)
    else firstn (Z.to_nat (maxLen - 1)) (runes_of s) ++ [8230].
Proof.
  unfold truncateString.
  destruct (Z.leb_spec maxLen 0); [reflexivity|]. cbv zeta.
  destruct (Z.leb_spec (Z.of_nat (length (runes_of s))) maxLen); [reflexivity|].
  destruct (Z.leb_spec maxLen 3).
  - apply runes_of_string, Forall_firstn, runes_of_valid.
  - apply (runes_of_cut s ellipsis (Z.to_nat (maxLen - 1)) eq_refl).
Qed.

(** X1. A string of more than [maxLen] runes, for a positive [maxLen],
    is cut to exactly [maxLen] runes: the first [maxLen] runes when
    [maxLen <= 3], the first [maxLen - 1] runes and the ellipsis
    otherwise. *)
Theorem truncateString_fills_width (s : gostring) (maxLen : Z) :
  0 < maxLen < Z.of_nat (length (runes_of s)) ->
  Z.of_nat (length (runes_of (truncateString s maxLen))) = maxLen
  /\ (maxLen <= 3 ->
      runes_of (truncateString s maxLen) = firstn (Z.to_nat maxLen) (runes_of s))
  /\ (3 < maxLen ->
      runes_of (truncateString s maxLen)
      = firstn (Z.to_nat (maxLen - 1)) (runes_of s) ++ [8230]).
Proof.
  intros [Hp Hl]. rewrite runes_of_truncateString.
  destruct (Z.leb_spec maxLen 0); [lia|].
  destruct (Z.leb_spec (Z.of_nat (length (runes_of s))) maxLen); [lia|].
  destruct (Z.leb_spec maxLen 3).
  - rewrite length_firstn_le by lia. split; [lia|]. split; [auto|lia].
  - rewrite length_app, length_firstn_le by lia. cbn [length].
    split; [lia|]. split; [lia|auto].
Qed.

Lemma truncateString_fills_width_witness :
  Z.of_nat (length (runes_of (truncateString [x68; xc3; xa9; x6c; x6c; x6f; x21] 5))) = 5.
Proof.
  refine (proj1 (truncateString_fills_width [x68; xc3; xa9; x6c; x6c; x6f; x21] 5 _)).
  vm_compute. split; reflexivity.
Defined.

Lemma firstn_firstn_app_le {A} (j k : nat) (l e : list A) :
  (j <= k)%nat -> (k <= length l)%nat ->
  firstn j (firstn k l ++ e) = firstn j l.
Proof.
  intros Hjk Hk. rewrite firstn_app, length_firstn_le by exact Hk.
  replace (j - k)%nat with 0%nat by lia. cbn [firstn]. rewrite app_nil_r.
  rewrite firstn_firstn. f_equal. lia.
Qed.

(** X2. Cutting to [n] runes and then to [m <= n] runes is cutting to
    [m] runes at once; with [m = n], cutting twice changes nothing. *)
Theorem truncateString_twice (s : gostring) (n m : Z) :
  m <= n -> truncateString (truncateString s n) m = truncateString s m.
Proof.
  intros Hmn.
  destruct (Z.leb_spec m 0) as [Hm|Hm].
  { unfold truncateString at 1 3.
    destruct (Z.leb_spec m 0); [reflexivity|lia]. }
  destruct (Z.leb_spec (Z.of_nat (length (runes_of s))) n) as [Hs|Hs].
  { f_equal. unfold truncateString.
    destruct (Z.leb_spec n 0); [lia|]. cbv zeta.
    destruct (Z.leb_spec (Z.of_nat (length (runes_of s))) n); [reflexivity|lia]. }
  destruct (truncateString_fills_width s n ltac:(lia)) as (Hlen & H3 & H4).
  destruct (Z.eq_dec m n) as [->|Hne].
  { unfold truncateString at 1.
    destruct (Z.leb_spec n 0); [lia|]. cbv zeta. rewrite Hlen.
    destruct (Z.leb_spec n n); [reflexivity|lia]. }
  unfold truncateString at 1 3.
  destruct (Z.leb_spec m 0); [lia|]. cbv zeta. rewrite Hlen.
  destruct (Z.leb_spec n m); [lia|].
  destruct (Z.leb_spec (Z.of_nat (length (runes_of s))) m); [lia|].
  assert (Hcut : forall j : nat, (Z.of_nat j < n) ->
            firstn j (runes_of (truncateString s n)) = firstn j (runes_of s)).
  { intros j Hj. destruct (Z.leb_spec n 3).
    - rewrite H3 by lia. rewrite firstn_firstn. f_equal. lia.
    - rewrite H4 by lia. apply firstn_firstn_app_le; lia. }
  destruct (Z.leb_spec m 3); rewrite Hcut by lia; reflexivity.
Qed.

Lemma truncateString_twice_witness :
  truncateString (truncateString [x68; xc3; xa9; x6c; x6c; x6f; x21] 5) 4
  = truncateString [x68; xc3; xa9; x6c; x6c; x6f; x21] 4.
Proof.
  apply (truncateString_twice [x68; xc3; xa9; x6c; x6c; x6f; x21] 5 4). lia.
Defined.

End Utf8More.

Module orderFacts.
Import model analysis ui.

(** X6. The default order of [NewModel] and of the reload (open before
    closed, then by priority, then newest first) is a strict weak order,
    as [sort.Slice] asks of its [less]: irreflexive and transitive, and
    two issues tie exactly when they agree on being closed, on the
    priority and on the creation time, so that ties are transitive. *)
Theorem default_less_strict_weak_order :
  (forall a, default_less a a = false)
  /\ (forall a b c, default_less a b = true -> default_less b c = true ->
        default_less a c = true)
  /\ (forall a b, default_less a b = false /\ default_less b a = false <->
        String.eqb (IssueStatus a) StatusClosed = String.eqb (IssueStatus b) StatusClosed
        /\ Priority a = Priority b /\ CreatedAt a = CreatedAt b)
  /\ (forall a b c,
        default_less a b = false -> default_less b a = false ->
        default_less b c = false -> default_less c b = false ->
        default_less a c = false /\ default_less c a = false).
Proof.
  assert (T : forall a b, default_less a b = false /\ default_less b a = false <->
        String.eqb (IssueStatus a) StatusClosed = String.eqb (IssueStatus b) StatusClosed
        /\ Priority a = Priority b /\ CreatedAt a = CreatedAt b).
  { intros a b. unfold default_less. cbv zeta.
    destruct (String.eqb (IssueStatus a) StatusClosed),
             (String.eqb (IssueStatus b) StatusClosed); cbn [Bool.eqb negb];
      repeat match goal with
      | |- context [Z.eqb ?x ?y] => destruct (Z.eqb_spec x y)
      end; cbn [negb];
      repeat match goal with
      | |- context [Z.ltb ?x ?y] => destruct (Z.ltb_spec x y)
      end;
      (split; [intros [? ?] | intros (? & ? & ?)]);
      try discriminate; try lia; repeat split; auto; try lia. }
  split; [|split; [|split]].
  - intros a. unfold default_less. cbv zeta.
    rewrite Bool.eqb_reflx, Z.eqb_refl. cbn [negb]. apply Z.ltb_irrefl.
  - intros a b c. unfold default_less. cbv zeta.
    destruct (String.eqb (IssueStatus a) StatusClosed),
             (String.eqb (IssueStatus b) StatusClosed),
             (String.eqb (IssueStatus c) StatusClosed); cbn [Bool.eqb negb];
      try discriminate; auto;
      repeat match goal with
      | |- context [Z.eqb ?x ?y] => destruct (Z.eqb_spec x y)
      end; cbn [negb];
      repeat match goal with
      | |- context [Z.ltb ?x ?y] => destruct (Z.ltb_spec x y)
      end; intros; try discriminate; try reflexivity; lia.
  - exact T.
  - intros a b c H1 H2 H3 H4.
    apply T. destruct (proj1 (T a b) (conj H1 H2)) as (E1 & E2 & E3).
    destruct (proj1 (T b c) (conj H3 H4)) as (F1 & F2 & F3).
    repeat split; congruence.
Qed.

End orderFacts.

Module mapFacts.
Import model analysis ui.

(** The map after the loop, from any map it starts on: the last issue
    with the id, or what the map held. *)
Lemma fold_insert_app (front : list Issue) (i : Issue) (back : list Issue)
    (mp : gmap string Issue) :
  ~ In (ID i) (map ID back) ->
  fold_left (fun mp i => <[ID i := i]> mp) (front ++ i :: back) mp !! ID i = Some i.
Proof.
  intros Hb. rewrite fold_left_app. cbn [fold_left].
  generalize (fold_left (fun mp i => <[ID i := i]> mp) front mp). clear front mp.
  intros mp.
  assert (G : forall mp' : gmap string Issue, mp' !! ID i = Some i ->
            fold_left (fun mp i => <[ID i := i]> mp) back mp' !! ID i = Some i).
  { induction back as [|b back IH]; intros mp' H; cbn [fold_left]; [exact H|].
    apply IH.
    - intros Hin. apply Hb. right. exact Hin.
    - rewrite lookup_insert_ne; [exact H|]. intros E. apply Hb. left. exact E. }
  apply G. apply lookup_insert_eq.
Qed.

Lemma fold_insert_None (issues : list Issue) (mp : gmap string Issue) (id : string) :
  ~ In id (map ID issues) ->
  fold_left (fun mp i => <[ID i := i]> mp) issues mp !! id = mp !! id.
Proof.
  revert mp. induction issues as [|i issues IH]; intros mp Hn; cbn [fold_left];
    [reflexivity|].
  rewrite IH by (intros H; apply Hn; right; exact H).
  apply lookup_insert_ne. intros E. apply Hn. left. exact E.
Qed.

Lemma fold_insert_Some (issues : list Issue) (mp : gmap string Issue) (id : string)
    (i : Issue) :
  fold_left (fun mp i => <[ID i := i]> mp) issues mp !! id = Some i ->
  (In i issues /\ ID i = id) \/ mp !! id = Some i.
Proof.
  revert mp. induction issues as [|j issues IH]; intros mp H; cbn [fold_left] in H;
    [right; exact H|].
  destruct (IH _ H) as [[Hin Hid]|Hm].
  - left. split; [right; exact Hin|exact Hid].
  - destruct (decide (ID j = id)) as [E|E].
    + rewrite <- E, lookup_insert_eq in Hm. injection Hm as <-.
      left. split; [left; reflexivity|exact E].
    + rewrite lookup_insert_ne in Hm by exact E. right. exact Hm.
Qed.

(** The last issue with a given id. *)
Lemma last_with_id (issues : list Issue) (id : string) :
  In id (map ID issues) ->
  exists front j back, issues = (front ++ j :: back)%list /\ ID j = id
                       /\ ~ In id (map ID back).
Proof.
  induction issues as [|a l IH]; intros Hin; [destruct Hin|].
  destruct (in_dec String.string_dec id (map ID l)) as [Hl|Hl].
  - destruct (IH Hl) as (front & j & back & E & Hj & Hb).
    exists (a :: front), j, back. rewrite E. auto.
  - destruct Hin as [E|Hin]; [|contradiction].
    exists [], a, l. auto.
Qed.

Lemma buildIssueMap_member (issues : list Issue) (id : string) (i : Issue) :
  buildIssueMap issues !! id = Some i -> In i issues /\ ID i = id.
Proof.
  intros H. destruct (fold_insert_Some _ _ _ _ H) as [K|K]; [exact K|].
  rewrite lookup_empty in K. discriminate.
Qed.

Lemma buildIssueMap_last (front : list Issue) (i : Issue) (back : list Issue) :
  ~ In (ID i) (map ID back) -> buildIssueMap (front ++ i :: back) !! ID i = Some i.
Proof. apply fold_insert_app. Qed.

Lemma buildIssueMap_absent (issues : list Issue) (id : string) :
  buildIssueMap issues !! id = None <-> ~ In id (map ID issues).
Proof.
  split.
  - intros Hn Hin. destruct (last_with_id _ _ Hin) as (front & j & back & -> & <- & Hb).
    rewrite (buildIssueMap_last _ _ _ Hb) in Hn. discriminate.
  - intros Hn. unfold buildIssueMap. rewrite fold_insert_None by exact Hn.
    apply lookup_empty.
Qed.

Lemma buildIssueMap_unique (issues : list Issue) (i : Issue) :
  List.NoDup (map ID issues) -> In i issues -> buildIssueMap issues !! ID i = Some i.
Proof.
  intros Hnd Hin. apply in_split in Hin. destruct Hin as (front & back & ->).
  apply buildIssueMap_last.
  rewrite map_app in Hnd. cbn [map] in Hnd.
  apply NoDup_remove_2 in Hnd. intros Hb. apply Hnd.
  apply in_or_app. right. exact Hb.
Qed.

(** X7. The lookup map built from the issues: an id is absent exactly
    when no issue has it; a hit is an issue of the list with that id;
    among issues with the same id the last one is kept; and with
    distinct ids every issue is found under its id. *)
Theorem buildIssueMap_lookup (issues : list Issue) :
  (forall id, buildIssueMap issues !! id = None <-> ~ In id (map ID issues))
  /\ (forall id i, buildIssueMap issues !! id = Some i -> In i issues /\ ID i = id)
  /\ (forall front i back, issues = (front ++ i :: back)%list ->
        ~ In (ID i) (map ID back) -> buildIssueMap issues !! ID i = Some i)
  /\ (List.NoDup (map ID issues) ->
      forall i, In i issues -> buildIssueMap issues !! ID i = Some i).
Proof.
  split; [apply buildIssueMap_absent|].
  split; [apply buildIssueMap_member|].
  split.
  - intros front i back -> Hb. apply buildIssueMap_last. exact Hb.
  - intros Hnd i Hin. apply buildIssueMap_unique; assumption.
Qed.

End mapFacts.

Module countFacts.
Import model analysis ui model_counts.

Section Counts.

Variable C : Components.

Lemma countIssue_step (mp : gmap string Issue) (acc : Z * Z * Z * Z) (i : Issue) :
  let '(o, r, b, c) := acc in
  let '(o', r', b', c') := countIssue C mp acc i in
  (if isClosed i then o' = o /\ c' = c + 1 /\ r' = r /\ b' = b
   else o' = o + 1 /\ c' = c /\
        (if String.eqb (IssueStatus i) StatusBlocked then r' = r /\ b' = b + 1
         else b' = b /\ r' = r + (if blockedByOpenDependency C mp (Dependencies i)
                                  then 0 else 1))).
Proof.
  destruct acc as [[[o r] b] c]. unfold countIssue, isClosed.
  destruct (String.eqb (IssueStatus i) StatusClosed); [repeat split|].
  destruct (String.eqb (IssueStatus i) StatusBlocked); [repeat split|].
  destruct (blockedByOpenDependency C mp (Dependencies i)); repeat split; lia.
Qed.

Lemma fold_countIssue (mp : gmap string Issue) (issues : list Issue)
    (acc : Z * Z * Z * Z) :
  let '(o, r, b, c) := acc in
  let '(o', r', b', c') := fold_left (countIssue C mp) issues acc in
  o' = o + Z.of_nat (length (List.filter (fun i => negb (isClosed i)) issues))
  /\ c' = c + Z.of_nat (length (List.filter isClosed issues))
  /\ b' = b + Z.of_nat (length (List.filter
             (fun i => negb (isClosed i) && String.eqb (IssueStatus i) StatusBlocked)
             issues))
  /\ r' = r + Z.of_nat (length (List.filter
             (fun i => negb (isClosed i)
                       && negb (String.eqb (IssueStatus i) StatusBlocked)
                       && negb (blockedByOpenDependency C mp (Dependencies i)))
             issues)).
Proof.
  revert acc. induction issues as [|i issues IH]; intros [[[o r] b] c].
  - cbn. repeat split; lia.
  - cbn [fold_left]. pose proof (countIssue_step mp (o, r, b, c) i) as S.
    cbv beta iota in S.
    destruct (countIssue C mp (o, r, b, c) i) as [[[o1 r1] b1] c1].
    specialize (IH (o1, r1, b1, c1)). cbv beta iota in IH.
    destruct (fold_left (countIssue C mp) issues (o1, r1, b1, c1)) as [[[o' r'] b'] c'].
    destruct IH as (Io & Ic & Ib & Ir).
    cbn [List.filter].
    destruct (isClosed i); cbn [negb andb].
    + destruct S as (-> & -> & -> & ->). repeat split; cbn [length]; lia.
    + destruct S as (-> & -> & S).
      destruct (String.eqb (IssueStatus i) StatusBlocked); cbn [negb andb].
      * destruct S as (-> & ->). repeat split; cbn [length]; lia.
      * destruct S as (-> & ->).
        destruct (blockedByOpenDependency C mp (Dependencies i)); cbn [negb];
          repeat split; cbn [length]; lia.
Qed.

Lemma length_filter_le {A} (p : A -> bool) (l : list A) :
  (length (List.filter p l) <= length l)%nat.
Proof. induction l as [|a l IH]; cbn; [lia|]. destruct (p a); cbn; lia. Qed.

Lemma length_filter_split {A} (p : A -> bool) (l : list A) :
  (length (List.filter p l) + length (List.filter (fun a => negb (p a)) l)
   = length l)%nat.
Proof. induction l as [|a l IH]; cbn; [lia|]. destruct (p a); cbn; lia. Qed.

Lemma length_filter_disjoint {A} (p q r : A -> bool) (l : list A) :
  (forall a, p a = true -> r a = true) -> (forall a, q a = true -> r a = true) ->
  (forall a, p a = true -> q a = true -> False) ->
  (length (List.filter p l) + length (List.filter q l)
   <= length (List.filter r l))%nat.
Proof.
  intros Hp Hq Hd. induction l as [|a l IH]; cbn; [lia|].
  specialize (Hp a). specialize (Hq a). specialize (Hd a).
  destruct (p a), (q a), (r a); cbn; try lia;
    try (exfalso; auto; fail); try (specialize (Hp eq_refl); discriminate);
    try (specialize (Hq eq_refl); discriminate).
Qed.

(** X8. The counts of the status bar: open and closed add up to the
    number of issues, closed is the number of closed issues, and ready
    and blocked are non-negative and together at most the open ones. *)
Theorem computeStats_totals (mp : gmap string Issue) (issues : list Issue) :
  let '(cOpen, cReady, cBlocked, cClosed) := computeStats C mp issues in
  cOpen + cClosed = Z.of_nat (length issues)
  /\ cClosed = Z.of_nat (length (List.filter isClosed issues))
  /\ 0 <= cReady /\ 0 <= cBlocked
  /\ cReady + cBlocked <= cOpen.
Proof.
  unfold computeStats.
  pose proof (fold_countIssue mp issues (0, 0, 0, 0)) as F. cbv beta iota in F.
  destruct (fold_left (countIssue C mp) issues (0, 0, 0, 0)) as [[[o r] b] c].
  destruct F as (-> & -> & -> & ->).
  pose proof (length_filter_split isClosed issues) as S.
  split; [lia|]. split; [lia|]. split; [lia|]. split; [lia|].
  match goal with
  | |- 0 + Z.of_nat (length (List.filter ?p _)) + (0 + Z.of_nat (length (List.filter ?q _)))
       <= 0 + Z.of_nat (length (List.filter ?r _)) =>
    pose proof (length_filter_disjoint q p r issues) as D
  end.
  cbv beta in D.
  assert (D' := D ltac:(intros a; destruct (isClosed a); cbn; [discriminate|reflexivity])
                  ltac:(intros a; destruct (isClosed a); cbn; [discriminate|reflexivity])
                  ltac:(intros a; destruct (isClosed a), (String.eqb (IssueStatus a) StatusBlocked);
                        cbn; discriminate)).
  lia.
Qed.

Lemma blockedByOpenDependency_filter (mp : gmap string Issue)
    (deps : list (option Dependency)) :
  blockedByOpenDependency C mp
    (List.filter (fun d => match d with Some _ => true | None => false end) deps)
  = blockedByOpenDependency C mp deps.
Proof.
  induction deps as [|[dep|] deps IH]; cbn [List.filter blockedByOpenDependency];
    [reflexivity| |exact IH].
  rewrite IH. reflexivity.
Qed.

Lemma computeStats_withoutNil (mp : gmap string Issue) (issues : list Issue) :
  computeStats C mp (map withoutNil issues) = computeStats C mp issues.
Proof.
  unfold computeStats. generalize (0, 0, 0, 0).
  induction issues as [|i issues IH]; intros acc; [reflexivity|].
  cbn [map fold_left]. rewrite <- IH. f_equal.
  destruct acc as [[[o r] b] c]. unfold countIssue, withoutNil.
  cbn [IssueStatus Dependencies]. rewrite blockedByOpenDependency_filter.
  reflexivity.
Qed.

Lemma buildIssueMap_withoutNil (issues : list Issue) :
  buildIssueMap (map withoutNil issues) = withoutNil <$> buildIssueMap issues.
Proof.
  unfold buildIssueMap.
  assert (G : forall mp : gmap string Issue,
            fold_left (fun mp i => <[ID i := i]> mp) (map withoutNil issues)
                      (withoutNil <$> mp)
            = withoutNil <$> fold_left (fun mp i => <[ID i := i]> mp) issues mp).
  { induction issues as [|i issues IH]; intros mp; [reflexivity|].
    cbn [map fold_left]. rewrite <- IH. f_equal.
    rewrite fmap_insert. reflexivity. }
  rewrite <- G, fmap_empty. reflexivity.
Qed.

Lemma blockedByOpenDependency_withoutNil (mp : gmap string Issue)
    (deps : list (option Dependency)) :
  blockedByOpenDependency C (withoutNil <$> mp) deps
  = blockedByOpenDependency C mp deps.
Proof.
  induction deps as [|[dep|] deps IH]; cbn [blockedByOpenDependency];
    [reflexivity| |exact IH].
  rewrite IH, lookup_fmap.
  destruct (mp !! DependsOnID dep) as [blocker|]; reflexivity.
Qed.

Lemma computeStats_map_withoutNil (mp : gmap string Issue) (issues : list Issue) :
  computeStats C (withoutNil <$> mp) issues = computeStats C mp issues.
Proof.
  unfold computeStats. generalize (0, 0, 0, 0).
  induction issues as [|i issues IH]; intros acc; [reflexivity|].
  cbn [fold_left]. rewrite IH. f_equal.
  destruct acc as [[[o r] b] c]. unfold countIssue.
  rewrite blockedByOpenDependency_withoutNil. reflexivity.
Qed.

(** X9. The counting loop passes over [nil] dependency entries: the
    counts of a list of issues, with the lookup map built from it, are
    those of the same issues without their [nil] entries. *)
Theorem computeStats_skips_nil (issues : list Issue) :
  computeStats C (buildIssueMap (map withoutNil issues)) (map withoutNil issues)
  = computeStats C (buildIssueMap issues) issues
  /\ forall mp, computeStats C mp (map withoutNil issues) = computeStats C mp issues.
Proof.
  split; [|intros mp; apply computeStats_withoutNil].
  rewrite buildIssueMap_withoutNil, computeStats_map_withoutNil.
  apply computeStats_withoutNil.
Qed.

End Counts.

End countFacts.

Module driftMore.
Import drift.

Lemma ltb_nan_l (x : float) : PrimFloat.ltb nan x = false.
Proof.
  rewrite FloatAxioms.ltb_spec. reflexivity.
Qed.

Lemma ltb_nan_r (x : float) : PrimFloat.ltb x nan = false.
Proof.
  rewrite FloatAxioms.ltb_spec. 
  destruct (Prim2SF x) as [| | |]; reflexivity.
Qed.

Lemma outside_nan (lo hi : float) : outside nan lo hi = false.
Proof. unfold outside. rewrite ltb_nan_l, ltb_nan_r. reflexivity. Qed.

End driftMore.
Module driftSaveFacts.
Import drift drift_save driftMore.

(** X4. [Validate] only rejects a threshold that compares below or
    above its bounds, and NaN compares neither way: a valid
    configuration stays valid when any of its [float64] thresholds are
    replaced by NaN. *)
Theorem Validate_accepts_NaN (c : Config) (n1 n2 n3 n4 n5 n6 n7 : bool) :
  Validate c = None -> Validate (withNaN n1 n2 n3 n4 n5 n6 n7 c) = None.
Proof.
  unfold Validate, withNaN.
  cbn [DensityWarningPct DensityInfoPct NodeGrowthInfoPct EdgeGrowthInfoPct
       BlockedIncreaseThreshold ActionableDecreaseWarningPct
       ActionableIncreaseInfoPct PageRankChangeWarningPct].
  destruct (outside (DensityWarningPct c) 0 1000) eqn:E1; [discriminate|].
  destruct (outside (DensityInfoPct c) 0 (DensityWarningPct c)) eqn:E2; [discriminate|].
  destruct (outside (NodeGrowthInfoPct c) 0 1000) eqn:E3; [discriminate|].
  destruct (outside (EdgeGrowthInfoPct c) 0 1000) eqn:E4; [discriminate|].
  destruct (Z.ltb (BlockedIncreaseThreshold c) 0) eqn:E5; [discriminate|].
  destruct (outside (ActionableDecreaseWarningPct c) 0 100) eqn:E6; [discriminate|].
  destruct (outside (ActionableIncreaseInfoPct c) 0 1000) eqn:E7; [discriminate|].
  destruct (outside (PageRankChangeWarningPct c) 0 1000) eqn:E8; [discriminate|].
  intros _.
  assert (K : outside (if n2 then nan else DensityInfoPct c) 0
                      (if n1 then nan else DensityWarningPct c) = false).
  { destruct n2; [apply outside_nan|]. destruct n1; [|exact E2].
    unfold outside in *. rewrite ltb_nan_l.
    apply Bool.orb_false_iff in E2. destruct E2 as [-> _]. reflexivity. }
  rewrite K.
  destruct n1, n3, n4, n5, n6, n7;
    rewrite ?outside_nan, ?E1, ?E3, ?E4, ?E6, ?E7, ?E8; reflexivity.
Qed.

Lemma Validate_accepts_NaN_witness :
  Validate (withNaN true true true true true true true DefaultConfig) = None.
Proof.
  apply (Validate_accepts_NaN DefaultConfig). reflexivity.
Defined.

Section Saving.

Variable World : Type.
Variable os_MkdirAll : string -> World -> World * option string.
Variable os_WriteFile : string -> list byte -> World -> World * option string.
Variable os_ReadFile : World -> string -> ReadFile_result.
Variable filepath_Join : list string -> string.
Variable filepath_Dir : string -> string.
Variable yaml_Marshal : Config -> result (list byte).
Variable yaml_Unmarshal : list byte -> Config -> result Config.

Local Abbreviation SaveConfig :=
  (SaveConfig World os_MkdirAll os_WriteFile filepath_Join filepath_Dir yaml_Marshal).


Theorem SaveConfig_validates_first (projectDir : string) (config : Config)
    (w : World) (msg : string) :
  Validate config = Some msg ->
  SaveConfig projectDir config w = (w, Some ("invalid config: " ++ msg)%string).
Proof. intros H. unfold drift_save.SaveConfig. rewrite H. reflexivity. Qed.


End Saving.


End driftSaveFacts.

Module exportFacts.
Import Utf8 Utf8Facts model_export.

Lemma keeps_ascii (r : rune) : keeps r = true -> 0 <= r < 128.
Proof.
  unfold keeps.
  repeat match goal with
  | |- context [Z.leb ?a ?b] => destruct (Z.leb_spec a b)
  | |- context [Z.eqb ?a ?b] => destruct (Z.eqb_spec a b)
  end; cbn; intros; try discriminate; lia.
Qed.

Lemma keeps_sanitize (r : rune) : keeps (sanitize r) = true.
Proof. unfold sanitize. destruct (keeps r) eqn:E; [exact E|reflexivity]. Qed.

Lemma encode_ascii (r : rune) :
  0 <= r < 128 -> encode_rune r = [byte_of r] /\ byte_val (byte_of r) = r.
Proof.
  intros Hr. unfold encode_rune.
  assert (Hv : valid_rune r = true) by (apply valid_rune_iff; lia).
  rewrite Hv. destruct (Z.ltb_spec r 128); [|lia].
  split; [reflexivity|]. apply byte_val_of. lia.
Qed.

Lemma strings_Map_sanitize (s : gostring) :
  strings_Map sanitize s = map (fun r => byte_of (sanitize r)) (runes_of s).
Proof.
  unfold strings_Map. induction (runes_of s) as [|r rs IH]; [reflexivity|].
  cbn [flat_map map]. pose proof (keeps_ascii _ (keeps_sanitize r)) as Hr.
  cbv zeta. destruct (Z.ltb_spec (sanitize r) 0); [lia|].
  cbn [app string_of_runes flat_map] in *.
  rewrite (proj1 (encode_ascii _ Hr)). cbn [app]. f_equal. exact IH.
Qed.

Lemma runes_of_ascii (s : gostring) :
  Forall (fun b => byte_val b < 128) s -> runes_of s = map byte_val s.
Proof.
  induction 1 as [|b s Hb _ IH]; [reflexivity|].
  cbn [runes_of map]. destruct (Z.ltb_spec (byte_val b) 128); [|lia].
  f_equal. exact IH.
Qed.

Lemma byte_of_val (b : byte) : byte_of (byte_val b) = b.
Proof.
  unfold byte_of, byte_val. pose proof (byte_val_range b) as Hb.
  unfold byte_val in Hb. rewrite Z.mod_small by lia.
  rewrite N2Z.id. rewrite Byte.of_to_N. reflexivity.
Qed.

(** X3. The export file name is [beads_report_<project>_<date>.md]
    where the project part holds only [a-z], [A-Z], [0-9], ['-'] and
    ['_']: with a date of such bytes the whole name holds these and
    ['.'] only (no path separator). The project part has one byte for
    each rune of the directory's base name, and is that name when it is
    clean already. *)
Theorem generateExportFilename_safe (os_Getwd : result gostring)
    (filepath_Base : gostring -> gostring) (timestamp : gostring) :
  Forall safe timestamp ->
  exists projectName,
    generateExportFilename os_Getwd filepath_Base timestamp
    = (String.list_byte_of_string "beads_report_"%string ++ projectName
       ++ String.list_byte_of_string "_"%string ++ timestamp
       ++ String.list_byte_of_string ".md"%string)%list
    /\ Forall safe projectName
    /\ Forall (fun b => safe b \/ b = x2e)
              (generateExportFilename os_Getwd filepath_Base timestamp)
    /\ (forall cwd, os_Getwd = Ok cwd ->
          length projectName = length (runes_of (filepath_Base cwd))
          /\ (Forall safe (filepath_Base cwd) -> projectName = filepath_Base cwd)).
Proof.
  intros Hts.
  set (projectName := match os_Getwd with
                      | Ok cwd => strings_Map sanitize (filepath_Base cwd)
                      | Err _ => String.list_byte_of_string "beads"%string
                      end).
  assert (Hp : Forall safe projectName).
  { subst projectName. destruct os_Getwd as [cwd|msg].
    - rewrite strings_Map_sanitize. apply Forall_map.
      apply Forall_forall. intros r _. unfold safe.
      pose proof (keeps_sanitize r) as K.
      rewrite (proj2 (encode_ascii _ (keeps_ascii _ K))). exact K.
    - repeat constructor. }
  exists projectName. split; [reflexivity|]. split; [exact Hp|]. split.
  - unfold generateExportFilename. fold projectName.
    repeat apply Forall_app_2;
      try (eapply List.Forall_impl; [|eassumption]; intros b Hb; left; exact Hb).
    + repeat constructor; left; reflexivity.
    + repeat constructor; left; reflexivity.
    + constructor; [right; reflexivity|]. repeat constructor; left; reflexivity.
  - intros cwd ->. subst projectName. rewrite strings_Map_sanitize.
    split; [apply length_map|].
    intros Hs. rewrite runes_of_ascii.
    + rewrite map_map. rewrite <- (map_id (filepath_Base cwd)) at 2.
      apply map_ext_Forall. eapply List.Forall_impl; [|exact Hs].
      intros b Hb. unfold safe in Hb. unfold sanitize. rewrite Hb.
      apply byte_of_val.
    + eapply List.Forall_impl; [|exact Hs]. intros b Hb.
      apply keeps_ascii in Hb. lia.
Qed.

Lemma generateExportFilename_safe_witness :
  Forall (fun b => safe b \/ b = x2e)
         (String.list_byte_of_string "beads_report_my_project_2024-03-09.md"%string).
Proof.
  destruct (generateExportFilename_safe
              (Ok (String.list_byte_of_string "/home/me/my project"%string))
              (base_name []) (String.list_byte_of_string "2024-03-09"%string))
    as (name & _ & _ & H & _).
  - repeat constructor.
  - exact H.
Defined.

End exportFacts.

Module keysFacts.
Import model analysis ui model_keys.

Lemma int_wrap_small (z : Z) :
  -9223372036854775808 <= z < 9223372036854775808 -> int_wrap z = z.
Proof. intros H. unfold int_wrap. rewrite Z.mod_small by lia. lia. Qed.

(** X22. The scroll offset of the help overlay never becomes negative
    and grows by at most ten a key (or to 999); a key either leaves the
    overlay open with the focus as it is, or closes it with the offset
    at 0 and the focus on the list. *)
Theorem handleHelpKeys_scroll (key : string) (m : HelpOverlay) :
  0 <= helpScroll m < 9223372036854775798 ->
  let m' := handleHelpKeys key m in
  0 <= helpScroll m' <= Z.max (helpScroll m + 10) 999
  /\ ((showHelp m' = showHelp m /\ focused m' = focused m)
      \/ (showHelp m' = false /\ helpScroll m' = 0 /\ focused m' = focusList)).
Proof.
  intros H. cbv zeta. unfold handleHelpKeys.
  repeat match goal with
  | |- context [if key_in ?k ?l then _ else _] => destruct (key_in k l)
  end; cbv zeta;
  repeat match goal with
  | |- context [Z.ltb ?a ?b] => destruct (Z.ltb_spec a b)
  end; cbn [helpScroll showHelp focused];
  rewrite ?int_wrap_small in * by lia; split; auto; lia.
Qed.

Lemma handleHelpKeys_scroll_witness :
  0 <= helpScroll (handleHelpKeys "ctrl+u" (mkHelpOverlay 4 true focusHelp)) <= 999.
Proof.
  refine (proj1 (handleHelpKeys_scroll "ctrl+u" (mkHelpOverlay 4 true focusHelp) _)).
  cbn. lia.
Defined.

End keysFacts.

Module renderFacts.
Import model_keys model_render.

(** X25. The help overlay never slices or repeats out of range: for a
    text of at least one line, whatever the scroll offset (negative, or
    the 999 of [G]), the offset is clamped into the text, the lines
    shown are [lines[startLine:endLine]] with
    [0 <= startLine <= endLine <= totalLines], they are as many as fit
    (the available height, or the whole text when it is shorter), and
    both parts of the scroll bar have a width between 0 and 10. *)
Theorem helpWindow_in_range (height helpScroll totalLines : Z) :
  0 < totalLines < 2147483648 ->
  -4611686018427387904 < height < 4611686018427387904 ->
  let w := helpWindow height helpScroll totalLines in
  0 <= startLine w <= endLine w /\ endLine w <= totalLines
  /\ startLine w = window_helpScroll w
  /\ 5 <= availableHeight w
  /\ endLine w - startLine w = Z.min (availableHeight w) totalLines
  /\ (0 <= helpScroll <= totalLines - availableHeight w ->
      window_helpScroll w = helpScroll)
  /\ (forall filled rest, scrollBar w = Some (filled, rest) ->
        0 <= filled <= 10 /\ 0 <= rest <= 10 /\ filled + rest = 10).
Proof.
  intros Ht Hh. cbv zeta. unfold helpWindow. cbv zeta.
  cbn [startLine endLine window_helpScroll availableHeight scrollBar].
  rewrite (keysFacts.int_wrap_small (height - 8)) by lia.
  set (avail := if Z.ltb (height - 8) 5 then 5 else height - 8).
  assert (Ha : 5 <= avail < 4611686018427387904)
    by (subst avail; destruct (Z.ltb_spec (height - 8) 5); lia).
  clearbody avail.
  rewrite (keysFacts.int_wrap_small (totalLines - avail)) by lia.
  set (maxScroll := if Z.ltb (totalLines - avail) 0 then 0 else totalLines - avail).
  assert (Hm : 0 <= maxScroll /\ maxScroll = Z.max (totalLines - avail) 0)
    by (subst maxScroll; destruct (Z.ltb_spec (totalLines - avail) 0); lia).
  clearbody maxScroll.
  set (hs1 := if Z.ltb maxScroll helpScroll then maxScroll else helpScroll).
  set (hs := if Z.ltb hs1 0 then 0 else hs1).
  assert (Hs : 0 <= hs <= maxScroll
               /\ (0 <= helpScroll <= maxScroll -> hs = helpScroll)).
  { subst hs hs1. destruct (Z.ltb_spec maxScroll helpScroll);
      match goal with |- context [Z.ltb ?a 0] => destruct (Z.ltb_spec a 0) end; lia. }
  clearbody hs. clear hs1.
  rewrite (keysFacts.int_wrap_small (hs + avail)) by lia.
  set (e := if Z.ltb totalLines (hs + avail) then totalLines else hs + avail).
  assert (He : e = Z.min (hs + avail) totalLines)
    by (subst e; destruct (Z.ltb_spec totalLines (hs + avail)); lia).
  clearbody e.
  split; [lia|]. split; [lia|]. split; [reflexivity|]. split; [lia|].
  split; [lia|]. split; [intros Hin; apply Hs; lia|].
  intros filled rest.
  destruct (Z.ltb_spec avail totalLines) as [Hlt|]; [|discriminate].
  rewrite (keysFacts.int_wrap_small (hs * 100)) by lia.
  set (pct := if Z.ltb 0 maxScroll then Z.quot (hs * 100) maxScroll else 0).
  assert (Hp : 0 <= pct <= 100).
  { subst pct. destruct (Z.ltb_spec 0 maxScroll); [|lia].
    rewrite Z.quot_div_nonneg by lia. split.
    - apply Z.div_pos; lia.
    - apply Z.div_le_upper_bound; lia. }
  clearbody pct.
  rewrite (keysFacts.int_wrap_small (10 * pct)) by lia.
  rewrite Z.quot_div_nonneg by lia.
  assert (Hf : 0 <= 10 * pct / 100 <= 10).
  { split; [apply Z.div_pos; lia|]. apply Z.div_le_upper_bound; lia. }
  set (f := if Z.ltb 10 (10 * pct / 100) then 10 else 10 * pct / 100).
  assert (Hff : 0 <= f <= 10)
    by (subst f; destruct (Z.ltb_spec 10 (10 * pct / 100)); lia).
  clearbody f.
  rewrite (keysFacts.int_wrap_small (10 - f)) by lia.
  intros [= <- <-]. lia.
Qed.

Lemma helpWindow_in_range_witness :
  endLine (helpWindow 30 999 60) - startLine (helpWindow 30 999 60) = 22.
Proof.
  destruct (helpWindow_in_range 30 999 60) as (_ & _ & _ & _ & H & _).
  - lia.
  - lia.
  - exact H.
Defined.

End renderFacts.

Module viewFacts.
Import model analysis ui samples model_keys ui_views model_shows model_counts samples_views.
Import analysisFacts uiFacts.

Section WithEnvironment.

Variable C : Components.
Variable render_viewport : GraphStats -> Model C -> Viewport C.
Variable renderSprintDashboard : Model C -> string.
Variable LoadIssuesFromFile : string -> result (list Issue * list string).
Variable LoadSprintsFromFile : string -> result (list (Sprint C)).
Variable StartWatcher : string -> result Watcher.

Local Abbreviation applyFilter := (applyFilter C render_viewport).
Local Abbreviation applyRecipe := (applyRecipe C render_viewport).
Local Abbreviation SetFilter := (SetFilter C render_viewport).
Local Abbreviation Update :=
  (Update C render_viewport renderSprintDashboard LoadIssuesFromFile
          LoadSprintsFromFile).
Local Abbreviation NewModel := (NewModel C LoadSprintsFromFile StartWatcher).

(** ** Filters *)

Lemma filterLoop_aligned (stats : GraphStats) (m : Model C) (issues : list Issue)
    (items : list IssueItem) (kept : list Issue) :
  filterLoop C stats m issues = Returns (items, kept) ->
  map item_Issue items = kept /\ sublist kept issues
  /\ items = map (filterItem C stats m) kept.
Proof.
  revert items kept. induction issues as [|i issues IH]; intros items kept.
  - cbn. intros [= <- <-]. repeat split; constructor.
  - cbn [filterLoop]. destruct (repoHidden C m i).
    + intros H. destruct (IH _ _ H) as (H1 & H2 & H3).
      repeat split; auto. apply sublist_cons. exact H2.
    + destruct (includeByFilter C m i) as [inc|msg]; cbn; [|discriminate].
      destruct (filterLoop C stats m issues) as [[items0 kept0]|msg]; cbn;
        [|discriminate].
      destruct (IH _ _ eq_refl) as (H1 & H2 & H3).
      destruct inc; intros [= <- <-]; cbn [fst snd map].
      * repeat split; [f_equal; exact H1|apply sublist_skip; exact H2|
                       f_equal; exact H3].
      * repeat split; auto. apply sublist_cons. exact H2.
Qed.

Lemma includeByFilter_plain (m : Model C) (i : Issue) :
  m_currentFilter C m <> "ready"%string ->
  includeByFilter C m i = Returns (plainFilter (m_currentFilter C m) i).
Proof.
  intros Hf. unfold includeByFilter, plainFilter. cbv zeta.
  destruct (String.eqb (m_currentFilter C m) "all"); [reflexivity|].
  destruct (String.eqb (m_currentFilter C m) "open"); [reflexivity|].
  destruct (String.eqb (m_currentFilter C m) "closed"); [reflexivity|].
  apply String.eqb_neq in Hf. rewrite Hf.
  destruct (HasPrefix _ _); reflexivity.
Qed.

Lemma filterLoop_plain (stats : GraphStats) (m : Model C) (issues : list Issue) :
  m_currentFilter C m <> "ready"%string ->
  filterLoop C stats m issues
  = Returns (map (filterItem C stats m)
               (List.filter (fun i => negb (repoHidden C m i)
                                      && plainFilter (m_currentFilter C m) i) issues),
             List.filter (fun i => negb (repoHidden C m i)
                                   && plainFilter (m_currentFilter C m) i) issues).
Proof.
  intros Hf. induction issues as [|i issues IH]; [reflexivity|].
  cbn [filterLoop List.filter]. destruct (repoHidden C m i); cbn [negb andb].
  - exact IH.
  - rewrite (includeByFilter_plain m i Hf), IH. cbn.
    destruct (plainFilter (m_currentFilter C m) i); reflexivity.
Qed.

Lemma filterBlocked_returns (mp : gmap string Issue) (deps : list (option Dependency)) :
  Forall (fun d => d <> None) deps -> exists b, filterBlocked mp deps = Returns b.
Proof.
  induction 1 as [|[dep|] deps Hd _ IH]; cbn [filterBlocked].
  - eexists; reflexivity.
  - destruct (String.eqb (DepType dep) DepBlocks); [|exact IH].
    destruct (mp !! DependsOnID dep) as [blocker|]; [|exact IH].
    destruct (negb _); [eexists; reflexivity|exact IH].
  - contradiction.
Qed.

Lemma includeByFilter_returns (m : Model C) (i : Issue) :
  Forall (fun d => d <> None) (Dependencies i) ->
  exists b, includeByFilter C m i = Returns b.
Proof.
  intros Hd. unfold includeByFilter. cbv zeta.
  repeat match goal with
  | |- context [if ?c then _ else _] =>
    lazymatch c with
    | context [if _ then _ else _] => fail
    | _ => destruct c
    end
  end; try (eexists; reflexivity).
  destruct (filterBlocked_returns (m_issueMap C m) _ Hd) as [b ->].
  eexists; reflexivity.
Qed.

Lemma filterLoop_returns (stats : GraphStats) (m : Model C) (issues : list Issue) :
  noNilDependency issues -> exists r, filterLoop C stats m issues = Returns r.
Proof.
  induction 1 as [|i issues Hi _ IH]; cbn [filterLoop]; [eexists; reflexivity|].
  destruct (repoHidden C m i); [exact IH|].
  destruct (includeByFilter_returns m i Hi) as [b ->].
  destruct IH as [r ->]. eexists; reflexivity.
Qed.

Lemma includeByRecipe_returns (m : Model C) (r : Recipe) (i : Issue) :
  Forall (fun d => d <> None) (Dependencies i) ->
  exists b, includeByRecipe C m r i = Returns b.
Proof.
  intros Hd. unfold includeByRecipe. cbv zeta.
  match goal with
  | |- context [if ?c then _ else Returns ?x] => destruct c
  end; [|eexists; reflexivity].
  destruct (filterBlocked_returns (m_issueMap C m) _ Hd) as [b ->].
  eexists; reflexivity.
Qed.

Lemma recipeLoop_returns (stats : GraphStats) (m : Model C) (r : Recipe)
    (issues : list Issue) :
  noNilDependency issues -> exists k, recipeLoop C stats m r issues = Returns k.
Proof.
  induction 1 as [|i issues Hi _ IH]; cbn [recipeLoop]; [eexists; reflexivity|].
  destruct (includeByRecipe_returns m r i Hi) as [b ->].
  destruct IH as [k ->]. eexists; reflexivity.
Qed.

(** X10. When no dependency entry of the model's issues is [nil],
    [applyFilter] returns, whatever the filter, and so does
    [applyRecipe], whatever the recipe. *)
Theorem filters_return_without_nil (e : Engine) (m : Model C) :
  noNilDependency (m_issues C m) ->
  (exists m', applyFilter e m = Returns m')
  /\ (forall recipe, exists m', applyRecipe e m recipe = Returns m').
Proof.
  intros Hn. split.
  - unfold ui.applyFilter. cbv zeta.
    destruct (filterLoop_returns (stats_at e (m_analysis C m)) m _ Hn) as [r ->].
    eexists; reflexivity.
  - intros [r|]; [|eexists; reflexivity].
    unfold ui.applyRecipe. cbv zeta.
    destruct (recipeLoop_returns (stats_at e (m_analysis C m)) m r _ Hn) as [k ->].
    cbn. destruct (if negb _ then _ else _) as [items issues].
    eexists; reflexivity.
Qed.

Lemma applyFilter_list (e : Engine) (m m' : Model C) (items : list IssueItem)
    (kept : list Issue) :
  list_keeps_items C ->
  filterLoop C (stats_at e (m_analysis C m)) m (m_issues C m) = Returns (items, kept) ->
  applyFilter e m = Returns m' ->
  list_Items C (m_list C m') = items
  /\ m_semanticIDs C m' = map (fun it => ID (item_Issue it)) items.
Proof.
  intros [L1 L2] Hl. unfold ui.applyFilter. cbv zeta. rewrite Hl. cbn.
  intros [= <-]. unfold keepSelectionInBounds.
  destruct (_ && _).
  - split.
    + change (list_Items C (list_Select C (list_SetItems C (m_list C m) items) 0) = items).
      rewrite L2, L1. reflexivity.
    + reflexivity.
  - split.
    + change (list_Items C (list_SetItems C (m_list C m) items) = items).
      apply L1.
    + reflexivity.
Qed.

(** X11. For every filter but ["ready"], [SetFilter] returns (also
    with [nil] dependency entries), and [FilteredIssues] then gives the
    model's issues, in their order, that are of a shown repository and
    pass the filter: all of them for ["all"], the ones not closed for
    ["open"], the closed ones for ["closed"], the ones with the label
    for ["label:<name>"], none for an unknown name. The semantic ids
    are those of the shown issues and the issues are not touched. *)
Theorem SetFilter_FilteredIssues (e : Engine) (f : string) (m : Model C) :
  f <> "ready"%string -> list_keeps_items C ->
  exists m',
    SetFilter e f m = Returns m'
    /\ FilteredIssues C m'
       = List.filter (fun i => negb (repoHidden C m i) && plainFilter f i) (m_issues C m)
    /\ m_semanticIDs C m' = map ID (FilteredIssues C m')
    /\ m_currentFilter C m' = f
    /\ m_issues C m' = m_issues C m.
Proof.
  intros Hf HL. unfold ui_views.SetFilter.
  set (m0 := set_currentFilter C f m).
  assert (Hf0 : m_currentFilter C m0 <> "ready"%string) by exact Hf.
  pose proof (filterLoop_plain (stats_at e (m_analysis C m0)) m0 (m_issues C m0) Hf0)
    as Hl.
  assert (exists m', applyFilter e m0 = Returns m') as [m' E].
  { unfold ui.applyFilter. cbv zeta. rewrite Hl. eexists; reflexivity. }
  exists m'. split; [exact E|].
  destruct (applyFilter_list e m0 m' _ _ HL Hl E) as [Hi Hs].
  pose proof (applyFilter_shown_only C render_viewport e m0 m' E) as Sh.
  unfold FilteredIssues. rewrite Hs, Hi, !map_map. cbn [item_Issue filterItem].
  rewrite map_id.
  split; [reflexivity|]. split; [reflexivity|]. split.
  - revert E. unfold ui.applyFilter. cbv zeta. rewrite Hl. cbn. intros [= <-].
    unfold keepSelectionInBounds. destruct (_ && _); reflexivity.
  - rewrite Sh. reflexivity.
Qed.

Lemma filterBlocked_counts (mp : gmap string Issue) (deps : list (option Dependency)) :
  Forall (fun d => d <> None) deps ->
  Forall (fun d => match d with
                   | Some dep => IsBlocking C (DepType dep)
                                 = String.eqb (DepType dep) DepBlocks
                   | None => True
                   end) deps ->
  filterBlocked mp deps = Returns (blockedByOpenDependency C mp deps).
Proof.
  induction 1 as [|[dep|] deps Hd _ IH]; intros Hb; [reflexivity| |contradiction].
  inversion Hb as [|? ? Hdep Hrest]; subst.
  cbn [filterBlocked blockedByOpenDependency]. rewrite Hdep.
  destruct (String.eqb (DepType dep) DepBlocks); cbn [negb]; [|exact (IH Hrest)].
  destruct (mp !! DependsOnID dep) as [blocker|]; [|exact (IH Hrest)].
  destruct (negb _); [reflexivity|exact (IH Hrest)].
Qed.

Lemma filterLoop_ready (stats : GraphStats) (m : Model C) (issues : list Issue) :
  m_currentFilter C m = "ready"%string ->
  m_workspaceMode C m = false ->
  noNilDependency issues -> blocking_is_blocks C issues ->
  exists items,
    filterLoop C stats m issues
    = Returns (items,
               List.filter
                 (fun i => negb (isClosed i)
                           && negb (String.eqb (IssueStatus i) StatusBlocked)
                           && negb (blockedByOpenDependency C (m_issueMap C m)
                                      (Dependencies i))) issues)
    /\ map item_Issue items
       = List.filter
           (fun i => negb (isClosed i)
                     && negb (String.eqb (IssueStatus i) StatusBlocked)
                     && negb (blockedByOpenDependency C (m_issueMap C m)
                                (Dependencies i))) issues.
Proof.
  intros Hf Hw Hn Hb. induction Hn as [|i issues Hi Hn IH].
  - exists []. split; reflexivity.
  - inversion Hb as [|? ? Hbi Hbr]; subst.
    destruct (IH Hbr) as (items & E & Em).
    cbn [filterLoop List.filter].
    assert (Hh : repoHidden C m i = false) by (unfold repoHidden; rewrite Hw; reflexivity).
    rewrite Hh. unfold includeByFilter. cbv zeta. rewrite Hf.
    cbn [String.eqb Ascii.eqb Bool.eqb andb].
    fold (isClosed i).
    destruct (isClosed i); cbn [negb andb].
    { rewrite E. cbn. exists items. split; [reflexivity|exact Em]. }
    destruct (String.eqb (IssueStatus i) StatusBlocked); cbn [negb andb].
    { rewrite E. cbn. exists items. split; [reflexivity|exact Em]. }
    rewrite (filterBlocked_counts _ _ Hi Hbi). cbn. rewrite E. cbn.
    destruct (blockedByOpenDependency C (m_issueMap C m) (Dependencies i));
      cbn [negb fst snd].
    + exists items. split; [reflexivity|exact Em].
    + eexists. split; [reflexivity|]. cbn [map item_Issue filterItem].
      f_equal. exact Em.
Qed.

(** X12. The ["ready"] filter shows as many issues as the ready count
    of the status bar says, when the counts are those of the issues, no
    dependency entry is [nil], the only blocking dependency type that
    occurs is [DepBlocks], and no repository is hidden. *)
Theorem ready_filter_matches_count (e : Engine) (m : Model C) :
  list_keeps_items C -> consistent C m ->
  noNilDependency (m_issues C m) -> blocking_is_blocks C (m_issues C m) ->
  m_workspaceMode C m = false ->
  exists m',
    SetFilter e "ready" m = Returns m'
    /\ Z.of_nat (length (FilteredIssues C m')) = m_countReady C m.
Proof.
  intros HL [_ Hc] Hn Hb Hw. unfold ui_views.SetFilter.
  set (m0 := set_currentFilter C "ready" m).
  destruct (filterLoop_ready (stats_at e (m_analysis C m0)) m0 (m_issues C m0)
              eq_refl Hw Hn Hb) as (items & Hl & Hm).
  assert (exists m', applyFilter e m0 = Returns m') as [m' E].
  { unfold ui.applyFilter. cbv zeta. rewrite Hl. eexists; reflexivity. }
  exists m'. split; [exact E|].
  destruct (applyFilter_list e m0 m' _ _ HL Hl E) as [Hi _].
  unfold FilteredIssues. rewrite Hi, Hm.
  pose proof (countFacts.fold_countIssue C (m_issueMap C m) (m_issues C m) (0, 0, 0, 0))
    as F.
  cbv beta iota in F. unfold computeStats in Hc. rewrite <- Hc in F.
  destruct F as (_ & _ & _ & ->). reflexivity.
Qed.

(** ** The lookup map and the counts *)

Lemma consistent_frame (m m' : Model C) :
  m_issues C m' = m_issues C m -> m_issueMap C m' = m_issueMap C m ->
  m_countOpen C m' = m_countOpen C m -> m_countReady C m' = m_countReady C m ->
  m_countBlocked C m' = m_countBlocked C m -> m_countClosed C m' = m_countClosed C m ->
  consistent C m -> consistent C m'.
Proof.
  unfold consistent. intros -> -> -> -> -> ->. auto.
Qed.

Lemma shown_only_consistent (m m' : Model C) :
  shown_only C m m' -> consistent C m -> consistent C m'.
Proof.
  intros S. apply consistent_frame; rewrite S; reflexivity.
Qed.

Lemma NewModel_consistent (e : Engine) (issues : list Issue)
    (activeRecipe : option Recipe) (beadsPath : string) :
  consistent C (snd (NewModel e issues activeRecipe beadsPath)).
Proof.
  unfold ui.NewModel, consistent.
  destruct (AnalyzeAsync e (NewAnalyzer issues)) as [e1 h].
  cbv zeta.
  match goal with
  | |- context [computeStats C ?mp ?l] => destruct (computeStats C mp l) as [[[o r] b] c] eqn:E
  end.
  destruct (computeAlerts C _ _ _) as [[[al cr] wa] inf].
  cbn [snd m_issueMap m_issues m_countOpen m_countReady m_countBlocked m_countClosed].
  split; [reflexivity|]. symmetry. exact E.
Qed.

Lemma fold_insert_over (l : list Issue) (mp : gmap string Issue) (id : string) :
  In id (map ID l) ->
  fold_left (fun mp i => <[ID i := i]> mp) l mp !! id = buildIssueMap l !! id.
Proof.
  intros Hin.
  destruct (mapFacts.last_with_id _ _ Hin) as (front & j & back & -> & <- & Hb).
  unfold buildIssueMap. rewrite !mapFacts.fold_insert_app by exact Hb. reflexivity.
Qed.

Lemma buildIssueMap_rebuilt (l l' : list Issue) :
  Permutation l' l ->
  fold_left (fun mp i => <[ID i := i]> mp) l' (buildIssueMap l) = buildIssueMap l'.
Proof.
  intros P. apply map_eq. intros id.
  destruct (in_dec String.string_dec id (map ID l')) as [Hin|Hn].
  - apply fold_insert_over. exact Hin.
  - rewrite mapFacts.fold_insert_None by exact Hn.
    unfold buildIssueMap at 2. rewrite mapFacts.fold_insert_None by exact Hn.
    rewrite lookup_empty.
    apply mapFacts.buildIssueMap_absent.
    intros Hl. apply Hn. eapply Permutation_in; [|exact Hl].
    apply Permutation_map. symmetry. exact P.
Qed.

Lemma buildIssueMap_Permutation (l l' : list Issue) :
  List.NoDup (map ID l) -> Permutation l' l -> buildIssueMap l' = buildIssueMap l.
Proof.
  intros Hnd P. apply map_eq. intros id.
  assert (Hnd' : List.NoDup (map ID l')).
  { eapply Permutation_NoDup; [|exact Hnd]. apply Permutation_map. symmetry. exact P. }
  destruct (buildIssueMap l !! id) as [i|] eqn:E.
  - destruct (mapFacts.buildIssueMap_member _ _ _ E) as [Hin <-].
    apply (mapFacts.buildIssueMap_unique l' i Hnd').
    eapply Permutation_in; [symmetry; exact P|exact Hin].
  - apply mapFacts.buildIssueMap_absent.
    apply mapFacts.buildIssueMap_absent in E.
    intros Hin. apply E. eapply Permutation_in; [|exact Hin].
    apply Permutation_map. exact P.
Qed.

Lemma filter_length_Permutation {A} (p : A -> bool) (l l' : list A) :
  Permutation l l' -> length (List.filter p l) = length (List.filter p l').
Proof.
  induction 1 as [|a l l' _ IH|a b l|l l' l'' _ IH1 _ IH2]; cbn; try congruence.
  - destruct (p a); cbn; congruence.
  - destruct (p a), (p b); reflexivity.
Qed.

Lemma computeStats_Permutation (mp : gmap string Issue) (l l' : list Issue) :
  Permutation l l' -> computeStats C mp l = computeStats C mp l'.
Proof.
  intros P. unfold computeStats.
  pose proof (countFacts.fold_countIssue C mp l (0, 0, 0, 0)) as F.
  pose proof (countFacts.fold_countIssue C mp l' (0, 0, 0, 0)) as F'.
  cbv beta iota in F, F'.
  destruct (fold_left (countIssue C mp) l (0, 0, 0, 0)) as [[[o r] b] c].
  destruct (fold_left (countIssue C mp) l' (0, 0, 0, 0)) as [[[o' r'] b'] c'].
  destruct F as (-> & -> & -> & ->), F' as (-> & -> & -> & ->).
  rewrite !(filter_length_Permutation _ _ _ P). reflexivity.
Qed.

Lemma resortByMetric_consistent (e : Engine) (m : Model C) :
  sort_permutes C -> List.NoDup (map ID (m_issues C m)) ->
  consistent C m -> consistent C (resortByMetric C e m).
Proof.
  intros HS Hnd [Hm Hc]. unfold resortByMetric.
  destruct (m_activeRecipe C m) as [r|]; [|split; assumption].
  destruct (_ || _); [|split; assumption]. cbv zeta.
  set (l' := sort_issues C _ (m_issues C m)).
  assert (P : Permutation l' (m_issues C m)) by apply HS.
  unfold consistent.
  change (fold_left (fun mp i => <[ID i := i]> mp) l' (m_issueMap C m) = buildIssueMap l'
          /\ (m_countOpen C m, m_countReady C m, m_countBlocked C m, m_countClosed C m)
             = computeStats C (fold_left (fun mp i => <[ID i := i]> mp) l' (m_issueMap C m)) l').
  rewrite Hm, (buildIssueMap_rebuilt _ _ P). split; [reflexivity|].
  rewrite (buildIssueMap_Permutation _ _ Hnd P), <- Hm, Hc.
  apply computeStats_Permutation. symmetry. exact P.
Qed.

Lemma phase2Prepare_consistent (e : Engine) (m : Model C) :
  sort_permutes C -> List.NoDup (map ID (m_issues C m)) ->
  consistent C m -> consistent C (phase2Prepare C e m).
Proof.
  intros HS Hnd Hc. unfold phase2Prepare. cbv zeta.
  set (m1 := refreshInsights C e m).
  set (m2 := refreshTriage C m1).
  set (m3 := refreshPriorityHints C e m2).
  set (m4 := refreshAlerts C e m3).
  set (m5 := refreshLabelHealth C e m4).
  assert (K4 : m_issues C m4 = m_issues C m /\ m_issueMap C m4 = m_issueMap C m
               /\ m_countOpen C m4 = m_countOpen C m
               /\ m_countReady C m4 = m_countReady C m
               /\ m_countBlocked C m4 = m_countBlocked C m
               /\ m_countClosed C m4 = m_countClosed C m).
  { subst m4 m3 m2 m1. unfold refreshAlerts, setAlerts.
    destruct (computeAlerts C _ _ _) as [[[a c] w] i].
    repeat split; reflexivity. }
  assert (K5 : m_issues C m5 = m_issues C m4 /\ m_issueMap C m5 = m_issueMap C m4
               /\ m_countOpen C m5 = m_countOpen C m4
               /\ m_countReady C m5 = m_countReady C m4
               /\ m_countBlocked C m5 = m_countBlocked C m4
               /\ m_countClosed C m5 = m_countClosed C m4)
    by (subst m5; repeat split; run_stage refreshLabelHealth).
  destruct K4 as (A1 & A2 & A3 & A4 & A5 & A6).
  destruct K5 as (B1 & B2 & B3 & B4 & B5 & B6).
  apply resortByMetric_consistent; [exact HS|congruence|].
  apply (consistent_frame m); congruence.
Qed.

Lemma generation_consistent (m m' : Model C) :
  generation C m' = generation C m -> consistent C m -> consistent C m'.
Proof.
  unfold generation. intros [= E1 E2 E3 E4 E5 E6].
  apply consistent_frame; assumption.
Qed.

Lemma shown_only_fields (m m' : Model C) :
  shown_only C m m' ->
  generation C m' = generation C m /\ timeTravel C m' = timeTravel C m
  /\ derived C m' = derived C m /\ m_watcher C m' = m_watcher C m
  /\ m_analysis C m' = m_analysis C m
  /\ m_labelDrilldownCache C m' = m_labelDrilldownCache C m
  /\ m_showAttentionView C m' = m_showAttentionView C m.
Proof. intros S. rewrite S. repeat split; reflexivity. Qed.

Lemma reloadPrepare_fields (e : Engine) (m : Model C) (issues : list Issue) :
  let m1 := snd (fst (reloadPrepare C e m issues)) in
  generation C m1
  = (issues, buildIssueMap issues, computeStats C (buildIssueMap issues) issues)
  /\ derived C m1 = (∅, ∅, false)
  /\ timeTravel C m1 = timeTravel C m
  /\ m_watcher C m1 = m_watcher C m
  /\ m_showAttentionView C m1 = m_showAttentionView C m.
Proof.
  cbv zeta. unfold reloadPrepare. cbv zeta.
  assert (A : let p := reloadAnalysis C e m issues in
              m_issues C (snd (fst p)) = issues
              /\ m_issueMap C (snd (fst p)) = buildIssueMap issues
              /\ m_priorityHints C (snd (fst p)) = ∅
              /\ timeTravel C (snd (fst p)) = timeTravel C m
              /\ m_watcher C (snd (fst p)) = m_watcher C m
              /\ m_showAttentionView C (snd (fst p)) = m_showAttentionView C m).
  { cbv zeta. unfold reloadAnalysis. cbv zeta.
    destruct (NewCachedAnalyzer e issues None) as [e1 ca]. cbn [fst snd].
    repeat split; reflexivity. }
  cbv zeta in A.
  destruct (reloadAnalysis C e m issues) as [[e1 m1] hit]. cbn [fst snd] in *.
  destruct A as (A1 & A2 & A3 & A4 & A5 & A6).
  set (sel := match list_SelectedItem C (m_list C m) with
              | Some item => ID (item_Issue item)
              | None => ""%string
              end).
  set (m2 := reloadCounts C m1).
  set (m3 := refreshAlerts C e1 m2).
  set (m4 := set_showAlertsPanel C false (set_dismissedAlerts C ∅ m3)).
  set (m5 := reloadList C e1 sel m4).
  assert (K2 : generation C m2
               = (m_issues C m1, m_issueMap C m1,
                  computeStats C (m_issueMap C m1) (m_issues C m1))
               /\ m_priorityHints C m2 = m_priorityHints C m1
               /\ timeTravel C m2 = timeTravel C m1
               /\ m_watcher C m2 = m_watcher C m1
               /\ m_showAttentionView C m2 = m_showAttentionView C m1).
  { subst m2. unfold reloadCounts.
    destruct (computeStats C (m_issueMap C m1) (m_issues C m1)) as [[[o r] b] c].
    repeat split; reflexivity. }
  assert (K3 : generation C m3 = generation C m2
               /\ m_priorityHints C m3 = m_priorityHints C m2
               /\ timeTravel C m3 = timeTravel C m2
               /\ m_watcher C m3 = m_watcher C m2
               /\ m_showAttentionView C m3 = m_showAttentionView C m2).
  { subst m3. unfold refreshAlerts, setAlerts.
    destruct (computeAlerts C _ _ _) as [[[a c] w] i]. repeat split; reflexivity. }
  assert (K5 : generation C m5 = generation C m3
               /\ derived C m5 = (m_priorityHints C m3, ∅, false)
               /\ timeTravel C m5 = timeTravel C m3
               /\ m_watcher C m5 = m_watcher C m3
               /\ m_showAttentionView C m5 = m_showAttentionView C m3).
  { subst m5 m4. unfold reloadList, updateSemanticIDs. cbv zeta.
    repeat split; split_conds; reflexivity. }
  destruct K2 as (G2 & H2 & T2 & W2 & S2), K3 as (G3 & H3 & T3 & W3 & S3),
           K5 as (G5 & D5 & T5 & W5 & S5).
  repeat split.
  - change (generation C m5 = (issues, buildIssueMap issues,
                               computeStats C (buildIssueMap issues) issues)).
    rewrite G5, G3, G2, A1, A2. reflexivity.
  - change (derived C m5 = (∅, ∅, false)). rewrite D5, H3, H2, A3. reflexivity.
  - change (timeTravel C m5 = timeTravel C m). congruence.
  - change (m_watcher C m5 = m_watcher C m). congruence.
  - change (m_showAttentionView C m5 = m_showAttentionView C m). congruence.
Qed.

Lemma reloadFinish_fields (e : Engine) (m : Model C) (hit : bool) (n w : nat) :
  let r := reloadFinish C render_viewport renderSprintDashboard
                        LoadSprintsFromFile e m hit n w in
  generation C (fst r) = generation C m
  /\ derived C (fst r) = derived C m
  /\ timeTravel C (fst r) = timeTravel C m
  /\ m_watcher C (fst r) = m_watcher C m
  /\ m_showAttentionView C (fst r) = m_showAttentionView C m
  /\ m_labelDrilldownCache C (fst r) = ∅
  /\ m_labelHealthCached C (fst r) = false
  /\ m_statusIsError C (fst r) = false
  /\ m_analysis C (fst r) = m_analysis C m
  /\ exists cmds,
       snd r = (rearmWatch C (fst r) cmds
                ++ [WaitForPhase2Cmd (m_analysis C (fst r))])%list.
Proof.
  cbv zeta. unfold reloadFinish, reloadSprints, updateViewportContent.
  cbv zeta.
  repeat split; split_conds; cbn [fst snd];
    try reflexivity; try assumption; eexists; reflexivity.
Qed.

Lemma reload_fields (e : Engine) (m : Model C) (issues : list Issue)
    (warnings : list string) (e' : Engine) (m' : Model C) (cmds : list Cmd) :
  reload C render_viewport renderSprintDashboard LoadSprintsFromFile
         e m issues warnings = Returns (e', m', cmds) ->
  let sorted := sort_issues C default_less issues in
  generation C m'
  = (sorted, buildIssueMap sorted, computeStats C (buildIssueMap sorted) sorted)
  /\ derived C m' = (∅, ∅, false)
  /\ timeTravel C m' = timeTravel C m
  /\ m_watcher C m' = m_watcher C m
  /\ m_showAttentionView C m' = m_showAttentionView C m
  /\ m_labelDrilldownCache C m' = ∅
  /\ m_labelHealthCached C m' = false
  /\ m_statusIsError C m' = false
  /\ In (WaitForPhase2Cmd (m_analysis C m')) cmds
  /\ (forall w, m_watcher C m = Some w -> In (WatchFileCmd w) cmds).
Proof.
  unfold ui.reload. cbv zeta.
  pose proof (reloadPrepare_fields e m (sort_issues C default_less issues)) as P.
  cbv zeta in P.
  destruct (reloadPrepare C e m (sort_issues C default_less issues))
    as [[e1 m1] hit]. cbn [fst snd] in P.
  destruct P as (G1 & D1 & T1 & W1 & S1).
  destruct (match m_activeRecipe C m1 with
            | Some r => applyRecipe e1 m1 (Some r)
            | None => Returns m1
            end) as [m2|msg] eqn:E2; cbn; [|discriminate].
  assert (Sh : shown_only C m1 m2).
  { destruct (m_activeRecipe C m1).
    - apply (applyRecipe_shown_only C render_viewport) in E2. exact E2.
    - injection E2 as <-. apply shown_only_refl. }
  destruct (shown_only_fields _ _ Sh) as (G2 & T2 & D2 & W2 & _ & _ & S2).
  pose proof (reloadFinish_fields e1 m2 hit
                (length (sort_issues C default_less issues)) (length warnings)) as F.
  cbv zeta in F.
  destruct (reloadFinish C render_viewport renderSprintDashboard
              LoadSprintsFromFile e1 m2 hit _ _) as [m3 cmds3].
  cbn [fst snd] in F.
  destruct F as (G3 & D3 & T3 & W3 & S3 & C3 & L3 & E3 & A3 & cmds0 & Hc).
  intros [= <- <- <-].
  repeat split; try congruence.
  - rewrite Hc. apply in_or_app. right. left. reflexivity.
  - intros w Hw. rewrite Hc. apply in_or_app. left. unfold rearmWatch.
    replace (m_watcher C m3) with (Some w) by congruence.
    apply in_or_app. right. left. reflexivity.
Qed.

(** X14. A reload that reads the file starts afresh: the issues are
    the loaded ones in the default order, with their lookup map and
    counts; the priority hints, the dismissed alerts and the label
    drilldown cache are empty, the alerts panel and the attention
    overlay are closed, the label health is to be recomputed,
    time-travel mode is off (no issue has a diff badge), the status is
    no error, and the commands wait for Phase 2 of the new analysis and
    watch the file again. *)
Theorem reload_starts_afresh (e : Engine) (m : Model C) (issues : list Issue)
    (warnings : list string) (e' : Engine) (m' : Model C) (cmds : list Cmd) :
  m_beadsPath C m <> ""%string ->
  LoadIssuesFromFile (m_beadsPath C m) = Ok (issues, warnings) ->
  Update e m FileChangedMsg = Returns (e', m', cmds) ->
  m_issues C m' = sort_issues C default_less issues
  /\ consistent C m'
  /\ m_priorityHints C m' = ∅
  /\ m_dismissedAlerts C m' = ∅
  /\ m_showAlertsPanel C m' = false
  /\ m_labelDrilldownCache C m' = ∅
  /\ m_labelHealthCached C m' = false
  /\ m_showAttentionView C m' = false
  /\ m_timeTravelMode C m' = false
  /\ (forall id, getDiffStatus C m' id = DiffStatusNone)
  /\ m_statusIsError C m' = false
  /\ In (WaitForPhase2Cmd (m_analysis C m')) cmds
  /\ (forall w, m_watcher C m = Some w -> In (WatchFileCmd w) cmds).
Proof.
  intros Hp Hl HU.
  rewrite (fileChanged_reload C render_viewport renderSprintDashboard
             LoadIssuesFromFile LoadSprintsFromFile _ _ _ _ Hp Hl) in HU.
  destruct (reload_fields _ _ _ _ _ _ _ HU)
    as (G & D & T & W & S & Ca & L & E & Hw & Hr).
  cbv zeta in G. unfold generation in G. unfold derived in D.
  injection G as G1 G2 G3. injection D as D1 D2 D3.
  set (m0 := exitTimeTravelOnReload C (clearAttentionOverlay C m)) in *.
  assert (T0 : m_timeTravelMode C m0 = false).
  { subst m0. unfold exitTimeTravelOnReload.
    destruct (m_timeTravelMode C (clearAttentionOverlay C m)) eqn:Et;
      [reflexivity|exact Et]. }
  assert (S0 : m_showAttentionView C m0 = false).
  { subst m0. unfold exitTimeTravelOnReload, clearAttentionOverlay.
    destruct (m_showAttentionView C m) eqn:Es; split_conds; first [reflexivity|exact Es]. }
  assert (W0 : m_watcher C m0 = m_watcher C m).
  { subst m0. unfold exitTimeTravelOnReload, clearAttentionOverlay.
    split_conds; reflexivity. }
  assert (Tm : m_timeTravelMode C m' = false).
  { unfold timeTravel in T. injection T as T1 _ _ _ _ _. congruence. }
  split; [exact G1|]. split.
  { unfold consistent. rewrite G3, G2, G1. split; reflexivity. }
  repeat split; try assumption; try congruence.
  - intros id. unfold getDiffStatus. rewrite Tm. reflexivity.
  - intros w Hw0. apply Hr. congruence.
Qed.

(** X13. The lookup map and the counts of the model are those of its
    issues: [NewModel] makes them so, and [Update] on [UpdateMsg],
    [Phase2ReadyMsg] and [FileChangedMsg] keeps them so, for issues of
    distinct ids and a sort that rearranges its slice. *)
Theorem Update_keeps_consistent :
  (forall e issues activeRecipe beadsPath,
     consistent C (snd (NewModel e issues activeRecipe beadsPath)))
  /\ (forall e m msg e' m' cmds,
        sort_permutes C -> List.NoDup (map ID (m_issues C m)) ->
        consistent C m ->
        Update e m msg = Returns (e', m', cmds) ->
        consistent C m').
Proof.
  split; [apply NewModel_consistent|].
  intros e m msg e' m' cmds HS Hnd Hc. unfold ui.Update.
  destruct msg as [tag url|Stats|].
  - cbv zeta. unfold updateTail.
    destruct (focus_eqb _ focusList).
    + destruct (list_Update C _ _) as [l cmd]. intros [= <- <- <-].
      revert Hc. apply generation_consistent. reflexivity.
    + intros [= <- <- <-]. revert Hc. apply generation_consistent. reflexivity.
  - destruct (negb _); [intros [= <- <- <-]; exact Hc|].
    destruct (phase2Refresh C render_viewport e m) as [m1|msg] eqn:E1; cbn;
      [|discriminate].
    apply (phase2Refresh_shown_only C render_viewport) in E1.
    pose proof (phase2Prepare_consistent e m HS Hnd Hc) as Hc1.
    pose proof (shown_only_consistent _ _ E1 Hc1) as Hc2.
    unfold updateTail.
    destruct (focus_eqb _ focusList).
    + destruct (list_Update C _ _) as [l cmd]. intros [= <- <- <-].
      revert Hc2. apply generation_consistent. reflexivity.
    + intros [= <- <- <-]. exact Hc2.
  - unfold fileChanged.
    destruct (String.eqb (m_beadsPath C m) "") eqn:Ep;
      [intros [= <- <- <-]; exact Hc|].
    cbv zeta.
    destruct (reload_guard_frame C m)
      as (Fp & Fw & F1 & F2 & F3 & F4 & F5 & F6 & F7 & F8 & F9).
    cbv zeta in *.
    set (m0 := exitTimeTravelOnReload C (clearAttentionOverlay C m)) in *.
    destruct (LoadIssuesFromFile (m_beadsPath C m0)) as [[issues warnings]|err].
    + intros HU. destruct (reload_fields _ _ _ _ _ _ _ HU) as (G & _).
      cbv zeta in G. unfold generation in G. injection G as G1 G2 G3.
      unfold consistent. rewrite G3, G2, G1. split; reflexivity.
    + intros [= <- <- <-]. revert Hc. apply consistent_frame; assumption.
Qed.

Lemma NewModel_watch (e : Engine) (issues : list Issue)
    (activeRecipe : option Recipe) (beadsPath : string) :
  let m := snd (NewModel e issues activeRecipe beadsPath) in
  let watch := if String.eqb beadsPath ""
               then (None, None)
               else match StartWatcher beadsPath with
                    | Ok w => (Some w, None)
                    | Err msg => (None, Some msg)
                    end in
  m_watcher C m = fst watch
  /\ m_statusMsg C m = match snd watch with
                       | Some err => ("Live reload unavailable: " ++ err)%string
                       | None => ""%string
                       end
  /\ m_statusIsError C m = match snd watch with Some _ => true | None => false end
  /\ m_beadsPath C m = beadsPath.
Proof.
  cbv zeta. unfold ui.NewModel.
  destruct (AnalyzeAsync e (NewAnalyzer issues)) as [e1 h]. cbv zeta.
  destruct (computeStats C _ _) as [[[o r] b] c].
  destruct (computeAlerts C _ _ _) as [[[al cr] wa] inf].
  repeat split; reflexivity.
Qed.

(** X15. [Init] of a new model watches the file exactly when there is a
    path and the watcher started; it always checks for updates and
    waits for Phase 2 of the model's analysis. When the watcher does not
    start the model has none and says so in an error status. *)
Theorem Init_watches_when_started (e : Engine) (issues : list Issue)
    (activeRecipe : option Recipe) (beadsPath : string) :
  let m := snd (NewModel e issues activeRecipe beadsPath) in
  (forall w, In (WatchFileCmd w) (Init C m)
             <-> beadsPath <> ""%string /\ StartWatcher beadsPath = Ok w)
  /\ In CheckUpdateCmd (Init C m)
  /\ In (WaitForPhase2Cmd (m_analysis C m)) (Init C m)
  /\ (forall err, beadsPath <> ""%string -> StartWatcher beadsPath = Err err ->
        m_watcher C m = None
        /\ m_statusIsError C m = true
        /\ m_statusMsg C m = ("Live reload unavailable: " ++ err)%string).
Proof.
  cbv zeta. destruct (NewModel_watch e issues activeRecipe beadsPath)
    as (Hw & Hs & He & _). cbv zeta in Hw, Hs, He.
  set (m := snd (NewModel e issues activeRecipe beadsPath)) in *.
  split; [|split; [left; reflexivity|split; [right; left; reflexivity|]]].
  - intros w. unfold Init. rewrite Hw.
    destruct (String.eqb_spec beadsPath "") as [Ep|Ep]; cbn [fst].
    + split.
      * intros [H|[H|H]]; try discriminate.
        destruct (Nat.ltb _ _); [destruct H as [H|[]]; discriminate|destruct H].
      * intros [H _]. contradiction.
    + destruct (StartWatcher beadsPath) as [w0|msg]; cbn [fst].
      * split.
        -- intros [H|[H|[H|H]]]; try discriminate.
           ++ injection H as ->. auto.
           ++ destruct (Nat.ltb _ _); [destruct H as [H|[]]; discriminate|destruct H].
        -- intros [_ [= ->]]. right. right. left. reflexivity.
      * split.
        -- intros [H|[H|H]]; try discriminate.
           destruct (Nat.ltb _ _); [destruct H as [H|[]]; discriminate|destruct H].
        -- intros [_ H]. discriminate.
  - intros err Hp Hf. rewrite Hw, Hs, He.
    apply String.eqb_neq in Hp. rewrite Hp, Hf. repeat split; reflexivity.
Qed.

(** ** Time travel *)

Section TimeTravel.

Variable os_Getwd : result string.
Variable ResolveRevision : string -> string -> result string.
Variable HasBeadsAtRevision : string -> string -> result bool.
Variable LoadAt : string -> string -> result (list Issue).
Variable CompareSnapshots : list Issue -> list Issue -> SnapshotDiff C.
Variable diff_NewIssues : SnapshotDiff C -> list Issue.
Variable diff_ClosedIssues : SnapshotDiff C -> list Issue.
Variable diff_ModifiedIssues : SnapshotDiff C -> list string.
Variable diff_Summary : SnapshotDiff C -> Z * Z * Z.

Local Abbreviation exitTimeTravelMode := (exitTimeTravelMode C render_viewport).
Local Abbreviation enterTimeTravelMode :=
  (enterTimeTravelMode C render_viewport os_Getwd ResolveRevision HasBeadsAtRevision
     LoadAt CompareSnapshots diff_NewIssues diff_ClosedIssues diff_ModifiedIssues
     diff_Summary).

Lemma recipeLoop_aligned (stats : GraphStats) (m : Model C) (r : Recipe)
    (issues : list Issue) (items : list IssueItem) (kept : list Issue) :
  recipeLoop C stats m r issues = Returns (items, kept) ->
  items = map (filterItem C stats m) kept /\ sublist kept issues.
Proof.
  revert items kept. induction issues as [|i issues IH]; intros items kept.
  - cbn. intros [= <- <-]. split; constructor.
  - cbn [recipeLoop].
    destruct (includeByRecipe C m r i) as [inc|msg]; cbn; [|discriminate].
    destruct (recipeLoop C stats m r issues) as [[items0 kept0]|msg]; cbn;
      [|discriminate].
    destruct (IH _ _ eq_refl) as (H1 & H2).
    destruct inc; intros [= <- <-]; cbn [fst snd map].
    + split; [f_equal; exact H1|apply sublist_skip; exact H2].
    + split; [exact H1|apply sublist_cons; exact H2].
Qed.

(** What the two filters hand to the list: items made by [filterItem]. *)
Lemma rebuild_items (e : Engine) (m m' : Model C) :
  list_keeps_items C -> sort_items_permutes C ->
  rebuildListWithDiffInfo C render_viewport e m = Returns m' ->
  shown_only C m m'
  /\ Forall (fun it => item_DiffStatus it = getDiffStatus C m (ID (item_Issue it))
                       /\ In (item_Issue it) (m_issues C m))
            (list_Items C (m_list C m')).
Proof.
  intros HL HS. unfold rebuildListWithDiffInfo.
  destruct (m_activeRecipe C m) as [r|].
  - intros E. split; [exact (applyRecipe_shown_only C render_viewport _ _ _ _ E)|].
    revert E. unfold ui.applyRecipe. cbv zeta.
    destruct (recipeLoop C _ m r (m_issues C m)) as [[items kept]|msg] eqn:El; cbn;
      [|discriminate].
    destruct (recipeLoop_aligned _ _ _ _ _ _ El) as [Hi Hk].
    assert (F : Forall (fun it => item_DiffStatus it
                                  = getDiffStatus C m (ID (item_Issue it))
                                  /\ In (item_Issue it) (m_issues C m)) items).
    { subst items. apply List.Forall_map, Forall_forall. intros i Hin.
      split; [reflexivity|]. cbn [item_Issue filterItem].
      apply list_elem_of_In. eapply elem_of_sublist; [exact Hin|exact Hk]. }
    destruct HL as [L1 L2].
    destruct (negb _); cbn; intros [= <-]; unfold keepSelectionInBounds;
      destruct (_ && _);
      repeat match goal with
      | |- Forall _ (list_Items C (m_list C ?x)) =>
        first [ change (m_list C x) with (list_Select C (list_SetItems C (m_list C m) items) 0)
              | change (m_list C x) with (list_SetItems C (m_list C m) items)
              | change (m_list C x) with
                  (list_Select C (list_SetItems C (m_list C m)
                     (sort_items C (fun a b => recipe_less (stats_at e (m_analysis C m))
                                                 (Field (Sort r))
                                                 (String.eqb (Direction (Sort r)) "desc")
                                                 (item_Issue a) (item_Issue b)) items)) 0)
              | change (m_list C x) with
                  (list_SetItems C (m_list C m)
                     (sort_items C (fun a b => recipe_less (stats_at e (m_analysis C m))
                                                 (Field (Sort r))
                                                 (String.eqb (Direction (Sort r)) "desc")
                                                 (item_Issue a) (item_Issue b)) items)) ]
      end; rewrite ?L2, L1; try exact F;
      (eapply Permutation_Forall; [symmetry; apply HS|exact F]).
  - intros E. split; [exact (applyFilter_shown_only C render_viewport _ _ _ E)|].
    destruct (filterLoop C (stats_at e (m_analysis C m)) m (m_issues C m))
      as [[items kept]|msg] eqn:El.
    + destruct (applyFilter_list e m m' _ _ HL El E) as [-> _].
      destruct (filterLoop_aligned _ _ _ _ _ El) as (_ & Hk & ->).
      apply List.Forall_map, Forall_forall. intros i Hin.
      split; [reflexivity|]. cbn [item_Issue filterItem].
      apply list_elem_of_In. eapply elem_of_sublist; [exact Hin|exact Hk].
    + revert E. unfold ui.applyFilter. cbv zeta. rewrite El. discriminate.
Qed.

Lemma idsOf_lookup (ids : list string) (id : string) :
  lookup_bool (Some (idsOf ids)) id = existsb (String.eqb id) ids.
Proof.
  unfold lookup_bool, idsOf.
  assert (G : forall mp : gmap string bool,
            (forall k v, mp !! k = Some v -> v = true) ->
            default false (fold_left (fun mp id => <[id := true]> mp) ids mp !! id)
            = existsb (String.eqb id) ids || default false (mp !! id)).
  { induction ids as [|a ids IH]; intros mp Hmp; cbn [fold_left existsb]; [reflexivity|].
    rewrite IH.
    - destruct (String.eqb_spec id a) as [->|Hne].
      + rewrite lookup_insert_eq. cbn. rewrite Bool.orb_true_r. reflexivity.
      + rewrite lookup_insert_ne by congruence. reflexivity.
    - intros k v. destruct (decide (a = k)) as [->|Hne].
      + rewrite lookup_insert_eq. congruence.
      + rewrite lookup_insert_ne by exact Hne. apply Hmp. }
  rewrite G.
  - rewrite lookup_empty. apply Bool.orb_false_r.
  - intros k v. rewrite lookup_empty. discriminate.
Qed.

(** X16. After [exitTimeTravelMode] the time-travel state is empty,
    no issue has a diff badge, the status is no error, the issues with
    their map and counts are as before, and every item of the list is
    an issue of the model without a badge. *)
Theorem exitTimeTravelMode_clears (e : Engine) (m m' : Model C) :
  list_keeps_items C -> sort_items_permutes C ->
  exitTimeTravelMode e m = Returns m' ->
  timeTravel C m' = (false, None, ""%string, None, None, None)
  /\ (forall id, getDiffStatus C m' id = DiffStatusNone)
  /\ m_statusIsError C m' = false
  /\ generation C m' = generation C m
  /\ Forall (fun it => item_DiffStatus it = DiffStatusNone
                       /\ In (item_Issue it) (m_issues C m))
            (list_Items C (m_list C m')).
Proof.
  intros HL HS. unfold ui_views.exitTimeTravelMode. cbv zeta.
  set (m0 := set_statusIsError C false _).
  intros E. destruct (rebuild_items e m0 m' HL HS E) as [Sh F].
  destruct (shown_only_fields _ _ Sh) as (G & T & _).
  assert (Tm : m_timeTravelMode C m' = false).
  { unfold timeTravel in T. injection T as T1 _ _ _ _ _. rewrite T1. reflexivity. }
  split; [rewrite T; reflexivity|].
  split; [intros id; unfold getDiffStatus; rewrite Tm; reflexivity|].
  split; [rewrite Sh; reflexivity|].
  split; [rewrite G; reflexivity|].
  eapply List.Forall_impl; [|exact F]. intros it [H1 H2]. split; [|exact H2].
  rewrite H1. reflexivity.
Qed.

(** X17. [enterTimeTravelMode] either fails, and then changes the
    status message and its error flag only, or it succeeds: time-travel
    mode is on for the revision asked, the diff is the one of the
    historical issues against the model's, and every item of the list
    has the badge of its issue, new before closed before modified. The
    issues with their map and counts stay as they are in both cases. *)
Theorem enterTimeTravelMode_outcome (e : Engine) (revision : string)
    (m m' : Model C) :
  list_keeps_items C -> sort_items_permutes C ->
  enterTimeTravelMode e revision m = Returns m' ->
  generation C m' = generation C m
  /\ ((m_statusIsError C m' = true /\ status_only C m m')
      \/ (m_statusIsError C m' = false
          /\ m_timeTravelMode C m' = true
          /\ m_timeTravelSince C m' = revision
          /\ exists historical,
               let diff := CompareSnapshots historical (m_issues C m) in
               m_timeTravelDiff C m' = Some diff
               /\ Forall (fun it =>
                            item_DiffStatus it
                            = badge (map ID (diff_NewIssues diff))
                                    (map ID (diff_ClosedIssues diff))
                                    (diff_ModifiedIssues diff)
                                    (ID (item_Issue it)))
                         (list_Items C (m_list C m')))).
Proof.
  intros HL HS. unfold ui_views.enterTimeTravelMode.
  assert (Fail : forall msg,
            Returns (timeTravelFailed C msg m) = Returns m' ->
            generation C m' = generation C m
            /\ ((m_statusIsError C m' = true /\ status_only C m m') \/
                (m_statusIsError C m' = false
                 /\ m_timeTravelMode C m' = true
                 /\ m_timeTravelSince C m' = revision
                 /\ exists historical,
                      let diff := CompareSnapshots historical (m_issues C m) in
                      m_timeTravelDiff C m' = Some diff
                      /\ Forall (fun it =>
                            item_DiffStatus it
                            = badge (map ID (diff_NewIssues diff))
                                    (map ID (diff_ClosedIssues diff))
                                    (diff_ModifiedIssues diff)
                                    (ID (item_Issue it)))
                         (list_Items C (m_list C m'))))).
  { intros msg [= <-]. split; [reflexivity|]. left. split; [reflexivity|].
    unfold status_only, timeTravelFailed. destruct m. reflexivity. }
  destruct os_Getwd as [cwd|err0]; [|apply Fail].
  destruct (ResolveRevision cwd "HEAD") as [h|err1]; [|apply Fail].
  destruct (HasBeadsAtRevision cwd revision) as [[|]|err2]; [|apply Fail|apply Fail].
  destruct (LoadAt cwd revision) as [historical|err3]; [|apply Fail].
  cbv zeta.
  destruct (diff_Summary _) as [[added closed] modified].
  set (diff := CompareSnapshots historical (m_issues C m)).
  set (m0 := set_statusIsError C false _).
  intros E. destruct (rebuild_items e m0 m' HL HS E) as [Sh F].
  destruct (shown_only_fields _ _ Sh) as (G & T & _).
  split; [rewrite G; reflexivity|]. right.
  unfold timeTravel in T. injection T as T1 T2 T3 _ _ _.
  split; [rewrite Sh; reflexivity|].
  split; [rewrite T1; reflexivity|].
  split; [rewrite T3; reflexivity|].
  exists historical. cbv zeta. fold diff.
  split; [rewrite T2; reflexivity|].
  eapply List.Forall_impl; [|exact F]. intros it [H1 _]. rewrite H1.
  unfold getDiffStatus, badge.
  change (m_timeTravelMode C m0) with true.
  change (m_newIssueIDs C m0) with (Some (idsOf (map ID (diff_NewIssues diff)))).
  change (m_closedIssueIDs C m0) with (Some (idsOf (map ID (diff_ClosedIssues diff)))).
  change (m_modifiedIssueIDs C m0) with (Some (idsOf (diff_ModifiedIssues diff))).
  cbn [negb]. rewrite !idsOf_lookup. reflexivity.
Qed.

(** ** List keys *)

Local Abbreviation handleListKeys :=
  (handleListKeys C render_viewport os_Getwd ResolveRevision HasBeadsAtRevision
     LoadAt CompareSnapshots diff_NewIssues diff_ClosedIssues diff_ModifiedIssues
     diff_Summary).

(** X18. The keys [home], [G], [end], [ctrl+d] and [ctrl+u] select an
    index of the list: the first, the last, and a third of the height
    down or up, stopped at the last and at the first item. *)
Theorem handleListKeys_selection_in_range (e : Engine) (key : string) (m : Model C) :
  In key ["home"; "G"; "end"; "ctrl+d"; "ctrl+u"]%string ->
  let itemCount := Z.of_nat (length (list_Items C (m_list C m))) in
  let currentIdx := list_Index C (m_list C m) in
  0 <= currentIdx < itemCount -> 0 <= m_height C m < 4611686018427387904 ->
  itemCount < 4611686018427387904 ->
  exists newIdx,
    handleListKeys e key m
    = Some (Returns (set_list C (list_Select C (m_list C m) newIdx) m))
    /\ 0 <= newIdx < itemCount
    /\ (key = "home"%string -> newIdx = 0)
    /\ (key = "G"%string \/ key = "end"%string -> newIdx = itemCount - 1)
    /\ (key = "ctrl+d"%string ->
        newIdx = Z.min (currentIdx + m_height C m / 3) (itemCount - 1))
    /\ (key = "ctrl+u"%string ->
        newIdx = Z.max (currentIdx - m_height C m / 3) 0).
Proof.
  cbv zeta. intros Hk Hi Hh Hn.
  assert (Hq : Z.quot (m_height C m) 3 = m_height C m / 3)
    by (apply Z.quot_div_nonneg; lia).
  assert (Hd : 0 <= m_height C m / 3 <= m_height C m).
  { split; [apply Z.div_pos; lia|]. apply Z.div_le_upper_bound; lia. }
  unfold ui_views.handleListKeys. cbv zeta.
  destruct Hk as [<-|[<-|[<-|[<-|[<-|[]]]]]]; cbn [key_in existsb String.eqb Ascii.eqb Bool.eqb orb andb].
  - exists 0. split; [reflexivity|]. repeat split; try lia; intros; try discriminate.
    destruct H; discriminate.
  - destruct (Z.ltb_spec 0 (Z.of_nat (length (list_Items C (m_list C m))))); [|lia].
    eexists. split; [reflexivity|]. repeat split; try lia; intros; discriminate.
  - destruct (Z.ltb_spec 0 (Z.of_nat (length (list_Items C (m_list C m))))); [|lia].
    eexists. split; [reflexivity|]. repeat split; try lia; intros; discriminate.
  - destruct (Z.ltb_spec 0 (Z.of_nat (length (list_Items C (m_list C m))))); [|lia].
    rewrite Hq. rewrite keysFacts.int_wrap_small by lia.
    eexists. split; [reflexivity|].
    destruct (Z.leb_spec (Z.of_nat (length (list_Items C (m_list C m))))
                         (list_Index C (m_list C m) + m_height C m / 3));
      repeat split; try lia; intros; try discriminate;
      match goal with H : _ \/ _ |- _ => destruct H; discriminate end.
  - destruct (Z.ltb_spec 0 (Z.of_nat (length (list_Items C (m_list C m))))); [|lia].
    rewrite Hq. rewrite keysFacts.int_wrap_small by lia.
    eexists. split; [reflexivity|].
    destruct (Z.ltb_spec (list_Index C (m_list C m) - m_height C m / 3) 0);
      repeat split; try lia; intros; try discriminate;
      match goal with H : _ \/ _ |- _ => destruct H; discriminate end.
Qed.

End TimeTravel.

(** ** The label drilldown *)

(** X19. With a cache that holds, for each label in it, the issues of
    the model with that label, [filterIssuesByLabel] returns the issues
    with the label asked, in their order, keeps the cache so, leaves the
    issues, and answers the same when asked again. *)
Theorem filterIssuesByLabel_coherent (label : string) (m : Model C) :
  cache_coherent C m ->
  let r := filterIssuesByLabel C label m in
  fst r = List.filter (hasLabel label) (m_issues C m)
  /\ cache_coherent C (snd r)
  /\ generation C (snd r) = generation C m
  /\ filterIssuesByLabel C label (snd r) = r.
Proof.
  intros Hc. cbv zeta. unfold filterIssuesByLabel.
  destruct (m_labelDrilldownCache C m !! label) as [cached|] eqn:E; cbn [fst snd].
  - split; [exact (Hc _ _ E)|]. split; [exact Hc|]. split; [reflexivity|].
    rewrite E. reflexivity.
  - split; [reflexivity|]. split; [|split; [reflexivity|]].
    + intros l cached.
      change (m_labelDrilldownCache C (set_labelDrilldownCache C ?c m)) with c.
      change (m_issues C (set_labelDrilldownCache C ?c m)) with (m_issues C m).
      destruct (decide (label = l)) as [->|Hne].
      * rewrite lookup_insert_eq. intros [= <-]. reflexivity.
      * rewrite lookup_insert_ne by exact Hne. apply Hc.
    + change (m_labelDrilldownCache C (set_labelDrilldownCache C ?c m)) with c.
      rewrite lookup_insert_eq. reflexivity.
Qed.

(** X20. After a reload that reads the file, the label drilldown
    shows the loaded issues with the label, whatever was cached
    before. *)
Theorem drilldown_after_reload (e : Engine) (m : Model C) (issues : list Issue)
    (warnings : list string) (e' : Engine) (m' : Model C) (cmds : list Cmd)
    (label : string) :
  m_beadsPath C m <> ""%string ->
  LoadIssuesFromFile (m_beadsPath C m) = Ok (issues, warnings) ->
  Update e m FileChangedMsg = Returns (e', m', cmds) ->
  fst (filterIssuesByLabel C label m')
  = List.filter (hasLabel label) (sort_issues C default_less issues).
Proof.
  intros Hp Hl HU.
  rewrite (fileChanged_reload C render_viewport renderSprintDashboard
             LoadIssuesFromFile LoadSprintsFromFile _ _ _ _ Hp Hl) in HU.
  destruct (reload_fields _ _ _ _ _ _ _ HU) as (G & _ & _ & _ & _ & Hc & _).
  cbv zeta in G. unfold generation in G. injection G as Hi _ _.
  unfold filterIssuesByLabel. rewrite Hc, lookup_empty. cbn [fst].
  rewrite Hi. reflexivity.
Qed.

(** ** The alerts panel *)

Section Alerts.

Variable alert_Type : Alert C -> string.
Variable alert_Severity : Alert C -> string.
Variable alert_IssueID : Alert C -> string.

Local Abbreviation alertKey := (alertKey C alert_Type alert_Severity alert_IssueID).
Local Abbreviation activeAlerts :=
  (activeAlerts C alert_Type alert_Severity alert_IssueID).
Local Abbreviation alertsPanelKeys :=
  (alertsPanelKeys C alert_Type alert_Severity alert_IssueID).
Local Abbreviation toggleAlertsPanel :=
  (toggleAlertsPanel C alert_Type alert_Severity alert_IssueID).
Local Abbreviation cursor_ok := (cursor_ok C alert_Type alert_Severity alert_IssueID).

Ltac zcases :=
  repeat (match goal with
          | |- context [Z.leb ?a ?b] => destruct (Z.leb_spec a b)
          | |- context [Z.ltb ?a ?b] => destruct (Z.ltb_spec a b)
          end; cbv iota).

Lemma index_in_range {A} (l : list A) (i : Z) :
  0 <= i < Z.of_nat (length l) -> exists a, index l i = Returns a /\ In a l.
Proof.
  intros Hi. unfold index. destruct (Z.ltb_spec i 0); [lia|].
  destruct (nth_error l (Z.to_nat i)) as [a|] eqn:E.
  - exists a. split; [reflexivity|]. eapply nth_error_In. exact E.
  - apply nth_error_None in E. lia.
Qed.

Lemma dismiss_shrinks (alerts : list (Alert C)) (d : gmap string bool) (a : Alert C) :
  In a (List.filter (fun x => negb (default false (d !! alertKey x))) alerts) ->
  (length (List.filter (fun x => negb (default false (<[alertKey a := true]> d !! alertKey x)))
                       alerts)
   < length (List.filter (fun x => negb (default false (d !! alertKey x))) alerts))%nat.
Proof.
  set (d' := <[alertKey a := true]> d).
  assert (Hk : forall x, d' !! alertKey x
                         = if decide (alertKey a = alertKey x) then Some true
                           else d !! alertKey x).
  { intros x. subst d'. destruct (decide (alertKey a = alertKey x)) as [E|E].
    - rewrite <- E. apply lookup_insert_eq.
    - apply lookup_insert_ne. exact E. }
  assert (Hle : forall l,
            (length (List.filter (fun x => negb (default false (d' !! alertKey x))) l)
             <= length (List.filter (fun x => negb (default false (d !! alertKey x))) l))%nat).
  { induction l as [|y l IH]; cbn [List.filter]; [lia|].
    rewrite Hk. destruct (decide (alertKey a = alertKey y)); cbn [default from_option negb id];
      destruct (negb _); cbn [length]; lia. }
  induction alerts as [|x alerts IH]; cbn [List.filter]; [intros []|].
  rewrite Hk. specialize (Hle alerts).
  destruct (decide (alertKey a = alertKey x)) as [E|E]; cbn [default from_option negb id].
  - destruct (negb (default false (d !! alertKey x))) eqn:Ex.
    + intros _. cbn [length]. lia.
    + exact IH.
  - destruct (negb (default false (d !! alertKey x))).
    + intros [->|Hin]; [contradiction|]. cbn [length]. specialize (IH Hin). lia.
    + exact IH.
Qed.

(** X21. The cursor of the alerts panel: the panel opens with the
    cursor on the first active alert; with a cursor that is not
    negative no key panics; the cursor stays non-negative, and on an
    active alert when it was on one (at 0 when none is left); no key
    opens the panel or changes the alerts; and [d] on an active alert
    leaves fewer active alerts and closes the panel when none is
    left. *)
Theorem alertsPanel_cursor :
  (forall p, m_showAlertsPanel C (panel_model C p) = false ->
             m_showAlertsPanel C (panel_model C (toggleAlertsPanel p)) = true ->
             alertsCursor C (toggleAlertsPanel p) = 0
             /\ cursor_ok (toggleAlertsPanel p))
  /\ (forall s p,
        0 <= alertsCursor C p ->
        exists p',
          alertsPanelKeys s p = Returns p'
          /\ 0 <= alertsCursor C p'
          /\ (cursor_ok p -> cursor_ok p')
          /\ m_alerts C (panel_model C p') = m_alerts C (panel_model C p)
          /\ (m_showAlertsPanel C (panel_model C p') = true ->
              m_showAlertsPanel C (panel_model C p) = true)
          /\ (length (activeAlerts (panel_model C p'))
              <= length (activeAlerts (panel_model C p)))%nat
          /\ (s = "d"%string ->
              alertsCursor C p < Z.of_nat (length (activeAlerts (panel_model C p))) ->
              (length (activeAlerts (panel_model C p'))
               < length (activeAlerts (panel_model C p)))%nat
              /\ (activeAlerts (panel_model C p') = [] ->
                  m_showAlertsPanel C (panel_model C p') = false))).
Proof.
  split.
  - intros p Hclosed. unfold ui_views.toggleAlertsPanel. cbv zeta.
    destruct (Z.ltb_spec 0 (Z.of_nat (length (activeAlerts (panel_model C p)))))
      as [Hn|Hn]; cbn [panel_model alertsCursor].
    + intros _. split; [reflexivity|].
      unfold ui_views.cursor_ok. cbn [panel_model alertsCursor].
      split; [lia|]. left. exact Hn.
    + change (m_showAlertsPanel C (set_statusIsError C false
                (set_statusMsg C "No active alerts" (panel_model C p))))
        with (m_showAlertsPanel C (panel_model C p)).
      rewrite Hclosed. discriminate.
  - intros s [m cursor] Hc. cbn [alertsCursor panel_model] in *.
    unfold ui_views.alertsPanelKeys. cbv zeta. cbn [alertsCursor panel_model].
    set (n := Z.of_nat (length (activeAlerts m))).
    assert (Hsame : forall b x, activeAlerts (set_showAlertsPanel C b x) = activeAlerts x)
      by reflexivity.
    destruct (key_in s ["j"; "down"]) eqn:Kj.
    { assert (s <> "d"%string) by (intros ->; discriminate).
      destruct (Z.ltb_spec cursor (n - 1)); eexists; (split; [reflexivity|]);
        cbn [alertsCursor panel_model]; unfold ui_views.cursor_ok;
        cbn [alertsCursor panel_model]; fold n;
        repeat split; auto; try lia; intros; try contradiction; lia. }
    destruct (key_in s ["k"; "up"]) eqn:Kk.
    { assert (s <> "d"%string) by (intros ->; discriminate).
      destruct (Z.ltb_spec 0 cursor); eexists; (split; [reflexivity|]);
        cbn [alertsCursor panel_model]; unfold ui_views.cursor_ok;
        cbn [alertsCursor panel_model]; fold n;
        repeat split; auto; try lia; intros; try contradiction; lia. }
    destruct (key_in s ["enter"]) eqn:Ke.
    { assert (s <> "d"%string) by (intros ->; discriminate).
      assert (Hsame2 : forall b l x,
                activeAlerts (set_showAlertsPanel C b (set_list C l x)) = activeAlerts x)
        by reflexivity.
      destruct (Z.ltb_spec cursor n) as [Hlt|Hge].
      - destruct (index_in_range (activeAlerts m) cursor ltac:(fold n; lia))
          as (a & -> & _).
        cbn. destruct (negb _); [destruct (indexOfID _ _ 0)|];
          cbn; eexists; (split; [reflexivity|]); cbn [alertsCursor panel_model];
          unfold ui_views.cursor_ok; cbn [alertsCursor panel_model];
          rewrite ?Hsame2, ?Hsame; repeat split; auto; try lia; try discriminate;
          intros; contradiction.
      - cbn; eexists; (split; [reflexivity|]); cbn [alertsCursor panel_model];
          unfold ui_views.cursor_ok; cbn [alertsCursor panel_model];
          rewrite ?Hsame; repeat split; auto; try lia; try discriminate;
          intros; contradiction. }
    destruct (key_in s ["d"]) eqn:Kd.
    { destruct (Z.ltb_spec cursor n) as [Hlt|Hge].
      - destruct (index_in_range (activeAlerts m) cursor ltac:(fold n; lia))
          as (a & -> & Hin).
        cbn [mbind outcome_bind]. cbv zeta. eexists. split; [reflexivity|]. cbn [alertsCursor panel_model].
        set (m1 := set_dismissedAlerts C (<[alertKey a := true]> (m_dismissedAlerts C m)) m).
        pose proof (dismiss_shrinks (m_alerts C m) (m_dismissedAlerts C m) a Hin) as Hs.
        change (length (activeAlerts m1) < length (activeAlerts m))%nat in Hs.
        set (remaining := Z.of_nat (length (activeAlerts m1))) in *.
        assert (Ha : forall x, activeAlerts (if Z.eqb remaining 0
                                             then set_showAlertsPanel C false x else x)
                               = activeAlerts x)
          by (intros x; destruct (Z.eqb remaining 0); reflexivity).
        unfold ui_views.cursor_ok. cbn [alertsCursor panel_model].
        rewrite !Ha. fold remaining.
        assert (Hr : 0 <= remaining) by (subst remaining; lia).
        split; [zcases; lia|].
        split; [intros _; zcases; lia|].
        split; [destruct (Z.eqb remaining 0); reflexivity|].
        split; [destruct (Z.eqb remaining 0);
                [intros H; change (false = true) in H; discriminate
                |intros H; exact H]|].
        split; [lia|]. intros _ _. split; [exact Hs|].
        intros Hnil. destruct (Z.eqb_spec remaining 0) as [_|Hne]; [reflexivity|].
        exfalso. apply Hne. subst remaining. rewrite Hnil. reflexivity.
      - eexists. split; [reflexivity|]. cbn [alertsCursor panel_model].
        subst n. split; [lia|]. split; [auto|]. split; [reflexivity|].
        split; [auto|]. split; [lia|]. intros; lia. }
    assert (s <> "d"%string) by (intros ->; discriminate).
    destruct (key_in s ["esc"; "q"; "!"]);
      eexists; (split; [reflexivity|]); cbn [alertsCursor panel_model];
      unfold ui_views.cursor_ok; cbn [alertsCursor panel_model];
      rewrite ?Hsame; repeat split; auto; try lia; try discriminate;
      intros; contradiction.
Qed.

End Alerts.

End WithEnvironment.

(** ** Sample runs *)

Lemma insert_sorted_Permutation {A} (less : A -> A -> bool) (x : A) (l : list A) :
  Permutation (insert_sorted less x l) (x :: l).
Proof.
  induction l as [|y l IH]; cbn [insert_sorted]; [reflexivity|].
  destruct (less y x); [|reflexivity].
  rewrite IH. apply perm_swap.
Qed.

Lemma insertion_sort_Permutation {A} (less : A -> A -> bool) (l : list A) :
  Permutation (insertion_sort less l) l.
Proof.
  induction l as [|x l IH]; cbn [insertion_sort fold_right]; [reflexivity|].
  rewrite insert_sorted_Permutation. constructor. exact IH.
Qed.

Lemma plain_sort_permutes : sort_permutes plain.
Proof. intros less l. apply insertion_sort_Permutation. Qed.

Lemma plain_sort_items_permutes : sort_items_permutes plain.
Proof. intros less l. apply insertion_sort_Permutation. Qed.

Lemma plain_list_keeps_items : list_keeps_items plain.
Proof. split; reflexivity. Qed.

Lemma chain_noNil : noNilDependency (m_issues plain (snd (model_of chain_issues))).
Proof. repeat constructor; discriminate. Qed.

Lemma filters_return_without_nil_witness :
  exists m', ui.applyFilter plain no_viewport (fst (model_of chain_issues))
               (ready_filter chain_issues) = Returns m'.
Proof.
  apply (proj1 (filters_return_without_nil plain no_viewport
                  (fst (model_of chain_issues)) (ready_filter chain_issues)
                  chain_noNil)).
Defined.

Lemma SetFilter_FilteredIssues_witness :
  exists m',
    ui_views.SetFilter plain no_viewport (fst (model_of nil_dep_issues)) "open"
                       (snd (model_of nil_dep_issues)) = Returns m'
    /\ map ID (FilteredIssues plain m') = ["NIL-DEP-1"%string].
Proof.
  destruct (SetFilter_FilteredIssues plain no_viewport (fst (model_of nil_dep_issues))
              "open" (snd (model_of nil_dep_issues)))
    as (m' & E & F & _).
  - discriminate.
  - exact plain_list_keeps_items.
  - exists m'. split; [exact E|]. rewrite F. vm_compute. reflexivity.
Defined.

Lemma ready_filter_matches_count_witness :
  exists m',
    ui_views.SetFilter plain no_viewport (fst (model_of chain_issues)) "ready"
                       (snd (model_of chain_issues)) = Returns m'
    /\ Z.of_nat (length (FilteredIssues plain m')) = 1.
Proof.
  apply (ready_filter_matches_count plain no_viewport (fst (model_of chain_issues))
           (snd (model_of chain_issues))).
  - exact plain_list_keeps_items.
  - apply NewModel_consistent.
  - exact chain_noNil.
  - repeat constructor.
  - reflexivity.
Defined.

Lemma reload_starts_afresh_witness :
  exists e' m' cmds,
    ui.Update plain no_viewport no_sprint_text (load_gives (rev chain_issues)) no_sprints
              (fst (model_of chain_issues)) (time_travelling chain_issues) FileChangedMsg
    = Returns (e', m', cmds)
    /\ map ID (m_issues plain m') = ["A"; "B"; "C"]%string
    /\ m_timeTravelMode plain m' = false
    /\ In (WatchFileCmd 1%positive) cmds.
Proof.
  eexists _, _, _.
  assert (HU : ui.Update plain no_viewport no_sprint_text
                 (load_gives (rev chain_issues)) no_sprints
                 (fst (model_of chain_issues)) (time_travelling chain_issues)
                 FileChangedMsg
               = Returns (_, _, _)) by (vm_compute; reflexivity).
  destruct (reload_starts_afresh plain no_viewport no_sprint_text
              (load_gives (rev chain_issues)) no_sprints
              (fst (model_of chain_issues)) (time_travelling chain_issues)
              (rev chain_issues) [] _ _ _
              ltac:(vm_compute; discriminate) ltac:(reflexivity) HU)
    as (Hi & _ & _ & _ & _ & _ & _ & _ & Ht & _ & _ & _ & Hw).
  split; [exact HU|]. split; [rewrite Hi; vm_compute; reflexivity|].
  split; [exact Ht|]. apply Hw. reflexivity.
Defined.

Lemma Update_keeps_consistent_witness :
  exists m' cmds,
    ui.Update plain no_viewport no_sprint_text load_fails no_sprints
              (fst (model_of chain_issues)) (snd (model_of chain_issues))
              (Phase2ReadyMsg (Some (m_analysis plain (snd (model_of chain_issues)))))
    = Returns (fst (model_of chain_issues), m', cmds)
    /\ consistent plain m'.
Proof.
  eexists _, _.
  assert (HU : ui.Update plain no_viewport no_sprint_text load_fails no_sprints
                 (fst (model_of chain_issues)) (snd (model_of chain_issues))
                 (Phase2ReadyMsg (Some (m_analysis plain (snd (model_of chain_issues)))))
               = Returns (fst (model_of chain_issues), _, _))
    by (vm_compute; reflexivity).
  split; [exact HU|].
  refine (proj2 (Update_keeps_consistent plain no_viewport no_sprint_text load_fails
                   no_sprints watcher_starts)
                (fst (model_of chain_issues)) (snd (model_of chain_issues)) _ _ _ _
                plain_sort_permutes _
                (NewModel_consistent plain no_sprints watcher_starts empty_engine
                   chain_issues None beads_path)
                HU).
  vm_compute. repeat (constructor; [cbn; intuition discriminate|]). constructor.
Defined.

Lemma exitTimeTravelMode_clears_witness :
  exists m',
    ui_views.exitTimeTravelMode plain no_viewport (fst (model_of chain_issues))
                                (time_travelling chain_issues) = Returns m'
    /\ m_timeTravelMode plain m' = false
    /\ m_statusMsg plain m' = "⏱️ Time-travel mode disabled"%string.
Proof.
  eexists.
  assert (HE : ui_views.exitTimeTravelMode plain no_viewport (fst (model_of chain_issues))
                 (time_travelling chain_issues) = Returns _)
    by (vm_compute; reflexivity).
  destruct (exitTimeTravelMode_clears plain no_viewport _ _ _
              plain_list_keeps_items plain_sort_items_permutes HE) as (T & _).
  split; [exact HE|]. split; [|reflexivity].
  exact (f_equal (fun t => fst (fst (fst (fst (fst t))))) T).
Defined.

Lemma enterTimeTravelMode_outcome_witness :
  exists m',
    ui_views.enterTimeTravelMode plain no_viewport getwd_repo resolves has_beads load_at
      compare new_issues closed_issues modified_issues summary
      (fst (model_of chain_issues)) "HEAD~5" (snd (model_of chain_issues)) = Returns m'
    /\ m_timeTravelMode plain m' = true
    /\ map (fun it => (ID (item_Issue it), item_DiffStatus it))
           (list_Items plain (m_list plain m'))
       = [("A", DiffStatusModified); ("B", DiffStatusNone); ("C", DiffStatusNew)]%string.
Proof.
  eexists.
  assert (HE : ui_views.enterTimeTravelMode plain no_viewport getwd_repo resolves
                 has_beads load_at compare new_issues closed_issues modified_issues
                 summary (fst (model_of chain_issues)) "HEAD~5"
                 (snd (model_of chain_issues)) = Returns _)
    by (vm_compute; reflexivity).
  destruct (enterTimeTravelMode_outcome plain no_viewport getwd_repo resolves
              has_beads load_at compare new_issues closed_issues modified_issues
              summary _ _ _ _ plain_list_keeps_items plain_sort_items_permutes HE)
    as (_ & [[H _]|(_ & Hm & _)]).
  - vm_compute in H. discriminate.
  - split; [exact HE|]. split; [exact Hm|]. vm_compute. reflexivity.
Defined.

Lemma handleListKeys_selection_in_range_witness :
  ui_views.handleListKeys plain no_viewport getwd_repo resolves has_beads load_at
    compare new_issues closed_issues modified_issues summary
    (fst (model_of chain_issues)) "G" (snd (model_of chain_issues))
  = Some (Returns (set_list plain
                     (list_Select plain (m_list plain (snd (model_of chain_issues))) 2)
                     (snd (model_of chain_issues)))).
Proof.
  destruct (handleListKeys_selection_in_range plain no_viewport getwd_repo resolves
              has_beads load_at compare new_issues closed_issues modified_issues
              summary (fst (model_of chain_issues)) "G" (snd (model_of chain_issues)))
    as (newIdx & E & _ & _ & HG & _).
  - right. left. reflexivity.
  - vm_compute. split; [discriminate|reflexivity].
  - vm_compute. split; [discriminate|reflexivity].
  - vm_compute. reflexivity.
  - rewrite E, HG by (left; reflexivity). reflexivity.
Defined.

Lemma filterIssuesByLabel_coherent_witness :
  map ID (fst (filterIssuesByLabel plain "bug"
                 (snd (NewModel plain no_sprints watcher_starts empty_engine
                         labelled_issues None beads_path))))
  = ["A"; "B"]%string.
Proof.
  destruct (filterIssuesByLabel_coherent plain "bug"
              (snd (NewModel plain no_sprints watcher_starts empty_engine
                      labelled_issues None beads_path))) as (H & _).
  - intros label cached H. vm_compute in H. discriminate.
  - rewrite H. vm_compute. reflexivity.
Defined.

Lemma drilldown_after_reload_witness :
  exists e' m' cmds,
    ui.Update plain no_viewport no_sprint_text (load_gives labelled_issues) no_sprints
              (fst (model_of chain_issues)) (snd (model_of chain_issues)) FileChangedMsg
    = Returns (e', m', cmds)
    /\ map ID (fst (filterIssuesByLabel plain "ui" m')) = ["A"]%string.
Proof.
  eexists _, _, _.
  assert (HU : ui.Update plain no_viewport no_sprint_text
                 (load_gives labelled_issues) no_sprints
                 (fst (model_of chain_issues)) (snd (model_of chain_issues))
                 FileChangedMsg
               = Returns (_, _, _)) by (vm_compute; reflexivity).
  split; [exact HU|].
  rewrite (drilldown_after_reload plain no_viewport no_sprint_text
             (load_gives labelled_issues) no_sprints
             (fst (model_of chain_issues)) (snd (model_of chain_issues))
             labelled_issues [] _ _ _ "ui"
             ltac:(vm_compute; discriminate) ltac:(reflexivity) HU).
  vm_compute. reflexivity.
Defined.

Lemma alertsPanel_cursor_witness :
  exists p',
    alertsPanelKeys plain alert_text alert_text alert_text "d" two_alerts = Returns p'
    /\ alertsCursor plain p' = 0
    /\ m_showAlertsPanel plain (panel_model plain p') = true.
Proof.
  destruct (proj2 (alertsPanel_cursor plain alert_text alert_text alert_text)
                  "d"%string two_alerts ltac:(cbn; lia))
    as (p' & E & _).
  exists p'. split; [exact E|].
  vm_compute in E. injection E as <-. split; reflexivity.
Defined.

End viewFacts.

Module labelFlowFacts.
Import model model_keys model_render_label samples.

Lemma ltb_asym (a b : string) : String.ltb a b = true -> String.ltb b a = false.
Proof.
  unfold String.ltb. rewrite (String.compare_antisym b a).
  destruct (String.compare a b); cbn; congruence.
Qed.

Lemma ltb_trans (a b c : string) :
  String.ltb a b = true -> String.ltb b c = true -> String.ltb a c = true.
Proof.
  unfold String.ltb. intros H1 H2.
  assert (L1 : String.compare a b = Lt) by (destruct (String.compare a b); congruence).
  assert (L2 : String.compare b c = Lt) by (destruct (String.compare b c); congruence).
  apply OrderedTypeEx.String_as_OT.cmp_lt in L1, L2.
  pose proof (OrderedTypeEx.String_as_OT.lt_trans _ _ _ L1 L2) as L.
  apply OrderedTypeEx.String_as_OT.cmp_lt in L.
  unfold OrderedTypeEx.String_as_OT.cmp in L. rewrite L. reflexivity.
Qed.

Lemma ltb_total (a b : string) :
  String.ltb a b = false -> String.ltb b a = false -> a = b.
Proof.
  unfold String.ltb. rewrite (String.compare_antisym b a).
  destruct (String.compare a b) eqn:E; cbn; try congruence.
  intros _ _. apply String.compare_eq_iff. exact E.
Qed.

Lemma count_less_total (a b : labelCount) :
  count_less b a = false -> count_less a b = false -> a = b.
Proof.
  unfold count_less. destruct a as [la ca], b as [lb cb]. cbn [Label Count].
  rewrite (Z.eqb_sym ca cb).
  destruct (Z.eqb_spec cb ca) as [->|Hne].
  - intros H1 H2. f_equal. apply ltb_total; assumption.
  - destruct (Z.ltb_spec ca cb), (Z.ltb_spec cb ca); intros; try discriminate; lia.
Qed.

Lemma count_less_asym (a b : labelCount) :
  count_less a b = true -> count_less b a = false.
Proof.
  unfold count_less. rewrite (Z.eqb_sym (Count b) (Count a)).
  destruct (Z.eqb_spec (Count a) (Count b)).
  - apply ltb_asym.
  - destruct (Z.ltb_spec (Count b) (Count a)), (Z.ltb_spec (Count a) (Count b));
      intros; try discriminate; try reflexivity; lia.
Qed.

Lemma count_less_trans (a b c : labelCount) :
  count_less a b = true -> count_less b c = true -> count_less a c = true.
Proof.
  unfold count_less.
  destruct (Z.eqb_spec (Count a) (Count b)) as [E1|E1],
           (Z.eqb_spec (Count b) (Count c)) as [E2|E2],
           (Z.eqb_spec (Count a) (Count c)) as [E3|E3];
    try (apply ltb_trans); try lia;
    repeat match goal with
    | |- context [Z.ltb ?x ?y] => destruct (Z.ltb_spec x y)
    end; intros; try discriminate; try reflexivity; try lia.
Qed.

Lemma StronglySorted_weaken {A} (R R' : A -> A -> Prop) (l : list A) :
  (forall a b, R a b -> R' a b) ->
  Sorted.StronglySorted R l -> Sorted.StronglySorted R' l.
Proof.
  intros H. induction 1 as [|a l _ IH F]; constructor; [exact IH|].
  eapply List.Forall_impl; [|exact F]. intros b. apply H.
Qed.

Section Flows.

Variable ComputeCrossLabelFlow : list Issue -> list CrossLabelDependency.

Lemma collect_Permutation (range1 range2 : gmap string Z -> list (string * Z))
    (counts : gmap string Z) :
  ranges range1 -> ranges range2 ->
  Permutation (collect range1 counts) (collect range2 counts).
Proof.
  intros H1 H2. unfold collect. apply Permutation_map.
  rewrite (H1 counts), (H2 counts). reflexivity.
Qed.

Lemma sorted_same (sort1 sort2 : (labelCount -> labelCount -> bool) ->
                                 list labelCount -> list labelCount)
    (l1 l2 : list labelCount) :
  sorts sort1 -> sorts sort2 -> Permutation l1 l2 ->
  sort1 count_less l1 = sort2 count_less l2.
Proof.
  intros S1 S2 P. destruct (S1 l1) as [P1 T1], (S2 l2) as [P2 T2].
  apply (sorting.StronglySorted_unique_strong
           (fun a b => count_less b a = false)); try assumption.
  - intros x1 x2 _ _ Ha Hb. apply count_less_total; assumption.
  - rewrite P1, P2. exact P.
Qed.

(** X24. [getCrossFlowsForLabel] does not depend on the order in which
    the two maps are visited, nor on the sorting algorithm: any two runs
    give the same summary. In it no count is below a later one, for
    equal counts no label is after a later one, and the incoming labels
    are distinct. *)
Theorem getCrossFlowsForLabel_order_free
    (range1 range2 : gmap string Z -> list (string * Z))
    (sort1 sort2 : (labelCount -> labelCount -> bool) ->
                   list labelCount -> list labelCount)
    (issues : list Issue) (label : string) :
  ranges range1 -> ranges range2 -> sorts sort1 -> sorts sort2 ->
  let out := getCrossFlowsForLabel ComputeCrossLabelFlow range1 sort1 issues label in
  out = getCrossFlowsForLabel ComputeCrossLabelFlow range2 sort2 issues label
  /\ Sorted.StronglySorted
       (fun a b => Count b < Count a \/ (Count a = Count b /\ String.ltb (Label b) (Label a) = false))
       (Incoming out)
  /\ Sorted.StronglySorted
       (fun a b => Count b < Count a \/ (Count a = Count b /\ String.ltb (Label b) (Label a) = false))
       (Outgoing out)
  /\ List.NoDup (map Label (Incoming out))
  /\ List.NoDup (map Label (Outgoing out)).
Proof.
  intros R1 R2 S1 S2. cbv zeta. unfold getCrossFlowsForLabel.
  destruct (fold_left (tally label) (ComputeCrossLabelFlow issues) (∅, ∅))
    as [inCounts outCounts].
  cbn [Incoming Outgoing].
  assert (Hs : forall l, Sorted.StronglySorted
                 (fun a b => Count b < Count a
                             \/ (Count a = Count b /\ String.ltb (Label b) (Label a) = false))
                 (sort1 count_less l)).
  { intros l. destruct (S1 l) as [_ T].
    eapply StronglySorted_weaken; [|exact T]. cbv beta.
    intros a b. unfold count_less.
    rewrite (Z.eqb_sym (Count b) (Count a)).
    destruct (Z.eqb_spec (Count a) (Count b)); [auto|].
    destruct (Z.ltb_spec (Count a) (Count b)); [discriminate|]. intros _. left. lia. }
  assert (Hn : forall counts : gmap string Z,
                 List.NoDup (map Label (sort1 count_less (collect range1 counts)))).
  { intros counts. destruct (S1 (collect range1 counts)) as [P _].
    eapply Permutation_NoDup; [symmetry; apply Permutation_map; exact P|].
    unfold collect. rewrite map_map. cbn [Label].
    eapply Permutation_NoDup;
      [symmetry; apply Permutation_map; apply R1|].
    apply NoDup_ListNoDup. apply (NoDup_fst_map_to_list counts). }
  split; [|split; [apply Hs|split; [apply Hs|split; apply Hn]]].
  f_equal; apply sorted_same; try assumption; apply collect_Permutation; assumption.
Qed.

End Flows.

Lemma insert_sorted_count_less (x : labelCount) (l : list labelCount) :
  Sorted.StronglySorted (fun a b => count_less b a = false) l ->
  Sorted.StronglySorted (fun a b => count_less b a = false)
                        (insert_sorted count_less x l).
Proof.
  induction 1 as [|y l S IH F]; cbn [insert_sorted].
  - repeat constructor.
  - destruct (count_less y x) eqn:E.
    + constructor; [exact IH|].
      eapply Permutation_Forall;
        [symmetry; apply viewFacts.insert_sorted_Permutation|].
      constructor; [apply count_less_asym; exact E|exact F].
    + constructor; [constructor; assumption|].
      constructor; [exact E|].
      eapply List.Forall_impl; [|exact F]. cbv beta. intros z Hz.
      destruct (count_less z x) eqn:Ez; [|reflexivity].
      destruct (count_less x y) eqn:Exy.
      * rewrite (count_less_trans _ _ _ Ez Exy) in Hz. discriminate.
      * rewrite (count_less_total _ _ E Exy) in Ez. congruence.
Qed.

Lemma insertion_sort_sorts : sorts insertion_sort.
Proof.
  intros l. split; [apply viewFacts.insertion_sort_Permutation|].
  induction l as [|x l IH]; cbn [insertion_sort fold_right]; [constructor|].
  apply insert_sorted_count_less. exact IH.
Qed.

Lemma getCrossFlowsForLabel_order_free_witness :
  getCrossFlowsForLabel sample_flow range_sorted insertion_sort [] "ui"
  = getCrossFlowsForLabel sample_flow range_reversed insertion_sort [] "ui"
  /\ Incoming (getCrossFlowsForLabel sample_flow range_reversed insertion_sort [] "ui")
     = [mkLabelCount "api" 5; mkLabelCount "db" 5].
Proof.
  split; [|vm_compute; reflexivity].
  apply (getCrossFlowsForLabel_order_free sample_flow range_sorted range_reversed
           insertion_sort insertion_sort [] "ui").
  - intros counts. reflexivity.
  - intros counts. unfold range_reversed. symmetry. apply Permutation_rev.
  - exact insertion_sort_sorts.
  - exact insertion_sort_sorts.
Defined.

End labelFlowFacts.

Module alertsFacts.
Import model drift alerts.

Section WithDrift.

Variable GraphStats : Type.
Variable stats_NodeCount : GraphStats -> Z.
Variable stats_EdgeCount : GraphStats -> Z.
Variable stats_Density : GraphStats -> float.
Variable stats_Cycles : GraphStats -> list (list string).
Variable Analyzer : Type.
Variable GetActionableIssues : Analyzer -> list Issue.
Variable Alert : Type.
Variable alert_Severity : Alert -> string.
Variable SeverityCritical : string.
Variable SeverityWarning : string.
Variable SeverityInfo : string.
Variable Calculate : Baseline -> Baseline -> Config -> list Issue -> list Alert.
Variable os_Getwd : string.
Variable os_ReadFile : string -> ReadFile_result.
Variable filepath_Join : list string -> string.
Variable yaml_Unmarshal : list byte -> Config -> result Config.

Local Abbreviation countSeverity :=
  (countSeverity Alert alert_Severity SeverityCritical SeverityWarning SeverityInfo).
Local Abbreviation driftConfig :=
  (driftConfig os_Getwd os_ReadFile filepath_Join yaml_Unmarshal).
Local Abbreviation curStats :=
  (curStats GraphStats stats_NodeCount stats_EdgeCount stats_Density stats_Cycles
            Analyzer GetActionableIssues).
Local Abbreviation computeAlerts :=
  (computeAlerts GraphStats stats_NodeCount stats_EdgeCount stats_Density
     stats_Cycles Analyzer GetActionableIssues Alert alert_Severity
     SeverityCritical SeverityWarning SeverityInfo Calculate os_Getwd os_ReadFile
     filepath_Join yaml_Unmarshal).

Lemma driftConfig_valid : Validate driftConfig = None.
Proof.
  unfold alerts.driftConfig, LoadConfig.
  destruct (os_ReadFile _) as [data|msg|msg]; try reflexivity.
  destruct (yaml_Unmarshal data DefaultConfig) as [config|msg]; [|reflexivity].
  destruct (Validate config) eqn:E; [reflexivity|exact E].
Qed.

Lemma countStatus_total (issues : list Issue) (acc : Z * Z * Z) :
  let '(o, c, b) := acc in
  let '(o', c', b') := fold_left countStatus issues acc in
  o' + c' + b' = o + c + b + Z.of_nat (length issues)
  /\ o <= o' /\ c <= c' /\ b <= b'.
Proof.
  revert acc. induction issues as [|i issues IH]; intros [[o c] b].
  - cbn. lia.
  - cbn [fold_left length]. unfold countStatus at 2.
    destruct (String.eqb (IssueStatus i) StatusClosed);
      [|destruct (String.eqb (IssueStatus i) StatusBlocked)];
      match goal with
      | |- context [fold_left countStatus issues ?a] =>
        specialize (IH a); cbv beta iota in IH;
        destruct (fold_left countStatus issues a) as [[o' c'] b']
      end; lia.
Qed.

Lemma countSeverity_total (result : list Alert) (acc : Z * Z * Z) :
  let '(cr, wa, inf) := acc in
  let '(cr', wa', inf') := fold_left countSeverity result acc in
  cr <= cr' /\ wa <= wa' /\ inf <= inf'
  /\ cr' + wa' + inf' <= cr + wa + inf + Z.of_nat (length result)
  /\ cr' = cr + Z.of_nat (length (List.filter
             (fun a => String.eqb (alert_Severity a) SeverityCritical) result)).
Proof.
  revert acc. induction result as [|a result IH]; intros [[cr wa] inf].
  - cbn. lia.
  - cbn [fold_left length List.filter]. unfold alerts.countSeverity at 2.
    destruct (String.eqb (alert_Severity a) SeverityCritical);
      [|destruct (String.eqb (alert_Severity a) SeverityWarning);
        [|destruct (String.eqb (alert_Severity a) SeverityInfo)]];
      match goal with
      | |- context [fold_left countSeverity result ?a] =>
        specialize (IH a); cbv beta iota in IH;
        destruct (fold_left countSeverity result a) as [[cr' wa'] inf']
      end; cbn [length]; lia.
Qed.

(** X23. [computeAlerts] counts each alert under at most one severity,
    so the three counts are non-negative and together at most the
    number of alerts; without issues, statistics or analyzer there are
    no alerts; otherwise the alerts are the calculator's, run on the
    current statistics as both baseline and current state, with
    thresholds that pass [Validate], and with status counts that add up
    to the number of issues. *)
Theorem computeAlerts_tallies (issues : list Issue) (stats : option GraphStats)
    (analyzer : option Analyzer) :
  let '(found, critical, warning, info) := computeAlerts issues stats analyzer in
  0 <= critical /\ 0 <= warning /\ 0 <= info
  /\ critical + warning + info <= Z.of_nat (length found)
  /\ (issues = [] \/ stats = None \/ analyzer = None -> found = [])
  /\ (forall s a, issues <> [] -> stats = Some s -> analyzer = Some a ->
        exists config cur,
          Validate config = None
          /\ found = Calculate {| Stats := cur; Cycles := [] |}
                               {| Stats := cur; Cycles := stats_Cycles s |}
                               config issues
          /\ OpenCount cur + ClosedCount cur + BlockedCount cur
             = Z.of_nat (length issues)
          /\ CycleCount cur = Z.of_nat (length (stats_Cycles s))).
Proof.
  unfold alerts.computeAlerts.
  destruct issues as [|i issues].
  { repeat split; try lia; auto. intros s a H. contradiction. }
  destruct stats as [s|].
  2:{ repeat split; try lia; auto. intros s a _ H. discriminate. }
  destruct analyzer as [a|].
  2:{ repeat split; try lia; auto. intros s0 a _ _ H. discriminate. }
  cbv zeta.
  match goal with
  | |- context [fold_left countSeverity ?r (0, 0, 0)] =>
    pose proof (countSeverity_total r (0, 0, 0)) as T; cbv beta iota in T;
    destruct (fold_left countSeverity r (0, 0, 0)) as [[cr wa] inf] eqn:Ef
  end.
  split; [lia|]. split; [lia|]. split; [lia|]. split; [lia|].
  split; [intros [H|[H|H]]; discriminate|].
  intros s0 a0 _ [= <-] [= <-].
  exists driftConfig, (curStats (i :: issues) s a).
  split; [apply driftConfig_valid|]. split; [reflexivity|].
  unfold alerts.curStats.
  pose proof (countStatus_total (i :: issues) (0, 0, 0)) as S. cbv beta iota in S.
  destruct (fold_left countStatus (i :: issues) (0, 0, 0)) as [[o c] b].
  cbn [OpenCount ClosedCount BlockedCount CycleCount]. split; [lia|reflexivity].
Qed.

End WithDrift.

End alertsFacts.
